(** * Kai / NEX vision overlay client

    A shallow embedding of the vision module of
    [src/nex/ui/static/js/nex-history.js] (lines 501-968): the camera
    start/stop sequence, the socket handlers, the capture tick guarded by
    the in-flight flag, the statistics, the HUD draw routines and the
    detection panel, followed by the properties of that code.  The two
    other modules of the file, the history drawer (lines 5-211) and the
    conversation feed (lines 218-495), are embedded after the vision
    module; their properties close the development.

    Conventions of the embedding.
    - A JavaScript number is an IEEE binary64 [float]; counters that only
      ever hold small naturals ([frameCount], [currentFps], group counts)
      are [nat].
    - One call of an event handler is one function on [State]: the page is
      single threaded, a handler runs to completion.
    - The inbound JSON is typed by the wire contract, but every property
      may be absent ([None], read as [undefined]; for the array-valued
      properties and the fields of the message itself [null] behaves the
      same way) and every array element may be [null].
    - A thrown exception is the [Throw] completion of the monad [M]; the
      state written before the throw is kept, as in JavaScript.
    - The browser side (sockets, timers, animation frames, media tracks,
      console, requests that have not settled yet) is part of the state, so
      that its effects can be observed after the script has dropped its
      references.
    - An [async] function is cut at its [await]s: the part up to an [await]
      runs in the turn that called it, the part after it in the turn in
      which the awaited request settles, and any other event may be handled
      in between.
    - A string assigned to [innerHTML] is kept as the string the script
      built, not as the elements the parser makes of it. *)

From Stdlib Require Import Floats ZArith NArith Ascii String DecimalString DecimalZ
  DecimalPos.
From stdpp Require Import base option list strings sorting.

Set Warnings "-inexact-float".

(** ** JavaScript numbers and the [Math] functions the module calls *)

Module Js.

(** [ToNumber(undefined)] is [NaN]. *)
Definition num (o : option float) : float := default nan o.

(** [a >= b]: [false] as soon as one side is [NaN]. *)
Definition ge (a b : float) : bool := (b <=? a)%float.

(** Truthiness of a number: [0], [-0] and [NaN] are falsy. *)
Definition truthy (x : float) : bool := negb (is_zero x || is_nan x).

(** [x || 0] for a possibly absent number. *)
Definition or_zero (o : option float) : float :=
  match o with
  | Some x => if truthy x then x else 0%float
  | None => 0%float
  end.

Definition of_nat (n : nat) : float := of_uint63 (Uint63.of_Z (Z.of_nat n)).

(** [Math.max(a, b)]: [NaN] if either is; [+0] counts as larger than [-0]. *)
Definition Math_max (a b : float) : float :=
  if is_nan a || is_nan b then nan
  else if (a <? b)%float then b
  else if (b <? a)%float then a
  else if is_zero a then (a + b)%float
  else a.

(** [Math.min(a, b)]: [NaN] if either is; [-0] counts as smaller than [+0]. *)
Definition Math_min (a b : float) : float :=
  if is_nan a || is_nan b then nan
  else if (a <? b)%float then a
  else if (b <? a)%float then b
  else if is_zero a then (- ((- a) + (- b)))%float
  else a.

Definition two52 : float := 4503599627370496%float.

(** The largest integer not above [x], for finite [x] below [2^52] in
    magnitude (every larger float is an integer already). *)
Definition floor (x : float) : float :=
  if is_nan x || is_infinity x then x
  else if (two52 <=? abs x)%float then x
  else
    let r := if (0 <=? x)%float then ((x + two52) - two52)%float
             else ((x - two52) + two52)%float in
    if (x <? r)%float then (r - 1)%float else r.

(** [Math.round(x)]: the nearest integer, ties towards +infinity; the sign
    of a zero result is the sign of [x]. *)
Definition Math_round (x : float) : float :=
  if is_nan x || is_infinity x || is_zero x then x
  else if (two52 <=? abs x)%float then x
  else
    let f := floor x in
    let r := if (0.5 <=? x - f)%float then (f + 1)%float else f in
    if is_zero r && (x <? 0)%float then neg_zero else r.

(** [String(n)] for a natural number. *)
Definition string_of_nat (n : nat) : string :=
  NilZero.string_of_uint (Nat.to_uint n).

End Js.

(** ** Wire data (spec section 3, as [JSON.parse] hands it over) *)

(** One element of [detections] or [classifications].  [det_bbox] is [None]
    when the property is absent or [null] (not iterable); a polygon point is
    [None] when the array element is [null]. *)
Record Detection := {
  det_class : option string;
  det_confidence : option float;
  det_bbox : option (list float);
  det_polygon : option (list (option (list float)));
}.

(** The properties of a parsed message object that the module reads. *)
Record ResultMsg := {
  msg_mode : option string;
  msg_inference_ms : option float;
  msg_detections : option (list (option Detection));
  msg_classifications : option (list (option Detection));
}.

(** [event.data] as seen by [JSON.parse] and by [msg.type]: the text does
    not parse, it parses to [null], or it parses to a value whose [type]
    property is [msg_type] (absent on anything that is not an object). *)
Inductive Inbound :=
| Unparsable
| ParsedNull
| Parsed (msg_type : option string) (msg : ResultMsg).

(** Messages the module sends (spec section 6). *)
Inductive OutMsg :=
| AuthMsg (token : string)
| FrameMsg (data : string) (mode : string) (confidence : float).

Definition is_frame (m : OutMsg) : bool :=
  match m with FrameMsg _ _ _ => true | AuthMsg _ => false end.

(** ** The browser side *)

Inductive ReadyState := CONNECTING | OPEN | CLOSING | CLOSED.

Definition ReadyState_eqb (a b : ReadyState) : bool :=
  match a, b with
  | CONNECTING, CONNECTING | OPEN, OPEN | CLOSING, CLOSING | CLOSED, CLOSED => true
  | _, _ => false
  end.

(** A WebSocket as the browser holds it.  [token] is the credential that
    the handlers installed on this socket captured (line 623). *)
Record Socket := {
  readyState : ReadyState;
  sent : list OutMsg;
  token : string;
}.

Inductive Track := Live | Ended.

Inductive JsError := TypeError | SyntaxError | InvalidStateError | NotAllowedError.

Inductive Completion (A : Type) :=
| Normal (a : A)
| Throw (e : JsError).
Arguments Normal {A} a.
Arguments Throw {A} e.

(** ** What the page shows *)

(** The label of a box or of a classification bar,
    [`${class} ${Math.round(confidence * 100)}%`], kept as its two parts. *)
Record Label := {
  label_class : string;
  label_pct : float;
}.

(** The canvas styles the module assigns before it paints. *)
Inductive Style :=
| CYAN | CYAN_DIM | CYAN_FILL | PolygonFill | ChipFill
| BarBackground | BarFill | BorderStroke | ScanGradient.

(** A horizontal extent: pixels, or the measured width of a label plus a
    padding ([ctx.measureText(label).width + 12]). *)
Inductive Extent :=
| Px (v : float)
| TextWidthPlus (l : Label) (pad : float).

(** The calls on the 2D context, each with the style in force.  The
    scanline band is kept as one opaque command: its vertical position
    ([scanlineY]) is decoration no property below depends on. *)
Inductive Cmd :=
| BeginPath
| MoveTo (x y : float)
| LineTo (x y : float)
| ClosePath
| Fill (st : Style)
| Stroke (st : Style) (lineWidth : float)
| FillRect (st : Style) (x y : float) (w : Extent) (h : float)
| StrokeRect (st : Style) (x y : float) (w : Extent) (h : float)
| FillText (st : Style) (text : string + Label) (x y : float)
| ScanlineBand (cw : float).

(** A string built by a template literal, as the sequence of its pieces:
    text, or a number the template converts to its decimal form. *)
Inductive Chunk :=
| Str (s : string)
| Num (x : float).

Abbreviation Html := (list Chunk).

Record Chrome := {
  video_src : option nat;
  video_shown : bool;
  noCamera_shown : bool;
  noCamera_text : string;
  scanline_shown : bool;
  startBtn_text : string;
  startBtn_active : bool;
}.

Record Dom := {
  fpsEl : nat;               (* textContent of #vision-fps *)
  inferenceEl : float;       (* #vision-inference, followed by "ms" *)
  objectsEl : nat;           (* #vision-objects *)
  confidenceEl : float;      (* #vision-confidence, followed by "%" *)
  detectionsEl : Html;             (* innerHTML of #vision-detections *)
  canvas_width : float;
  canvas_height : float;
  canvas : list Cmd;         (* painted since the canvas was last cleared *)
  chrome : Chrome;
}.

Record Browser := {
  sockets : list Socket;           (* every WebSocket ever constructed *)
  streams : list (list Track);     (* every MediaStream ever acquired *)
  intervals : list nat;            (* live setInterval handles *)
  rafs : list nat;                 (* pending requestAnimationFrame handles *)
  next_handle : nat;
  console : list string;           (* console.error lines *)
  media_requests : nat;            (* getUserMedia promises not yet settled *)
  token_requests : nat;            (* token requests not yet settled *)
}.

(** The module's closure variables (lines 535-552). *)
Record Vars := {
  stream : option nat;
  ws : option nat;
  active : bool;
  mode : string;
  confThreshold : float;
  awaitingResponse : bool;
  sendTimer : option nat;
  rafId : option nat;
  currentDetections : list (option Detection);
  currentMode : option string;
  frameCount : nat;
  lastFpsTime : float;
  currentFps : nat;
  lastInferenceMs : float;
}.

Record State := {
  vars :> Vars;
  dom :> Dom;
  browser :> Browser;
}.

(** ** Assignments *)

Section Setters.
Context (v : Vars).

Definition set_stream x := Build_Vars x (ws v) (active v) (mode v) (confThreshold v)
  (awaitingResponse v) (sendTimer v) (rafId v) (currentDetections v) (currentMode v)
  (frameCount v) (lastFpsTime v) (currentFps v) (lastInferenceMs v).
Definition set_ws x := Build_Vars (stream v) x (active v) (mode v) (confThreshold v)
  (awaitingResponse v) (sendTimer v) (rafId v) (currentDetections v) (currentMode v)
  (frameCount v) (lastFpsTime v) (currentFps v) (lastInferenceMs v).
Definition set_active x := Build_Vars (stream v) (ws v) x (mode v) (confThreshold v)
  (awaitingResponse v) (sendTimer v) (rafId v) (currentDetections v) (currentMode v)
  (frameCount v) (lastFpsTime v) (currentFps v) (lastInferenceMs v).
Definition set_mode x := Build_Vars (stream v) (ws v) (active v) x (confThreshold v)
  (awaitingResponse v) (sendTimer v) (rafId v) (currentDetections v) (currentMode v)
  (frameCount v) (lastFpsTime v) (currentFps v) (lastInferenceMs v).
Definition set_confThreshold x := Build_Vars (stream v) (ws v) (active v) (mode v) x
  (awaitingResponse v) (sendTimer v) (rafId v) (currentDetections v) (currentMode v)
  (frameCount v) (lastFpsTime v) (currentFps v) (lastInferenceMs v).
Definition set_awaitingResponse x := Build_Vars (stream v) (ws v) (active v) (mode v)
  (confThreshold v) x (sendTimer v) (rafId v) (currentDetections v) (currentMode v)
  (frameCount v) (lastFpsTime v) (currentFps v) (lastInferenceMs v).
Definition set_sendTimer x := Build_Vars (stream v) (ws v) (active v) (mode v)
  (confThreshold v) (awaitingResponse v) x (rafId v) (currentDetections v) (currentMode v)
  (frameCount v) (lastFpsTime v) (currentFps v) (lastInferenceMs v).
Definition set_rafId x := Build_Vars (stream v) (ws v) (active v) (mode v)
  (confThreshold v) (awaitingResponse v) (sendTimer v) x (currentDetections v) (currentMode v)
  (frameCount v) (lastFpsTime v) (currentFps v) (lastInferenceMs v).
Definition set_currentDetections x := Build_Vars (stream v) (ws v) (active v) (mode v)
  (confThreshold v) (awaitingResponse v) (sendTimer v) (rafId v) x (currentMode v)
  (frameCount v) (lastFpsTime v) (currentFps v) (lastInferenceMs v).
Definition set_currentMode x := Build_Vars (stream v) (ws v) (active v) (mode v)
  (confThreshold v) (awaitingResponse v) (sendTimer v) (rafId v) (currentDetections v) x
  (frameCount v) (lastFpsTime v) (currentFps v) (lastInferenceMs v).
Definition set_frameCount x := Build_Vars (stream v) (ws v) (active v) (mode v)
  (confThreshold v) (awaitingResponse v) (sendTimer v) (rafId v) (currentDetections v)
  (currentMode v) x (lastFpsTime v) (currentFps v) (lastInferenceMs v).
Definition set_lastFpsTime x := Build_Vars (stream v) (ws v) (active v) (mode v)
  (confThreshold v) (awaitingResponse v) (sendTimer v) (rafId v) (currentDetections v)
  (currentMode v) (frameCount v) x (currentFps v) (lastInferenceMs v).
Definition set_currentFps x := Build_Vars (stream v) (ws v) (active v) (mode v)
  (confThreshold v) (awaitingResponse v) (sendTimer v) (rafId v) (currentDetections v)
  (currentMode v) (frameCount v) (lastFpsTime v) x (lastInferenceMs v).
Definition set_lastInferenceMs x := Build_Vars (stream v) (ws v) (active v) (mode v)
  (confThreshold v) (awaitingResponse v) (sendTimer v) (rafId v) (currentDetections v)
  (currentMode v) (frameCount v) (lastFpsTime v) (currentFps v) x.
End Setters.

Section DomSetters.
Context (d : Dom).

Definition set_stats (fps : nat) (inf : float) (objs : nat) (conf : float) : Dom :=
  Build_Dom fps inf objs conf (detectionsEl d) (canvas_width d) (canvas_height d)
    (canvas d) (chrome d).
Definition set_detectionsEl x : Dom :=
  Build_Dom (fpsEl d) (inferenceEl d) (objectsEl d) (confidenceEl d) x
    (canvas_width d) (canvas_height d) (canvas d) (chrome d).
Definition set_canvas_size w h : Dom :=
  Build_Dom (fpsEl d) (inferenceEl d) (objectsEl d) (confidenceEl d) (detectionsEl d)
    w h (canvas d) (chrome d).
Definition set_canvas x : Dom :=
  Build_Dom (fpsEl d) (inferenceEl d) (objectsEl d) (confidenceEl d) (detectionsEl d)
    (canvas_width d) (canvas_height d) x (chrome d).
Definition set_chrome x : Dom :=
  Build_Dom (fpsEl d) (inferenceEl d) (objectsEl d) (confidenceEl d) (detectionsEl d)
    (canvas_width d) (canvas_height d) (canvas d) x.
End DomSetters.

Section BrowserSetters.
Context (b : Browser).

Definition set_sockets x : Browser :=
  Build_Browser x (streams b) (intervals b) (rafs b) (next_handle b) (console b)
    (media_requests b) (token_requests b).
Definition set_streams x : Browser :=
  Build_Browser (sockets b) x (intervals b) (rafs b) (next_handle b) (console b)
    (media_requests b) (token_requests b).
Definition set_intervals x : Browser :=
  Build_Browser (sockets b) (streams b) x (rafs b) (next_handle b) (console b)
    (media_requests b) (token_requests b).
Definition set_rafs x : Browser :=
  Build_Browser (sockets b) (streams b) (intervals b) x (next_handle b) (console b)
    (media_requests b) (token_requests b).
Definition set_next_handle x : Browser :=
  Build_Browser (sockets b) (streams b) (intervals b) (rafs b) x (console b)
    (media_requests b) (token_requests b).
Definition set_console x : Browser :=
  Build_Browser (sockets b) (streams b) (intervals b) (rafs b) (next_handle b) x
    (media_requests b) (token_requests b).
Definition set_media_requests x : Browser :=
  Build_Browser (sockets b) (streams b) (intervals b) (rafs b) (next_handle b) (console b)
    x (token_requests b).
Definition set_token_requests x : Browser :=
  Build_Browser (sockets b) (streams b) (intervals b) (rafs b) (next_handle b) (console b)
    (media_requests b) x.
End BrowserSetters.

(** ** Handlers as state transformers that may throw *)

Definition M (A : Type) : Type := State -> Completion A * State.

#[global] Instance M_ret : MRet M := fun A (a : A) s => (Normal a, s).

#[global] Instance M_bind : MBind M := fun A B (k : A -> M B) (m : M A) s =>
  match m s with
  | (Normal a, s') => k a s'
  | (Throw e, s') => (Throw e, s')
  end.

Definition throw {A} (e : JsError) : M A := fun s => (Throw e, s).

(** [try { m } catch { h }]: whatever was written before a throw stays. *)
Definition try_catch (m : M unit) (h : M unit) : M unit :=
  fun s =>
    match m s with
    | (Normal _, s') => (Normal tt, s')
    | (Throw _, s') => h s'
    end.

(** Read something off the current state. *)
Definition read {A} (f : State -> A) : M A := fun s => (Normal (f s), s).

Definition assign (f : Vars -> Vars) : M unit :=
  fun s => (Normal tt, Build_State (f s) s s).
Definition assign_dom (f : Dom -> Dom) : M unit :=
  fun s => (Normal tt, Build_State s (f s) s).
Definition assign_browser (f : Browser -> Browser) : M unit :=
  fun s => (Normal tt, Build_State s s (f s)).

Definition when (b : bool) (m : M unit) : M unit := if b then m else mret tt.

(** The state a handler leaves behind, thrown or not. *)
Definition exec (m : M unit) (s : State) : State := snd (m s).

(** ** Browser primitives *)

(** [ws.send(m)] on socket [i]: queued when the socket is open, an
    [InvalidStateError] while it is still connecting, dropped once it is
    closing or closed. *)
Definition socket_send (i : nat) (m : OutMsg) : M unit :=
  sock ← read (fun s => sockets s !! i);
  match sock with
  | Some sock =>
      match readyState sock with
      | OPEN =>
          assign_browser (fun b =>
            set_sockets b (<[i := Build_Socket OPEN (sent sock ++ [m]) (token sock)]> (sockets b)))
      | CONNECTING => throw InvalidStateError
      | CLOSING | CLOSED => mret tt
      end
  | None => mret tt
  end.

(** [ws.close()]: starts the closing handshake unless already closing or
    closed; the close event is delivered later, as an event of its own. *)
Definition socket_close (i : nat) : M unit :=
  sock ← read (fun s => sockets s !! i);
  match sock with
  | Some sock =>
      match readyState sock with
      | CONNECTING | OPEN =>
          assign_browser (fun b =>
            set_sockets b (<[i := Build_Socket CLOSING (sent sock) (token sock)]> (sockets b)))
      | CLOSING | CLOSED => mret tt
      end
  | None => mret tt
  end.

(** [new WebSocket(url)]: a fresh connecting socket; its index is its identity. *)
Definition socket_new (tok : string) : M nat :=
  i ← read (fun s => length (sockets s));
  assign_browser (fun b => set_sockets b (sockets b ++ [Build_Socket CONNECTING [] tok]));;
  mret i.

(** [setInterval] / [requestAnimationFrame]: a fresh non-zero handle. *)
Definition fresh_handle : M nat :=
  h ← read (fun s => S (next_handle s));
  assign_browser (fun b => set_next_handle b h);;
  mret h.

Definition setInterval : M nat :=
  h ← fresh_handle;
  assign_browser (fun b => set_intervals b (h :: intervals b));;
  mret h.

Definition clearInterval (h : nat) : M unit :=
  assign_browser (fun b => set_intervals b (filter (fun x => x ≠ h) (intervals b))).

Definition requestAnimationFrame : M nat :=
  h ← fresh_handle;
  assign_browser (fun b => set_rafs b (h :: rafs b));;
  mret h.

Definition cancelAnimationFrame (h : nat) : M unit :=
  assign_browser (fun b => set_rafs b (filter (fun x => x ≠ h) (rafs b))).

(** [stream.getTracks().forEach(t => t.stop())] on stream [i]. *)
Definition stop_tracks (i : nat) : M unit :=
  tracks ← read (fun s => streams s !! i);
  match tracks with
  | Some ts =>
      assign_browser (fun b => set_streams b (<[i := (fun _ => Ended) <$> ts]> (streams b)))
  | None => mret tt
  end.

(** A granted [getUserMedia({video, audio: false})]: one live video track. *)
Definition stream_new : M nat :=
  i ← read (fun s => length (streams s));
  assign_browser (fun b => set_streams b (streams b ++ [[Live]]));;
  mret i.

Definition console_error (line : string) : M unit :=
  assign_browser (fun b => set_console b (console b ++ [line])).

(** ** Painting: the calls issued on the 2D context, in order *)

Definition Draw (A : Type) : Type := (list Cmd * Completion A)%type.

#[global] Instance Draw_ret : MRet Draw := fun A (a : A) => ([], Normal a).

#[global] Instance Draw_bind : MBind Draw := fun A B (k : A -> Draw B) (m : Draw A) =>
  match m with
  | (cs, Normal a) => let '(cs', r) := k a in (cs ++ cs', r)
  | (cs, Throw e) => (cs, Throw e)
  end.

Definition paint (c : Cmd) : Draw unit := ([c], Normal tt).

(** Reading a property of [o]: a [TypeError] when [o] is [null] or
    [undefined]. *)
Definition deref {A} (o : option A) : Draw A :=
  match o with
  | Some a => ([], Normal a)
  | None => ([], Throw TypeError)
  end.

(** [for (const x of l) f(x)]: a throw leaves the loop. *)
Fixpoint for_of {A} (f : A -> Draw unit) (l : list A) : Draw unit :=
  match l with
  | [] => mret tt
  | x :: l' => f x;; for_of f l'
  end.

(** [l.forEach((x, i) => f(x, i))], counting from [i]. *)
Fixpoint forEach_from {A} (i : nat) (f : A -> nat -> Draw unit) (l : list A) : Draw unit :=
  match l with
  | [] => mret tt
  | x :: l' => f x i;; forEach_from (S i) f l'
  end.

(** [a[i]] used as a number: [undefined] past the end, hence [NaN]. *)
Definition elem (a : list float) (i : nat) : float := Js.num (a !! i).

(** [`${c}`] for a class name: the text "undefined" when it is absent. *)
Definition class_text (c : option string) : string := default "undefined" c.

Definition make_label (d : Detection) : Label :=
  {| label_class := class_text (det_class d);
     label_pct := Js.Math_round (Js.num (det_confidence d) * 100) |}.

(** Lines 750-763: the polygon mask, drawn only for a polygon of more than
    two points. *)
Definition draw_polygon (cw ch : float) (polygon : option (list (option (list float))))
  : Draw unit :=
  match polygon with
  | Some pts =>
      if 2 <? length pts then
        paint BeginPath;;
        p ← deref (mjoin (pts !! 0));
        paint (MoveTo (elem p 0 * cw) (elem p 1 * ch));;
        for_of (fun pi => p ← deref pi; paint (LineTo (elem p 0 * cw) (elem p 1 * ch)))
               (drop 1 pts);;
        paint ClosePath;;
        paint (Fill PolygonFill);;
        paint (Stroke CYAN_DIM 1)
      else mret tt
  | None => mret tt
  end.

(** Lines 742-748: the pixel corners of a detection's box. *)
Definition box_corners (cw ch : float) (bbox : list float) : float * float * float * float :=
  let nx1 := elem bbox 0 in
  let ny1 := elem bbox 1 in
  let nx2 := elem bbox 2 in
  let ny2 := elem bbox 3 in
  (nx1 * cw, ny1 * ch, nx2 * cw, ny2 * ch)%float.

(** Lines 765-798: the four corner brackets of the box. *)
Definition draw_brackets (x1 y1 x2 y2 : float) : Draw unit :=
  let bw := (x2 - x1)%float in
  let bh := (y2 - y1)%float in
  let cornerLen := (Js.Math_min bw bh * 0.2)%float in
  let clampedLen := Js.Math_max 8 (Js.Math_min cornerLen 30) in
  paint BeginPath;;
  paint (MoveTo x1 (y1 + clampedLen));;
  paint (LineTo x1 y1);;
  paint (LineTo (x1 + clampedLen) y1);;
  paint (Stroke CYAN 2);;
  paint BeginPath;;
  paint (MoveTo (x2 - clampedLen) y1);;
  paint (LineTo x2 y1);;
  paint (LineTo x2 (y1 + clampedLen));;
  paint (Stroke CYAN 2);;
  paint BeginPath;;
  paint (MoveTo x1 (y2 - clampedLen));;
  paint (LineTo x1 y2);;
  paint (LineTo (x1 + clampedLen) y2);;
  paint (Stroke CYAN 2);;
  paint BeginPath;;
  paint (MoveTo (x2 - clampedLen) y2);;
  paint (LineTo x2 y2);;
  paint (LineTo x2 (y2 - clampedLen));;
  paint (Stroke CYAN 2).

(** Lines 800-819: the label chip above the box and the fill inside it. *)
Definition draw_label_and_fill (d : Detection) (x1 y1 x2 y2 : float) : Draw unit :=
  let label := make_label d in
  let labelH := 18%float in
  let labelY := (y1 - labelH - 4)%float in
  paint (FillRect ChipFill x1 labelY (TextWidthPlus label 12) labelH);;
  paint (StrokeRect CYAN x1 labelY (TextWidthPlus label 12) labelH);;
  paint (FillText CYAN (inr label) (x1 + 6) (labelY + labelH / 2));;
  paint (FillRect CYAN_FILL x1 y1 (Px (x2 - x1)) (y2 - y1)).

(** The body of the loop of [drawDetections] for one entry. *)
Definition draw_detection (cw ch : float) (entry : option Detection) : Draw unit :=
  det ← deref entry;
  bbox ← deref (det_bbox det);
  let '(x1, y1, x2, y2) := box_corners cw ch bbox in
  draw_polygon cw ch (det_polygon det);;
  draw_brackets x1 y1 x2 y2;;
  draw_label_and_fill det x1 y1 x2 y2.

(** [drawDetections(cw, ch)], lines 740-821, over [currentDetections]. *)
Definition drawDetections (dets : list (option Detection)) (cw ch : float) : Draw unit :=
  for_of (draw_detection cw ch) dets.

(** [drawClassifications(cw, ch)], lines 823-862. *)
Definition drawClassifications (dets : list (option Detection)) (cw ch : float) : Draw unit :=
  if length dets =? 0 then mret tt
  else
    let startY := (ch * 0.15)%float in
    let startX := (cw * 0.05)%float in
    paint (FillText CYAN_DIM (inl "CLASSIFICATION") startX (startY - 20));;
    forEach_from 0 (fun entry i =>
      let y := (startY + Js.of_nat i * 32)%float in
      let barW := 180%float in
      cls ← deref entry;
      let fillW := (barW * Js.num (det_confidence cls))%float in
      paint (FillRect BarBackground startX y (Px barW) 20);;
      paint (FillRect BarFill startX y (Px fillW) 20);;
      paint (StrokeRect CYAN_DIM startX y (Px barW) 20);;
      paint (FillText CYAN (inr (make_label cls)) (startX + barW + 10) (y + 10))) dets.

(** [drawScanline(cw, ch)], lines 864-872. *)
Definition drawScanline (cw ch : float) : Draw unit :=
  paint (ScanlineBand cw).

(** [drawFrameBorder(cw, ch)], lines 874-908. *)
Definition drawFrameBorder (cw ch : float) : Draw unit :=
  let inset := 8%float in
  let cornerLen := 40%float in
  paint BeginPath;;
  paint (MoveTo inset (inset + cornerLen));;
  paint (LineTo inset inset);;
  paint (LineTo (inset + cornerLen) inset);;
  paint (Stroke BorderStroke 1);;
  paint BeginPath;;
  paint (MoveTo (cw - inset - cornerLen) inset);;
  paint (LineTo (cw - inset) inset);;
  paint (LineTo (cw - inset) (inset + cornerLen));;
  paint (Stroke BorderStroke 1);;
  paint BeginPath;;
  paint (MoveTo inset (ch - inset - cornerLen));;
  paint (LineTo inset (ch - inset));;
  paint (LineTo (inset + cornerLen) (ch - inset));;
  paint (Stroke BorderStroke 1);;
  paint BeginPath;;
  paint (MoveTo (cw - inset - cornerLen) (ch - inset));;
  paint (LineTo (cw - inset) (ch - inset));;
  paint (LineTo (cw - inset) (ch - inset - cornerLen));;
  paint (Stroke BorderStroke 1).

(** Issuing the calls of a draw routine on the page's canvas. *)
Definition on_canvas (d : Draw unit) : M unit :=
  assign_dom (fun dm => set_canvas dm (canvas dm ++ fst d));;
  match snd d with
  | Normal _ => mret tt
  | Throw e => throw e
  end.

(** [ctx.clearRect(0, 0, w, h)] over the whole canvas. *)
Definition clear_canvas : M unit :=
  assign_dom (fun dm => set_canvas dm []).

(** ** The detection panel ([updateDetectionsList], lines 912-940) *)

Record Group := {
  count : nat;
  maxConf : float;
}.

(** The property names every object literal inherits from
    [Object.prototype].  [groups[k]] for such a [k] finds the inherited
    value, which is truthy, so [groups] never gets an own property [k]: the
    writes of lines 928-929 land on the inherited object. *)
Definition Object_prototype_keys : list string :=
  ["constructor"; "__defineGetter__"; "__defineSetter__"; "hasOwnProperty";
   "__lookupGetter__"; "__lookupSetter__"; "isPrototypeOf"; "propertyIsEnumerable";
   "toString"; "valueOf"; "__proto__"; "toLocaleString"].

Definition inherited (k : string) : bool := bool_decide (k ∈ Object_prototype_keys).

(** The own properties of [groups], in creation order. *)
Abbreviation Groups := (list (string * Group)).

Fixpoint own (k : string) (groups : Groups) : option Group :=
  match groups with
  | [] => None
  | (k', g) :: rest => if String.eqb k k' then Some g else own k rest
  end.

Fixpoint put (k : string) (g : Group) (groups : Groups) : Groups :=
  match groups with
  | [] => [(k, g)]
  | (k', g') :: rest =>
      if String.eqb k k' then (k, g) :: rest else (k', g') :: put k g rest
  end.

(** Lines 927-929 for one detection. *)
Definition group_add (groups : Groups) (d : Detection) : Groups :=
  let k := class_text (det_class d) in
  let conf := Js.num (det_confidence d) in
  match own k groups with
  | Some g =>
      put k {| count := S (count g); maxConf := Js.Math_max (maxConf g) conf |} groups
  | None =>
      if inherited k then groups
      else put k {| count := 1; maxConf := Js.Math_max 0 conf |} groups
  end.

(** The loop of lines 926-930; reading [d.class] of a [null] entry throws. *)
Fixpoint group_all (groups : Groups) (dets : list (option Detection)) : Completion Groups :=
  match dets with
  | [] => Normal groups
  | None :: _ => Throw TypeError
  | Some d :: rest => group_all (group_add groups d) rest
  end.

(** A canonical array index: "0", or digits without a leading zero, below
    [2^32 - 1].  [Object.entries] lists such keys first, in numeric order. *)
Definition digit (a : ascii) : option N :=
  let n := N_of_ascii a in
  if ((48 <=? n) && (n <=? 57))%N then Some (n - 48)%N else None.

Fixpoint digits (s : string) (acc : N) : option N :=
  match s with
  | EmptyString => Some acc
  | String a s' =>
      match digit a with
      | Some d => digits s' (10 * acc + d)%N
      | None => None
      end
  end.

Definition array_index (k : string) : option N :=
  match k with
  | EmptyString => None
  | String "0"%char EmptyString => Some 0%N
  | String "0"%char _ => None
  | _ =>
      match digits k 0 with
      | Some n => if (n <? 4294967295)%N then Some n else None
      | None => None
      end
  end.

Fixpoint insert_index (e : N * (string * Group)) (l : list (N * (string * Group)))
  : list (N * (string * Group)) :=
  match l with
  | [] => [e]
  | e' :: l' => if (e.1 <=? e'.1)%N then e :: e' :: l' else e' :: insert_index e l'
  end.

(** [Object.entries(groups)]: index-like keys ascending, then the others in
    the order they were created. *)
Definition Object_entries (groups : Groups) : Groups :=
  let indexed := omap (fun e => (fun n => (n, e)) <$> array_index e.1) groups in
  let named := filter (fun e => array_index e.1 = None) groups in
  (snd <$> foldr insert_index [] indexed) ++ named.

(** [entries.sort((a, b) => b[1].count - a[1].count)]: the stable sort by
    falling count. *)
Fixpoint insert_by_count (e : string * Group) (l : Groups) : Groups :=
  match l with
  | [] => [e]
  | e' :: l' =>
      if count e'.2 <=? count e.2 then e :: e' :: l' else e' :: insert_by_count e l'
  end.

Definition sort_by_count (l : Groups) : Groups := foldr insert_by_count [] l.

(** The double quote, the line feed and [n] spaces, for the text of the
    templates. *)
Definition dq : string := String (ascii_of_nat 34) EmptyString.
Definition lf : string := String (ascii_of_nat 10) EmptyString.

Fixpoint spaces (n : nat) : string :=
  match n with
  | 0 => EmptyString
  | S n' => String " " (spaces n')
  end.

(** [ class="c"] *)
Definition class_attr (c : string) : string := " class=" ++ dq ++ c ++ dq.

(** The template literal of lines 915-919 and of lines 934-938: the markup
    of one [div.vision-det-item], with the name inserted as it is (nothing
    escapes it) and the percentage inserted twice, as the width of the bar
    and as text.  The two literals differ by the indentation of the source
    lines they span: [pad] spaces before the closing tag, four more before
    the inner elements. *)
Definition det_item (pad : nat) (name : string) (pct : float) : Html :=
  [Str ("<div" ++ class_attr "vision-det-item" ++ ">" ++ lf ++ spaces (pad + 4)
        ++ "<span" ++ class_attr "vision-det-name" ++ ">");
   Str name;
   Str ("</span>" ++ lf ++ spaces (pad + 4)
        ++ "<div" ++ class_attr "vision-det-bar-bg" ++ "><div"
        ++ class_attr "vision-det-bar-fill" ++ " style=" ++ dq ++ "width:");
   Num pct;
   Str ("%" ++ dq ++ "></div></div>" ++ lf ++ spaces (pad + 4)
        ++ "<span" ++ class_attr "vision-det-conf" ++ ">");
   Num pct;
   Str ("%</span>" ++ lf ++ spaces pad ++ "</div>")].

(** Lines 933-938: the markup of the row of one group,
    [`${name}${g.count > 1 ? ' x' + g.count : ''}`] being its name. *)
Definition group_item (e : string * Group) : Html :=
  det_item 12
    (e.1 ++ (if 1 <? count e.2 then " x" ++ Js.string_of_nat (count e.2) else ""))
    (Js.Math_round (maxConf e.2 * 100)).

(** Lines 914-920: the markup of the row of one classification. *)
Definition classification_item (entry : option Detection) : Completion Html :=
  match entry with
  | Some c =>
      Normal (det_item 16 (class_text (det_class c))
                (Js.Math_round (Js.num (det_confidence c) * 100)))
  | None => Throw TypeError
  end.

Fixpoint map_throwing {A B} (f : A -> Completion B) (l : list A) : Completion (list B) :=
  match l with
  | [] => Normal []
  | x :: l' =>
      match f x with
      | Normal y =>
          match map_throwing f l' with
          | Normal ys => Normal (y :: ys)
          | Throw e => Throw e
          end
      | Throw e => Throw e
      end
  end.

Definition is_classify (m : option string) : bool :=
  match m with
  | Some m => String.eqb m "classify"
  | None => false
  end.

(** The array [updateDetectionsList] joins for the given [currentMode] and
    [currentDetections]: the markup of each row. *)
Definition detection_rows (cm : option string) (dets : list (option Detection))
  : Completion (list Html) :=
  if is_classify cm then map_throwing classification_item dets
  else
    match group_all [] dets with
    | Normal groups => Normal (group_item <$> sort_by_count (Object_entries groups))
    | Throw e => Throw e
    end.

Definition lift {A} (c : Completion A) : M A :=
  match c with
  | Normal a => mret a
  | Throw e => throw e
  end.

Definition updateDetectionsList : M unit :=
  cm ← read (fun s => currentMode s);
  dets ← read (fun s => currentDetections s);
  rows ← lift (detection_rows cm dets);
  assign_dom (fun d => set_detectionsEl d (concat rows)).

(** ** Results and statistics ([handleVisionResult], lines 655-688) *)

(** Line 660: [(msg.classifications || []).map(c => ({class, confidence}))]. *)
Definition copy_classification (entry : option Detection) : Completion (option Detection) :=
  match entry with
  | Some c => Normal (Some (Build_Detection (det_class c) (det_confidence c) None None))
  | None => Throw TypeError
  end.

(** Line 679: [currentDetections.reduce((s, d) => s + d.confidence, 0)]. *)
Fixpoint sum_confidence (acc : float) (dets : list (option Detection)) : Completion float :=
  match dets with
  | [] => Normal acc
  | None :: _ => Throw TypeError
  | Some d :: rest => sum_confidence (acc + Js.num (det_confidence d))%float rest
  end.

(** Lines 677-680. *)
Definition average_confidence (dets : list (option Detection)) : Completion float :=
  if 0 <? length dets then
    match sum_confidence 0 dets with
    | Normal total => Normal (total / Js.of_nat (length dets))%float
    | Throw e => Throw e
    end
  else Normal 0%float.

(** Lines 669-675, with [now] the value of [performance.now()]. *)
Definition count_frame (now : float) : M unit :=
  assign (fun v => set_frameCount v (S (frameCount v)));;
  last ← read (fun s => lastFpsTime s);
  when (Js.ge (now - last) 1000)
    (assign (fun v => set_currentFps v (frameCount v));;
     assign (fun v => set_frameCount v 0);;
     assign (fun v => set_lastFpsTime v now)).

Definition handleVisionResult (msg : ResultMsg) (now : float) : M unit :=
  assign (fun v => set_currentMode v (msg_mode msg));;
  assign (fun v => set_lastInferenceMs v (Js.or_zero (msg_inference_ms msg)));;
  (if is_classify (msg_mode msg) then
     cs ← lift (map_throwing copy_classification (default [] (msg_classifications msg)));
     assign (fun v => set_currentDetections v cs)
   else
     assign (fun v => set_currentDetections v (default [] (msg_detections msg))));;
  count_frame now;;
  dets ← read (fun s => currentDetections s);
  avgConf ← lift (average_confidence dets);
  fps ← read (fun s => currentFps s);
  ms ← read (fun s => lastInferenceMs s);
  assign_dom (fun d => set_stats d fps ms (length dets) (Js.Math_round (avgConf * 100)));;
  updateDetectionsList.

(** ** The socket handlers (lines 633-652) *)

(** [ws.onopen]: [ws] is the closure variable at the time the event runs. *)
Definition onopen (tok : string) : M unit :=
  w ← read (fun s => ws s);
  match w with
  | Some i => socket_send i (AuthMsg tok)
  | None => throw TypeError
  end.

Definition is_result (ty : option string) : bool :=
  match ty with
  | Some ty => String.eqb ty "vision.result"
  | None => false
  end.

(** [ws.onmessage], lines 637-645. *)
Definition onmessage (data : Inbound) (now : float) : M unit :=
  try_catch
    match data with
    | Unparsable => throw SyntaxError
    | ParsedNull => throw TypeError
    | Parsed ty msg => when (is_result ty) (handleVisionResult msg now)
    end
    (mret tt);;
  assign (fun v => set_awaitingResponse v false).

(** [ws.onclose], lines 647-650. *)
Definition onclose : M unit :=
  assign (fun v => set_ws v None);;
  assign (fun v => set_awaitingResponse v false).

(** [ws.onerror], line 652. *)
Definition onerror : M unit :=
  w ← read (fun s => ws s);
  match w with
  | Some i => socket_close i
  | None => mret tt
  end.

(** ** Connecting (lines 622-653) *)

(** How the token request of lines 625-627 ends.  It fails when the [try]
    block throws: [fetch] rejects (no response at all), the body is not
    JSON, or it is the JSON [null].  Otherwise the body is an object
    [data], whatever the HTTP status of the response, and [data_token] is
    [data.token] ([None] when the property is absent). *)
Inductive TokenFetch :=
| FetchFails
| FetchOk (data_token : option string).

(** [connectVisionWS()] up to the [await] of line 625: the token request
    is issued.  (The second [await], line 626, follows the first with
    nothing written in between; the two are taken as one request, which
    settles when the body has been read.) *)
Definition connectVisionWS : M unit :=
  assign_browser (fun b => set_token_requests b (S (token_requests b))).

(** The rest of [connectVisionWS()], lines 627-652, run when the token
    request has settled; [ctor_throws] says whether [new WebSocket] throws.
    The handlers of lines 633-652 are installed on the new socket, which
    keeps the token they captured. *)
Definition connectVisionWS_settled (fetch : TokenFetch) (ctor_throws : bool) : M unit :=
  match fetch with
  | FetchFails => mret tt
  | FetchOk data_token =>
      let tok := default "" data_token in
      if ctor_throws then mret tt
      else
        i ← socket_new tok;
        assign (fun v => set_ws v (Some i))
  end.

(** ** The capture tick (lines 692-709) *)

Definition socket_is_open (s : State) (i : nat) : bool :=
  match sockets s !! i with
  | Some sock => ReadyState_eqb (readyState sock) OPEN
  | None => false
  end.

(** The guard of line 694:
    [!active || !ws || ws.readyState !== WebSocket.OPEN || awaitingResponse]. *)
Definition tick_skips (s : State) : bool :=
  negb (active s)
  || match ws s with
     | Some i => negb (socket_is_open s i)
     | None => true
     end
  || awaitingResponse s.

(** The interval callback; [data] is the encoded frame of line 698. *)
Definition sendFrame (data : string) : M unit :=
  skips ← read tick_skips;
  if (skips : bool) then mret tt
  else
    w ← read (fun s => ws s);
    m ← read (fun s => mode s);
    c ← read (fun s => confThreshold s);
    match w with
    | Some i => socket_send i (FrameMsg data m c)
    | None => throw TypeError
    end;;
    assign (fun v => set_awaitingResponse v true).

Definition startSendLoop : M unit :=
  h ← setInterval;
  assign (fun v => set_sendTimer v (Some h)).

(** ** The HUD loop (lines 713-738) *)

Definition float_differs (a b : float) : bool := negb (a =? b)%float.

Definition render (cw ch : float) : M unit :=
  a ← read (fun s => active s);
  if negb a then mret tt
  else
    resize ← read (fun s => float_differs (canvas_width s) cw
                            || float_differs (canvas_height s) ch);
    when resize (assign_dom (fun d => set_canvas (set_canvas_size d cw ch) []));;
    clear_canvas;;
    cm ← read (fun s => currentMode s);
    dets ← read (fun s => currentDetections s);
    (if is_classify cm then on_canvas (drawClassifications dets cw ch)
     else on_canvas (drawDetections dets cw ch));;
    on_canvas (drawScanline cw ch);;
    on_canvas (drawFrameBorder cw ch);;
    h ← requestAnimationFrame;
    assign (fun v => set_rafId v (Some h)).

Definition startHUDLoop : M unit :=
  h ← requestAnimationFrame;
  assign (fun v => set_rafId v (Some h)).

(** ** Camera control (lines 559-618) *)

Definition stopCamera : M unit :=
  assign (fun v => set_active v false);;
  t ← read (fun s => sendTimer s);
  match t with
  | Some h => clearInterval h;; assign (fun v => set_sendTimer v None)
  | None => mret tt
  end;;
  r ← read (fun s => rafId s);
  match r with
  | Some h => cancelAnimationFrame h;; assign (fun v => set_rafId v None)
  | None => mret tt
  end;;
  st ← read (fun s => stream s);
  match st with
  | Some i => stop_tracks i;; assign (fun v => set_stream v None)
  | None => mret tt
  end;;
  w ← read (fun s => ws s);
  match w with
  | Some i => socket_close i;; assign (fun v => set_ws v None)
  | None => mret tt
  end;;
  assign_dom (fun d => set_chrome d
    {| video_src := None; video_shown := false;
       noCamera_shown := true; noCamera_text := noCamera_text (chrome d);
       scanline_shown := false;
       startBtn_text := "Start Camera"; startBtn_active := false |});;
  clear_canvas;;
  assign (fun v => set_currentDetections v []);;
  assign_dom (fun d => set_detectionsEl d []);;
  assign_dom (fun d => set_stats d 0 0 0 0).

(** [startCamera()] up to the [await] of line 561: the camera is asked
    for, nothing is written.  ([navigator.mediaDevices] is taken to exist:
    the call itself does not throw.) *)
Definition startCamera : M unit :=
  assign_browser (fun b => set_media_requests b (S (media_requests b))).

(** [startCamera()] from the [await] of line 561 to the one of line 573,
    run when [getUserMedia] has settled: it grants a stream of one live
    video track, or it rejects and the [catch] of lines 576-579 runs. *)
Definition startCamera_settled (granted : bool) : M unit :=
  try_catch
    (if granted then
       i ← stream_new;
       assign (fun v => set_stream v (Some i));;
       assign_dom (fun d => set_chrome d
         {| video_src := Some i; video_shown := true;
            noCamera_shown := false; noCamera_text := noCamera_text (chrome d);
            scanline_shown := true;
            startBtn_text := "Stop Camera"; startBtn_active := true |});;
       assign (fun v => set_active v true);;
       connectVisionWS
     else throw NotAllowedError)
    (console_error "Camera access denied:";;
     assign_dom (fun d => set_chrome d
       {| video_src := video_src (chrome d); video_shown := video_shown (chrome d);
          noCamera_shown := noCamera_shown (chrome d);
          noCamera_text := "Camera access denied";
          scanline_shown := scanline_shown (chrome d);
          startBtn_text := startBtn_text (chrome d);
          startBtn_active := startBtn_active (chrome d) |})).

(** What runs when the token request has settled: the rest of
    [connectVisionWS()], which never throws, then lines 574-575 of
    [startCamera()].  The [await] of line 573 resumes in a microtask of the
    same turn, so no other event is handled between the two. *)
Definition startCamera_connected (fetch : TokenFetch) (ctor_throws : bool) : M unit :=
  connectVisionWS_settled fetch ctor_throws;;
  startSendLoop;;
  startHUDLoop.

(** The start button, lines 615-618. *)
Definition click_start : M unit :=
  a ← read (fun s => active s);
  if (a : bool) then stopCamera else startCamera.

(** A mode button, lines 944-952, with [m] the button's [data-mode]. *)
Definition click_mode (m : string) : M unit :=
  assign (fun v => set_mode v m);;
  assign (fun v => set_currentDetections v []);;
  assign_dom (fun d => set_detectionsEl d []).

(** The confidence slider, lines 956-959; [value] is [parseInt(slider.value)]. *)
Definition slider_input (value : float) : M unit :=
  assign (fun v => set_confThreshold v (value / 100)%float).

(** The [nex:viewchange] listener, lines 963-967. *)
Definition view_change (view : string) : M unit :=
  a ← read (fun s => active s);
  when (negb (String.eqb view "vision") && a) stopCamera.

(** ** The event loop *)

Inductive Event :=
| ClickStart
| UserMedia (granted : bool)
| TokenFetched (fetch : TokenFetch) (ctor_throws : bool)
| Tick (h : nat) (data : string)
| AnimationFrame (h : nat) (cw ch : float)
| SocketOpen (i : nat)
| SocketMessage (i : nat) (data : Inbound) (now : float)
| SocketClose (i : nat)
| SocketError (i : nat)
| ClickMode (m : string)
| SliderInput (value : float)
| ViewChange (view : string).

Definition set_readyState (i : nat) (rs : ReadyState) : M unit :=
  sock ← read (fun s => sockets s !! i);
  match sock with
  | Some sock =>
      assign_browser (fun b =>
        set_sockets b (<[i := Build_Socket rs (sent sock) (token sock)]> (sockets b)))
  | None => mret tt
  end.

(** The browser forgets a frame request when it runs its callback. *)
Definition frame_fired (h : nat) : M unit :=
  assign_browser (fun b => set_rafs b (filter (fun x => x ≠ h) (rafs b))).

(** What the browser does with an event before it calls the module's
    handler: a request settles only while it is pending, a timer or frame
    callback runs only while its handle is live, a socket reports [open]
    once, delivers messages only while open, and reports [close] once. *)
Definition handle (e : Event) : M unit :=
  match e with
  | ClickStart => click_start
  | UserMedia granted =>
      pending ← read (fun s => 0 <? media_requests s);
      when pending
        (assign_browser (fun b => set_media_requests b (pred (media_requests b)));;
         startCamera_settled granted)
  | TokenFetched fetch ctor_throws =>
      pending ← read (fun s => 0 <? token_requests s);
      when pending
        (assign_browser (fun b => set_token_requests b (pred (token_requests b)));;
         startCamera_connected fetch ctor_throws)
  | Tick h data =>
      live ← read (fun s => bool_decide (h ∈ intervals s));
      when live (sendFrame data)
  | AnimationFrame h cw ch =>
      pending ← read (fun s => bool_decide (h ∈ rafs s));
      when pending (frame_fired h;; render cw ch)
  | SocketOpen i =>
      sock ← read (fun s => sockets s !! i);
      match sock with
      | Some sock =>
          when (ReadyState_eqb (readyState sock) CONNECTING)
               (set_readyState i OPEN;; onopen (token sock))
      | None => mret tt
      end
  | SocketMessage i data now =>
      is_open ← read (fun s => socket_is_open s i);
      when is_open (onmessage data now)
  | SocketClose i =>
      sock ← read (fun s => sockets s !! i);
      match sock with
      | Some sock =>
          when (negb (ReadyState_eqb (readyState sock) CLOSED))
               (set_readyState i CLOSED;; onclose)
      | None => mret tt
      end
  | SocketError i =>
      sock ← read (fun s => sockets s !! i);
      match sock with
      | Some sock => when (negb (ReadyState_eqb (readyState sock) CLOSED)) onerror
      | None => mret tt
      end
  | ClickMode m => click_mode m
  | SliderInput value => slider_input value
  | ViewChange view => view_change view
  end.

(** One turn of the event loop: an uncaught exception ends the handler and
    leaves the state as written so far. *)
Definition step (s : State) (e : Event) : State := exec (handle e) s.

Definition run (s : State) (es : list Event) : State := foldl step s es.

(** The page after the script has loaded at time [t0] (lines 535-555).  The
    elements come from the HTML, which is not among these files: [page] is
    what they hold at load. *)
Definition init (t0 : float) (page : Dom) : State :=
  {| vars := {| stream := None; ws := None; active := false; mode := "detect";
                confThreshold := 0.25; awaitingResponse := false;
                sendTimer := None; rafId := None;
                currentDetections := []; currentMode := Some "detect";
                frameCount := 0; lastFpsTime := t0; currentFps := 0;
                lastInferenceMs := 0 |};
     dom := page;
     browser := {| sockets := []; streams := []; intervals := []; rafs := [];
                   next_handle := 0; console := [];
                   media_requests := 0; token_requests := 0 |} |}.

(** A page with empty statistics, an empty panel and a blank canvas. *)
Definition blank_page : Dom :=
  {| fpsEl := 0; inferenceEl := 0; objectsEl := 0; confidenceEl := 0;
     detectionsEl := []; canvas_width := 300; canvas_height := 150;
     canvas := [];
     chrome := {| video_src := None; video_shown := false;
                  noCamera_shown := true; noCamera_text := "";
                  scanline_shown := false;
                  startBtn_text := "Start Camera";
                  startBtn_active := false |} |}.

(** How the requests of one start end: [getUserMedia] rejects, or it
    grants a stream and the connection sequence meets the given token
    request and constructor outcome. *)
Inductive StartOutcome :=
| CameraDenied
| CameraGranted (fetch : TokenFetch) (ctor_throws : bool).

(** A click on the start button of an inactive session followed, with no
    other event in between, by the settling of the requests it makes. *)
Definition start (o : StartOutcome) : list Event :=
  match o with
  | CameraDenied => [ClickStart; UserMedia false]
  | CameraGranted fetch ctor_throws =>
      [ClickStart; UserMedia true; TokenFetched fetch ctor_throws]
  end.

(** * The conversation feed and the history drawer

    The two other modules of [nex-history.js]: the prompt history drawer
    (lines 5-211) and the conversation feed (lines 218-495).  Their handlers
    do not throw on the inputs typed below, except where an array of the
    server's JSON holds [null]; state is passed explicitly.  What the host
    decides (the clock, [Math.random], the locale and the time zone, the
    outcome of a [fetch] or of [confirm]) is an argument of the handler it
    reaches. *)

(** ** JavaScript strings *)

(** A string is its sequence of UTF-16 code units. *)
Abbreviation str := (list N).

(** An ASCII literal. *)
Definition lit (s : string) : str := N_of_ascii <$> list_ascii_of_string s.

(** [String(n)] for an integral number. *)
Definition dec (z : Z) : str := lit (NilZero.string_of_int (Z.to_int z)).

(** [s || ''] for a possibly absent string. *)
Definition or_empty (o : option str) : str := default [] o.

(** [s || d]: the empty string is falsy. *)
Definition or_else (d : str) (o : option str) : str :=
  match o with
  | Some (c :: s) => c :: s
  | Some [] | None => d
  end.

(** U+2026, the horizontal ellipsis. *)
Definition ellipsis : N := 8230.

(** [truncate(s, max)], lines 202-204 and 478-480 (the two modules define
    the same function). *)
Definition truncate (s : str) (max : nat) : str :=
  if max <? length s then take max s ++ [ellipsis] else s.

(** The text of one code unit as [innerHTML] serializes it inside an
    element: [&], U+00A0, [<] and [>] become character references. *)
Definition escape (c : N) : str :=
  if (c =? 38)%N then lit "&amp;"
  else if (c =? 160)%N then lit "&nbsp;"
  else if (c =? 60)%N then lit "&lt;"
  else if (c =? 62)%N then lit "&gt;"
  else [c].

(** [escHtml(s)], lines 206-210 and 244-248: the [innerHTML] of an element
    whose [textContent] is [s]. *)
Definition escHtml (s : str) : str := s ≫= escape.

(** The code units [trim] strips: WhiteSpace and LineTerminator of the
    language specification. *)
Definition is_space (c : N) : bool :=
  bool_decide (c ∈ [9; 10; 11; 12; 13; 32; 160; 5760; 8232; 8233; 8239; 8287; 12288; 65279]%N)
  || ((8192 <=? c) && (c <=? 8202))%N.

Fixpoint trimStart (s : str) : str :=
  match s with
  | c :: s' => if is_space c then trimStart s' else s
  | [] => []
  end.

Definition trim (s : str) : str := reverse (trimStart (reverse (trimStart s))).

(** [s.split('\n')]. *)
Fixpoint split_lines (s : str) : list str :=
  match s with
  | [] => [[]]
  | c :: s' =>
      if (c =? 10)%N then [] :: split_lines s'
      else match split_lines s' with
           | l :: ls => (c :: l) :: ls
           | [] => [[c]]
           end
  end.

(** [s.startsWith(q)] and [s.includes(q)]. *)
Fixpoint startsWith (s q : str) : bool :=
  match q, s with
  | [], _ => true
  | c :: q', d :: s' => (c =? d)%N && startsWith s' q'
  | _ :: _, [] => false
  end.

Fixpoint includes (s q : str) : bool :=
  startsWith s q ||
  match s with
  | [] => false
  | _ :: s' => includes s' q
  end.

(** [s.replace(/_/g, ' ')]. *)
Definition underscores_to_spaces (s : str) : str :=
  (fun c => if (c =? 95)%N then 32%N else c) <$> s.

(** [s.padStart(2, '0')]. *)
Definition padStart2 (s : str) : str := replicate (2 - length s) 48%N ++ s.

(** The [detail] of a [nex:conversation.complete] event (lines 180, 467-474). *)
Record Detail := {
  detail_userPrompt : option str;
  detail_nexResponse : option str;
  detail_processingTimeMs : option Z;
  detail_servicesUsed : list str;
}.

(** ** The conversation feed (lines 218-495) *)

Module Feed.

Definition MAX_VISIBLE : nat := 5.
Definition OPACITY_LEVELS : list float := [1.0; 0.85; 0.65; 0.40; 0.20]%float.
Definition COLLAPSE_LINES : nat := 3.

(** One entry of [entries] (lines 258-266).  Times are integral numbers of
    milliseconds, as [Date.now()] gives them. *)
Record Entry := {
  id : str;
  type : str;
  title : str;
  lines : list str;
  processingTimeMs : option Z;
  timestamp : Z;
  expanded : bool;
}.

(** What one call of [addEntry] reads from the host: [Date.now()],
    [Math.random().toString(36)] and the time value of [new Date()]. *)
Record Clock := {
  now : Z;
  random36 : str;
  date : Z;
}.

(** The [cf-lines] container of an element: its lines as markup, and the
    truncation indicator. *)
Record LinesBox := {
  box_expanded : bool;
  box_lines : list str;
  box_more : option str;
}.

(** One [div.cf-entry] of the feed, lines 300-389.  [badge] is the number
    handed to [formatTime]; the hover listeners are attached exactly when
    [linesBox] is there. *)
Record Element := {
  className : str;
  opacity : float;
  dataset_id : str;
  dot : str;
  dotColor : str;
  titleText : str;
  thinkingDots : list float;
  badge : option Z;
  linesBox : option LinesBox;
}.

(** The module's variables, the children of [#conversation-feed], its
    [visible] class, and the [nex:conversation.complete] events dispatched
    so far. *)
Record State := {
  entries : list Entry;
  activeThinking : option str;
  commandStartTime : option Z;
  currentServicesUsed : list str;
  feed : list Element;
  visible : bool;
  dispatched : list Detail;
}.

Definition set_entries (x : list Entry) (s : State) : State :=
  Build_State x (activeThinking s) (commandStartTime s) (currentServicesUsed s)
    (feed s) (visible s) (dispatched s).
Definition set_activeThinking (x : option str) (s : State) : State :=
  Build_State (entries s) x (commandStartTime s) (currentServicesUsed s)
    (feed s) (visible s) (dispatched s).
Definition set_commandStartTime (x : option Z) (s : State) : State :=
  Build_State (entries s) (activeThinking s) x (currentServicesUsed s)
    (feed s) (visible s) (dispatched s).
Definition set_currentServicesUsed (x : list str) (s : State) : State :=
  Build_State (entries s) (activeThinking s) (commandStartTime s) x
    (feed s) (visible s) (dispatched s).
Definition set_feed (x : list Element) (s : State) : State :=
  Build_State (entries s) (activeThinking s) (commandStartTime s) (currentServicesUsed s)
    x (visible s) (dispatched s).
Definition set_visible (x : bool) (s : State) : State :=
  Build_State (entries s) (activeThinking s) (commandStartTime s) (currentServicesUsed s)
    (feed s) x (dispatched s).
Definition set_dispatched (x : list Detail) (s : State) : State :=
  Build_State (entries s) (activeThinking s) (commandStartTime s) (currentServicesUsed s)
    (feed s) (visible s) x.

(** Lines 232-234; [slice(2, 8)] keeps at most six code units. *)
Definition generateId (c : Clock) : str :=
  lit "cf-" ++ dec (now c) ++ lit "-" ++ take 6 (drop 2 (random36 c)).

(** Lines 393-402. *)
Definition getDot (ty : str) : str :=
  if decide (ty = lit "action") then [9210%N]
  else if decide (ty = lit "thinking") then [10043%N]
  else if decide (ty = lit "success") then [10003%N]
  else if decide (ty = lit "error") then [10007%N]
  else if decide (ty = lit "substep") then [9151%N]
  else [9210%N].

(** Lines 404-413. *)
Definition getDotColor (ty : str) : str :=
  if decide (ty = lit "action") then lit "#00d4ff"
  else if decide (ty = lit "thinking") then lit "#ffaa00"
  else if decide (ty = lit "success") then lit "#00ff88"
  else if decide (ty = lit "error") then lit "#ff4444"
  else if decide (ty = lit "substep") then lit "#888"
  else lit "#00d4ff".

(** Lines 352-370: the lines container of an entry that has lines. *)
Definition render_lines (e : Entry) : option LinesBox :=
  if 0 <? length (lines e) then
    let visibleLines := if expanded e then lines e else take COLLAPSE_LINES (lines e) in
    Some {|
      box_expanded := expanded e;
      box_lines :=
        (fun line => lit "<span class=" ++ [34%N] ++ lit "cf-substep-mark" ++ [34%N]
                     ++ lit ">" ++ [9151%N] ++ lit "</span> " ++ escHtml line)
          <$> visibleLines;
      box_more :=
        if negb (expanded e) && (COLLAPSE_LINES <? length (lines e)) then
          Some ([ellipsis] ++ lit " +"
                ++ dec (Z.of_nat (length (lines e)) - Z.of_nat COLLAPSE_LINES)
                ++ lit " lines (hover to expand)")
        else None |}
  else None.

(** The body of the [forEach] of [render], lines 296-390: no element for
    an entry whose opacity is 0. *)
Definition render_entry (index : nat) (e : Entry) : option Element :=
  let op := default 0%float (OPACITY_LEVELS !! index) in
  if (op =? 0)%float then None
  else
    let thinking := bool_decide (type e = lit "thinking") in
    Some {|
      className := lit "cf-entry cf-" ++ type e;
      opacity := op;
      dataset_id := id e;
      dot := getDot (type e) ++ lit " ";
      dotColor := getDotColor (type e);
      titleText := title e;
      thinkingDots :=
        if thinking then (fun i => (Js.of_nat i * 0.2)%float) <$> seq 0 5 else [];
      badge := if thinking then None else processingTimeMs e;
      linesBox := render_lines e |}.

(** [render()], lines 293-391. *)
Definition render (s : State) : State :=
  set_feed (omap (fun x => x) (imap render_entry (entries s))) s.

(** [removeEntry(id)], lines 279-281. *)
Definition removeEntry (i : str) (s : State) : State :=
  set_entries (filter (fun e => id e ≠ i) (entries s)) s.

(** [addEntry(type, title, lines, processingTimeMs)], lines 250-277. *)
Definition addEntry (c : Clock) (ty ttl : str) (lns : option (list str)) (ptm : option Z)
    (s : State) : str * State :=
  let s1 :=
    match activeThinking s with
    | Some (u :: r) => set_activeThinking None (removeEntry (u :: r) s)
    | Some [] | None => s
    end in
  let i := generateId c in
  let entry :=
    {| id := i; type := ty; title := ttl; lines := default [] lns;
       processingTimeMs := match ptm with Some 0%Z | None => None | Some t => Some t end;
       timestamp := date c; expanded := false |} in
  let unshifted := entry :: entries s1 in
  let trimmed :=
    if MAX_VISIBLE + 1 <? length unshifted then take (MAX_VISIBLE + 1) unshifted
    else unshifted in
  (i, render (set_entries trimmed s1)).

(** [showThinking(title)], lines 283-289. *)
Definition showThinking (c : Clock) (ttl : option str) (s : State) : str * State :=
  let s1 :=
    match activeThinking s with
    | Some (u :: r) => removeEntry (u :: r) s
    | Some [] | None => s
    end in
  let '(i, s2) := addEntry c (lit "thinking") (or_else (lit "Thinking...") ttl) (Some []) None s1 in
  (i, set_activeThinking (Some i) s2).

(** The listeners of lines 375-386 on the [k]-th child of the feed.  Every
    handler that changes [entries] ends in [render], so that child was made
    from [entries[k]], and it has listeners when that entry has lines. *)
Definition hovered (k : nat) (s : State) : option Entry :=
  e ← entries s !! k;
  _ ← render_entry k e;
  if 0 <? length (lines e) then Some e else None.

Definition set_expanded (x : bool) (e : Entry) : Entry :=
  Build_Entry (id e) (type e) (title e) (lines e) (processingTimeMs e) (timestamp e) x.

Definition mouseenter (k : nat) (s : State) : State :=
  match hovered k s with
  | Some e =>
      if COLLAPSE_LINES <? length (lines e)
      then render (set_entries (<[k := set_expanded true e]> (entries s)) s)
      else s
  | None => s
  end.

Definition mouseleave (k : nat) (s : State) : State :=
  match hovered k s with
  | Some e =>
      if expanded e
      then render (set_entries (<[k := set_expanded false e]> (entries s)) s)
      else s
  | None => s
  end.

(** The window events the module listens to, with what their handlers read
    from [e.detail] and from the host, the hover events on the feed's
    children, and the two functions exposed as [window.NexConversation]. *)
Inductive Event :=
| SystemReady (c : Clock)
| MicTranscribed (text : option str) (t : Z) (c1 c2 : Clock)
| UserCommand (text : option str) (t : Z) (c1 c2 : Clock)
| ToolExecuting (name : option str) (c : Clock)
| CommandResponse (text command : option str) (t : Z) (c : Clock)
| ViewChange (view : str)
| MouseEnter (k : nat)
| MouseLeave (k : nat)
| ApiAddEntry (ty ttl : str) (lns : option (list str)) (ptm : option Z) (c : Clock)
| ApiShowThinking (ttl : option str) (c : Clock).

(** Lines 424-438: a transcribed or typed command. *)
Definition on_command (services : list str) (text : option str) (t : Z) (c1 c2 : Clock)
    (s : State) : State :=
  let text := or_empty text in
  let s := set_commandStartTime (Some t) s in
  let s := set_currentServicesUsed services s in
  let s := (addEntry c1 (lit "action") (lit "Nex(" ++ truncate text 40 ++ lit ")") (Some []) None s).2 in
  (showThinking c2 (Some (lit "Thinking...")) s).2.

(** Lines 440-447. *)
Definition on_tool_executing (name : option str) (c : Clock) (s : State) : State :=
  let shown := underscores_to_spaces (or_else (lit "tool") name) in
  let s := set_currentServicesUsed (currentServicesUsed s ++ [or_else (lit "tool") name]) s in
  let s :=
    match activeThinking s with
    | Some (u :: r) => removeEntry (u :: r) s
    | Some [] | None => s
    end in
  let '(i, s) := addEntry c (lit "thinking") (lit "Running " ++ shown ++ lit "...") (Some []) None s in
  set_activeThinking (Some i) s.

(** The non-blank lines of a response, line 460. *)
Definition response_lines (text : str) : list str :=
  filter (fun l => trim l ≠ []) (split_lines text).

(** Lines 449-476, with [t] the value of [Date.now()] at line 456. *)
Definition on_command_response (text command : option str) (t : Z) (c : Clock)
    (s : State) : State :=
  let text := or_empty text in
  let command := or_empty command in
  if startsWith command (lit "_") then s
  else
    let elapsed :=
      match commandStartTime s with
      | Some 0%Z | None => None
      | Some t0 => Some (t - t0)%Z
      end in
    let s := set_commandStartTime None s in
    let lns := response_lines text in
    let ttl :=
      match lns with
      | l :: _ => truncate l 60
      | [] => lit "Response delivered"
      end in
    let subLines := if 1 <? length lns then drop 1 lns else [] in
    let s := (addEntry c (lit "action") (lit "Response " ++ [8212%N] ++ lit " " ++ ttl)
                (Some subLines) elapsed s).2 in
    let s := set_dispatched
               (dispatched s ++
                [{| detail_userPrompt := Some command; detail_nexResponse := Some text;
                    detail_processingTimeMs := elapsed;
                    detail_servicesUsed := currentServicesUsed s ++ [lit "tts"] |}]) s in
    set_currentServicesUsed [] s.

(** Lines 485-488. *)
Definition on_viewchange (view : str) (s : State) : State :=
  set_visible (bool_decide (view = lit "dashboard") || bool_decide (view = lit "orb")) s.

Definition step (s : State) (e : Event) : State :=
  match e with
  | SystemReady c => (addEntry c (lit "success") (lit "All systems ready") (Some []) None s).2
  | MicTranscribed text t c1 c2 => on_command [lit "stt"] text t c1 c2 s
  | UserCommand text t c1 c2 => on_command [] text t c1 c2 s
  | ToolExecuting name c => on_tool_executing name c s
  | CommandResponse text command t c => on_command_response text command t c s
  | ViewChange view => on_viewchange view s
  | MouseEnter k => mouseenter k s
  | MouseLeave k => mouseleave k s
  | ApiAddEntry ty ttl lns ptm c => (addEntry c ty ttl lns ptm s).2
  | ApiShowThinking ttl c => (showThinking c ttl s).2
  end.

Definition run (s : State) (es : list Event) : State := foldl step s es.

(** The module once its script has run (lines 226-228, 418, 491), on a feed
    element without children. *)
Definition init : State :=
  {| entries := []; activeThinking := None; commandStartTime := None;
     currentServicesUsed := []; feed := []; visible := true; dispatched := [] |}.

End Feed.

(** ** The history drawer (lines 5-211) *)

Module History.

(** One element of the server's [entries], with the properties the drawer
    reads.  [timestamp] is the time value of [new Date(entry.timestamp)],
    [None] for an invalid date. *)
Record Entry := {
  timestamp : option Z;
  userPrompt : option str;
  nexResponse : option str;
}.

(** What the host's time zone and locale decide: the local calendar day of
    a time value ([getFullYear()], [getMonth()], [getDate()]), the
    upper-cased [toLocaleDateString] and the [toLocaleTimeString] of a
    valid date, and [toLowerCase] on strings. *)
Record Locale := {
  calendar : Z -> Z * Z * Z;
  dateLabel : Z -> str;
  timeLabel : Z -> str;
  toLowerCase : str -> str;
}.

(** [dateKey(d)], lines 89-91; the fields of an invalid date are [NaN]. *)
Definition dateKey (loc : Locale) (d : option Z) : str :=
  match d with
  | Some t =>
      let '(y, m, day) := calendar loc t in
      dec y ++ lit "-" ++ padStart2 (dec (m + 1)) ++ lit "-" ++ padStart2 (dec day)
  | None => lit "NaN-NaN-NaN"
  end.

(** Lines 76-81: the label an entry is filed under, at time [now]. *)
Definition label (loc : Locale) (now : Z) (e : Entry) : str :=
  let key := dateKey loc (timestamp e) in
  if decide (key = dateKey loc (Some now)) then lit "TODAY"
  else if decide (key = dateKey loc (Some (now - 86400000)%Z)) then lit "YESTERDAY"
  else match timestamp e with
       | Some t => dateLabel loc t
       | None => lit "INVALID DATE"
       end.

(** The [Map] of [groupByDate]: its entries in insertion order. *)
Abbreviation Groups := (list (str * list Entry)).

(** Lines 83-84: [if (!groups.has(label)) groups.set(label, []);
    groups.get(label).push(entry)]. *)
Fixpoint push (k : str) (e : Entry) (groups : Groups) : Groups :=
  match groups with
  | [] => [(k, [e])]
  | (k', es) :: rest =>
      if decide (k = k') then (k', es ++ [e]) :: rest else (k', es) :: push k e rest
  end.

(** [groupByDate(entries)], lines 69-87; reading [timestamp] of a [null]
    element throws. *)
Fixpoint group_from (loc : Locale) (now : Z) (groups : Groups)
    (entries : list (option Entry)) : Completion Groups :=
  match entries with
  | [] => Normal groups
  | None :: _ => Throw TypeError
  | Some e :: rest => group_from loc now (push (label loc now e) e groups) rest
  end.

Definition groupByDate (loc : Locale) (now : Z) (entries : list (option Entry))
  : Completion Groups :=
  group_from loc now [] entries.

(** The text of a child of an item: set through [innerHTML] when the item
    is created, through [textContent] by a click. *)
Inductive Content :=
| Markup (html : str)
| Text (text : str).

(** One [div.history-item], lines 93-131, with the entry its listeners
    closed over. *)
Record ItemEl := {
  item_time : str;
  item_prompt : Content;
  item_response : Content;
  item_expanded : bool;
  item_entry : Entry;
}.

Inductive Node :=
| EmptyMessage (text : str)
| DateLabel (text : str)
| Item (it : ItemEl).

Definition createHistoryItem (loc : Locale) (entry : Entry) : ItemEl :=
  let time :=
    match timestamp entry with
    | Some t => timeLabel loc t
    | None => lit "Invalid Date"
    end in
  let prompt := truncate (or_empty (userPrompt entry)) 60 in
  let response := truncate (or_empty (nexResponse entry)) 80 in
  {| item_time := escHtml time;
     item_prompt := Markup ([34%N] ++ escHtml prompt ++ [34%N]);
     item_response := Markup (escHtml response);
     item_expanded := false;
     item_entry := entry |}.

(** The statistics line, lines 37-42; [kb] is the number shown through
    [toFixed(0)]. *)
Inductive Stats :=
| StatsUntouched
| NoHistory
| Showing (count : nat) (kb : float).

Definition updateStats (count : nat) (bytes : float) : Stats :=
  if 0 <? count then Showing count (bytes / 1024)%float else NoHistory.

Inductive Request :=
| GetHistory
| DeleteHistory
| PostHistory (d : Detail).

(** [historyData], the children of [#history-list], the statistics line,
    the requests issued so far, the console and what [replayTTS] has sent. *)
Record State := {
  historyData : list (option Entry);
  listEl : list Node;
  statsEl : Stats;
  requests : list Request;
  console : list string;
  replayed : list str;
}.

Definition set_historyData (x : list (option Entry)) (s : State) : State :=
  Build_State x (listEl s) (statsEl s) (requests s) (console s) (replayed s).
Definition set_listEl (x : list Node) (s : State) : State :=
  Build_State (historyData s) x (statsEl s) (requests s) (console s) (replayed s).
Definition set_statsEl (x : Stats) (s : State) : State :=
  Build_State (historyData s) (listEl s) x (requests s) (console s) (replayed s).
Definition set_requests (x : list Request) (s : State) : State :=
  Build_State (historyData s) (listEl s) (statsEl s) x (console s) (replayed s).
Definition set_console (x : list string) (s : State) : State :=
  Build_State (historyData s) (listEl s) (statsEl s) (requests s) x (replayed s).
Definition set_replayed (x : list str) (s : State) : State :=
  Build_State (historyData s) (listEl s) (statsEl s) (requests s) (console s) x.

(** The nodes appended for the groups, lines 57-66. *)
Definition group_nodes (loc : Locale) (g : str * list Entry) : list Node :=
  DateLabel g.1 :: (Item ∘ createHistoryItem loc <$> g.2).

(** [renderList(entries)], lines 46-67: the list is emptied first, so a
    throw of [groupByDate] leaves it empty. *)
Definition renderList (loc : Locale) (now : Z) (entries : list (option Entry))
    (s : State) : Completion unit * State :=
  let s := set_listEl [] s in
  if length entries =? 0 then
    (Normal tt, set_listEl [EmptyMessage (lit "No conversations yet")] s)
  else
    match groupByDate loc now (reverse entries) with
    | Normal groups => (Normal tt, set_listEl (groups ≫= group_nodes loc) s)
    | Throw e => (Throw e, s)
    end.

(** How a request for the history ends: the [fetch] or the parse fails, or
    [data] arrives with its two properties. *)
Inductive LoadResult :=
| LoadFails
| LoadOk (entries : option (list (option Entry))) (fileSizeBytes : option float).

(** [loadHistory()], lines 24-35, from the moment the response is there. *)
Definition loadHistory_done (loc : Locale) (now : Z) (r : LoadResult) (s : State) : State :=
  let failed s := set_listEl [EmptyMessage (lit "Failed to load history")] s in
  match r with
  | LoadFails => failed s
  | LoadOk entries fileSizeBytes =>
      let s := set_historyData (default [] entries) s in
      let fileSize := Js.or_zero fileSizeBytes in
      let s := set_statsEl (updateStats (length (historyData s)) fileSize) s in
      match renderList loc now (historyData s) s with
      | (Normal _, s) => s
      | (Throw _, s) => failed s
      end
  end.

(** The predicate of the search filter, lines 142-145. *)
Definition matches (loc : Locale) (q : str) (e : Entry) : bool :=
  includes (toLowerCase loc (or_empty (userPrompt e))) q
  || includes (toLowerCase loc (or_empty (nexResponse e))) q.

Fixpoint filter_entries (loc : Locale) (q : str) (entries : list (option Entry))
  : Completion (list (option Entry)) :=
  match entries with
  | [] => Normal []
  | None :: _ => Throw TypeError
  | Some e :: rest =>
      match filter_entries loc q rest with
      | Normal kept => Normal (if matches loc q e then Some e :: kept else kept)
      | Throw err => Throw err
      end
  end.

(** The [input] listener of the search box, lines 136-147; an exception
    ends it. *)
Definition on_search (loc : Locale) (now : Z) (value : str) (s : State) : State :=
  let q := trim (toLowerCase loc value) in
  match q with
  | [] => (renderList loc now (historyData s) s).2
  | _ :: _ =>
      match filter_entries loc q (historyData s) with
      | Normal filtered => (renderList loc now filtered s).2
      | Throw _ => s
      end
  end.

(** The click listener of the clear button, lines 153-163: up to the
    [fetch], and from its outcome on. *)
Definition on_clear_click (confirmed : bool) (s : State) : State :=
  if confirmed then set_requests (requests s ++ [DeleteHistory]) s else s.

Definition on_clear_done (loc : Locale) (now : Z) (ok : bool) (s : State) : State :=
  if ok then
    let s := set_historyData [] s in
    let s := (renderList loc now [] s).2 in
    set_statsEl (updateStats 0 0) s
  else set_console (console s ++ ["Failed to clear history:"]) s.

(** The [nex:conversation.complete] listener, lines 179-198: up to the
    [fetch], and from its outcome on. *)
Definition on_complete (d : Detail) (s : State) : State :=
  match detail_userPrompt d, detail_nexResponse d with
  | (None | Some []), (None | Some []) => s
  | _, _ => set_requests (requests s ++ [PostHistory d]) s
  end.

Definition on_save_done (ok : bool) (s : State) : State :=
  if ok then set_requests (requests s ++ [GetHistory]) s
  else set_console (console s ++ ["Failed to save history entry:"]) s.

(** [replayTTS(text)], lines 168-175, with the state of [window._nexWs]. *)
Definition replayTTS (nexWs : option ReadyState) (text : str) (s : State) : State :=
  match text with
  | [] => s
  | _ :: _ =>
      match nexWs with
      | Some OPEN => set_replayed (replayed s ++ [text]) s
      | _ => s
      end
  end.

(** The click listener of an item, lines 112-122. *)
Definition toggle (it : ItemEl) : ItemEl :=
  let entry := item_entry it in
  let prompt := truncate (or_empty (userPrompt entry)) 60 in
  let response := truncate (or_empty (nexResponse entry)) 80 in
  if negb (item_expanded it) then
    {| item_time := item_time it;
       item_prompt := Text ([34%N] ++ or_empty (userPrompt entry) ++ [34%N]);
       item_response := Text (or_empty (nexResponse entry));
       item_expanded := true; item_entry := entry |}
  else
    {| item_time := item_time it;
       item_prompt := Text ([34%N] ++ prompt ++ [34%N]);
       item_response := Text response;
       item_expanded := false; item_entry := entry |}.

Definition on_item_click (k : nat) (s : State) : State :=
  match listEl s !! k with
  | Some (Item it) => set_listEl (<[k := Item (toggle it)]> (listEl s)) s
  | _ => s
  end.

(** The click listener of an item's replay button, lines 125-128. *)
Definition on_replay_click (k : nat) (nexWs : option ReadyState) (s : State) : State :=
  match listEl s !! k with
  | Some (Item it) => replayTTS nexWs (or_empty (nexResponse (item_entry it))) s
  | _ => s
  end.

(** What reaches the module: the outcome of a request, an input in the
    search box, clicks, and a conversation to save.  [now] is the time of
    [new Date()] where the handler renders the list. *)
Inductive Event :=
| LoadDone (r : LoadResult) (now : Z)
| SearchInput (value : str) (now : Z)
| ClearClick (confirmed : bool)
| ClearDone (ok : bool) (now : Z)
| ConversationComplete (d : Detail)
| SaveDone (ok : bool)
| ItemClick (k : nat)
| ReplayClick (k : nat) (nexWs : option ReadyState).

Definition step (loc : Locale) (s : State) (e : Event) : State :=
  match e with
  | LoadDone r now => loadHistory_done loc now r s
  | SearchInput value now => on_search loc now value s
  | ClearClick confirmed => on_clear_click confirmed s
  | ClearDone ok now => on_clear_done loc now ok s
  | ConversationComplete d => on_complete d s
  | SaveDone ok => on_save_done ok s
  | ItemClick k => on_item_click k s
  | ReplayClick k nexWs => on_replay_click k nexWs s
  end.

Definition run (loc : Locale) (s : State) (es : list Event) : State :=
  foldl (step loc) s es.

(** The module once its script has run: [historyData] is empty and the
    first [loadHistory()] has issued its request (lines 15-20). *)
Definition init (children : list Node) : State :=
  {| historyData := []; listEl := children; statsEl := StatsUntouched;
     requests := [GetHistory]; console := []; replayed := [] |}.

End History.

(** * Properties *)

(** ** Symbolic execution of handlers

    [wp m Q s] holds when running [m] from [s] ends in a completion and a
    state that satisfy [Q].  The lemmas below push [wp] through every
    construct of the embedding; [wp_step] applies the one that fits. *)

Definition wp {A} (m : M A) (Q : Completion A -> State -> Prop) (s : State) : Prop :=
  Q (m s).1 (m s).2.

Section WeakestPre.
Context {A B : Type}.
Implicit Types (s : State) (Q : Completion A -> State -> Prop)
  (U : Completion unit -> State -> Prop).

Lemma wp_exec (P : State -> Prop) (m : M unit) s :
  wp m (fun _ s' => P s') s -> P (exec m s).
Proof. done. Qed.

Lemma wp_ret (a : A) Q s : Q (Normal a) s -> wp (mret a) Q s.
Proof. done. Qed.

Lemma wp_throw e Q s : Q (Throw e) s -> wp (throw e) Q s.
Proof. done. Qed.

Lemma wp_bind (m : M A) (k : A -> M B) (R : Completion B -> State -> Prop) s :
  wp m (fun r s' => match r with
                    | Normal a => wp (k a) R s'
                    | Throw e => R (Throw e) s'
                    end) s ->
  wp (m ≫= k) R s.
Proof. unfold wp, mbind, M_bind. by destruct (m s) as [[a|e] s']. Qed.

Lemma wp_read (f : State -> A) Q s : Q (Normal (f s)) s -> wp (read f) Q s.
Proof. done. Qed.

Lemma wp_assign (f : Vars -> Vars) U v d b :
  U (Normal tt) (Build_State (f v) d b) -> wp (assign f) U (Build_State v d b).
Proof. done. Qed.

Lemma wp_assign_dom (f : Dom -> Dom) U v d b :
  U (Normal tt) (Build_State v (f d) b) -> wp (assign_dom f) U (Build_State v d b).
Proof. done. Qed.

Lemma wp_assign_browser (f : Browser -> Browser) U v d b :
  U (Normal tt) (Build_State v d (f b)) -> wp (assign_browser f) U (Build_State v d b).
Proof. done. Qed.

Lemma wp_when (b : bool) (m : M unit) U s :
  (if b then wp m U s else U (Normal tt) s) -> wp (when b m) U s.
Proof. by destruct b. Qed.

Lemma wp_try_catch (m h : M unit) U s :
  wp m (fun r s' => match r with
                    | Normal _ => U (Normal tt) s'
                    | Throw _ => wp h U s'
                    end) s ->
  wp (try_catch m h) U s.
Proof. unfold wp, try_catch. by destruct (m s) as [[a|e] s']. Qed.

Lemma wp_lift (c : Completion A) Q s : Q c s -> wp (lift c) Q s.
Proof. by destruct c. Qed.

Lemma wp_on_canvas (c : Draw unit) U v d b :
  U (match c.2 with Normal _ => Normal tt | Throw e => Throw e end)
    (Build_State v (set_canvas d (canvas d ++ c.1)) b) ->
  wp (on_canvas c) U (Build_State v d b).
Proof.
  unfold wp, on_canvas, mbind, M_bind, assign_dom, mret, M_ret, throw.
  cbn. by destruct (c.2).
Qed.

(** A draw routine that completes paints all its calls. *)
Lemma wp_on_canvas_normal (c : Draw unit) U v d b :
  c.2 = Normal tt ->
  U (Normal tt) (Build_State v (set_canvas d (canvas d ++ c.1)) b) ->
  wp (on_canvas c) U (Build_State v d b).
Proof. intros Hc HU. apply wp_on_canvas. by rewrite Hc. Qed.
End WeakestPre.

#[global] Arguments wp : simpl never.

Ltac wp_unfold :=
  unfold handle, click_start, view_change, click_mode, slider_input,
    startCamera, startCamera_settled, startCamera_connected, stopCamera,
    connectVisionWS, connectVisionWS_settled, startSendLoop, startHUDLoop,
    sendFrame, render, onopen, onerror, onclose, onmessage,
    handleVisionResult, count_frame, updateDetectionsList,
    setInterval, requestAnimationFrame, fresh_handle, console_error,
    stream_new, socket_new, clearInterval, cancelAnimationFrame, frame_fired,
    stop_tracks, socket_close, clear_canvas, set_readyState, socket_send.

Ltac wp_step :=
  lazymatch goal with
  | |- wp (mbind _ _) _ _ => apply wp_bind
  | |- wp (mret _) _ _ => apply wp_ret
  | |- wp (throw _) _ _ => apply wp_throw
  | |- wp (read _) _ _ => apply wp_read
  | |- wp (assign _) _ _ => apply wp_assign
  | |- wp (assign_dom _) _ _ => apply wp_assign_dom
  | |- wp (assign_browser _) _ _ => apply wp_assign_browser
  | |- wp (when _ _) _ _ => apply wp_when
  | |- wp (try_catch _ _) _ _ => apply wp_try_catch
  | |- wp (lift _) _ _ => apply wp_lift
  | |- wp (on_canvas _) _ _ =>
      first [ apply wp_on_canvas_normal; [reflexivity|] | apply wp_on_canvas ]
  | |- wp (match ?x with _ => _ end) _ _ => destruct x eqn:?
  | |- wp (if ?x then _ else _) _ _ => destruct x eqn:?
  | |- if ?x then _ else _ => destruct x eqn:?
  | |- match ?x with _ => _ end => destruct x eqn:?
  | |- wp _ _ _ => progress wp_unfold
  end; cbn.

Ltac wp_run := repeat wp_step.

(** ** What has been sent *)

(** The frame messages handed to any socket so far. *)
Definition frames_in (socks : list Socket) : list OutMsg :=
  filter is_frame (concat (sent <$> socks)).

Definition frames_sent (s : State) : list OutMsg := frames_in (sockets s).

#[global] Arguments frames_in : simpl never.

(** The socket the module currently holds is open. *)
Definition socket_open (s : State) : bool :=
  match ws s with
  | Some i => socket_is_open s i
  | None => false
  end.

Section Outbox.
Implicit Types (socks : list Socket) (sock : Socket) (m : OutMsg).

Lemma frames_in_app socks1 socks2 :
  frames_in (socks1 ++ socks2) = frames_in socks1 ++ frames_in socks2.
Proof. unfold frames_in. by rewrite fmap_app, concat_app, filter_app. Qed.

Lemma frames_in_cons sock socks :
  frames_in (sock :: socks) = filter is_frame (sent sock) ++ frames_in socks.
Proof. unfold frames_in. cbn. by rewrite filter_app. Qed.

Lemma frames_in_new socks rs tok :
  frames_in (socks ++ [Build_Socket rs [] tok]) = frames_in socks.
Proof. rewrite frames_in_app. unfold frames_in at 2. cbn. by rewrite app_nil_r. Qed.

Lemma frames_in_insert socks i sock sock' :
  socks !! i = Some sock ->
  frames_in (<[i := sock']> socks) =
    frames_in (take i socks) ++ filter is_frame (sent sock') ++ frames_in (drop (S i) socks).
Proof.
  intros Hi. apply lookup_lt_Some in Hi.
  rewrite insert_take_drop by done.
  by rewrite frames_in_app, frames_in_cons.
Qed.

Lemma frames_in_lookup socks i sock :
  socks !! i = Some sock ->
  frames_in socks =
    frames_in (take i socks) ++ filter is_frame (sent sock) ++ frames_in (drop (S i) socks).
Proof.
  intros Hi. rewrite <- (take_drop_middle socks i sock Hi) at 1.
  by rewrite frames_in_app, frames_in_cons.
Qed.

(** Changing a socket without touching its outbox sends nothing. *)
Lemma frames_in_insert_same socks i sock sock' :
  socks !! i = Some sock -> sent sock' = sent sock ->
  frames_in (<[i := sock']> socks) = frames_in socks.
Proof.
  intros Hi Hs. rewrite (frames_in_insert _ _ _ _ Hi), (frames_in_lookup _ _ _ Hi).
  by rewrite Hs.
Qed.

(** An authentication message is not a frame. *)
Lemma frames_in_insert_auth socks i sock sock' tok :
  socks !! i = Some sock -> sent sock' = sent sock ++ [AuthMsg tok] ->
  frames_in (<[i := sock']> socks) = frames_in socks.
Proof.
  intros Hi Hs. rewrite (frames_in_insert _ _ _ _ Hi), (frames_in_lookup _ _ _ Hi).
  rewrite Hs, filter_app. cbn. by rewrite app_nil_r.
Qed.

Lemma frames_in_insert_frame socks i sock sock' data md c :
  socks !! i = Some sock -> sent sock' = sent sock ++ [FrameMsg data md c] ->
  length (frames_in (<[i := sock']> socks)) = S (length (frames_in socks)).
Proof.
  intros Hi Hs. rewrite (frames_in_insert _ _ _ _ Hi), (frames_in_lookup _ _ _ Hi).
  rewrite Hs, filter_app. cbn. rewrite !length_app.
  destruct (decide True); [cbn; lia | done].
Qed.
End Outbox.

(** ** C1: the capture tick and the single slot *)

(** Events that run [ws.onmessage] or [ws.onclose], the handlers that end a
    request. *)
Definition closes_request (e : Event) : bool :=
  match e with
  | SocketMessage _ _ _ | SocketClose _ => true
  | _ => false
  end.

(** The guard of line 694 is the disjunction of the three conditions. *)
Lemma tick_skips_iff (s : State) :
  tick_skips s = true <->
  active s = false \/ awaitingResponse s = true \/ socket_open s = false.
Proof.
  unfold tick_skips, socket_open.
  destruct (active s), (awaitingResponse s), (ws s) as [i|]; cbn;
    try destruct (socket_is_open s i); cbn; intuition congruence.
Qed.

(** A skipped tick changes nothing at all. *)
Lemma sendFrame_skip (s : State) data :
  tick_skips s = true -> exec (sendFrame data) s = s.
Proof.
  intros Hs. unfold exec, sendFrame, mbind, M_bind, read. rewrite Hs.
  by destruct s.
Qed.

(** A tick that passes the guard appends one frame to the held socket and
    raises the flag. *)
Lemma sendFrame_send (s : State) data :
  tick_skips s = false ->
  exists i sock,
    ws s = Some i /\ sockets s !! i = Some sock /\ readyState sock = OPEN /\
    exec (sendFrame data) s =
      Build_State
        (set_awaitingResponse s true) s
        (set_sockets s
           (<[i := Build_Socket OPEN
                     (sent sock ++ [FrameMsg data (mode s) (confThreshold s)])
                     (token sock)]> (sockets s))).
Proof.
  intros Hs. pose proof Hs as Hg. unfold tick_skips, socket_is_open in Hg.
  destruct (ws s) as [i|] eqn:Hw; [|by rewrite orb_true_r in Hg].
  destruct (sockets s !! i) as [sock|] eqn:Hi; [|by rewrite orb_true_r in Hg].
  destruct (readyState sock) eqn:Hr; cbn in Hg;
    try (by rewrite orb_true_r in Hg).
  exists i, sock. repeat split; try done.
  unfold exec, sendFrame, socket_send, mbind, M_bind, read, assign, assign_browser.
  rewrite Hs. cbn. rewrite Hw. cbn. rewrite Hi, Hr. by destruct s.
Qed.

(** Nothing but a message or a close lowers the flag. *)
Lemma awaiting_stays (s : State) e :
  closes_request e = false ->
  awaitingResponse s = true -> awaitingResponse (step s e) = true.
Proof.
  intros Hq Ha. apply (wp_exec (fun s' => awaitingResponse s' = true)).
  destruct s as [v d b]. cbn in Ha.
  destruct e; try discriminate; wp_run; done.
Qed.

Lemma tick_skips_awaiting (s : State) :
  awaitingResponse s = true -> tick_skips s = true.
Proof. intros Ha. apply tick_skips_iff. auto. Qed.

(** While the flag is up no event sends a frame. *)
Lemma awaiting_blocks_frames (s : State) e :
  awaitingResponse s = true -> frames_sent (step s e) = frames_sent s.
Proof.
  intros Ha. apply (wp_exec (fun s' => frames_sent s' = frames_sent s)).
  destruct s as [v d b]. cbn in Ha. unfold frames_sent.
  destruct e; wp_run; cbn;
    repeat first
      [ done
      | rewrite frames_in_new
      | erewrite frames_in_insert_auth by (done || eassumption)
      | erewrite frames_in_insert_same by (done || eassumption)
      | match goal with
        | H : tick_skips _ = false |- _ => by rewrite tick_skips_awaiting in H
        end ].
Qed.

Lemma quiet_run (s : State) es :
  Forall (fun e => closes_request e = false) es ->
  awaitingResponse s = true ->
  frames_sent (run s es) = frames_sent s /\ awaitingResponse (run s es) = true.
Proof.
  intros Hes. revert s. induction Hes as [|e es He _ IH]; intros s Ha; [done|].
  change (run s (e :: es)) with (run (step s e) es).
  destruct (IH (step s e)) as [IHf IHa]; [by apply awaiting_stays|].
  split; [|done]. rewrite IHf. by apply awaiting_blocks_frames.
Qed.

(** C1.  On a capture tick: if the session is inactive, a request is in
    flight or the socket is not open, the tick changes nothing (no frame is
    sent, nothing is queued); otherwise exactly one frame message, carrying
    the current mode and threshold, is appended to the open socket and
    [awaitingResponse] becomes true.  From then on no sequence of events
    sends another frame until an inbound message or a close is handled: at
    most one request is outstanding. *)
Theorem capture_tick_single_slot (s : State) (data : string) :
  (active s = false \/ awaitingResponse s = true \/ socket_open s = false ->
   exec (sendFrame data) s = s) /\
  (active s = true /\ awaitingResponse s = false /\ socket_open s = true ->
   let s' := exec (sendFrame data) s in
   (exists i sock,
      ws s = Some i /\ sockets s !! i = Some sock /\
      sockets s' =
        <[i := Build_Socket OPEN
                 (sent sock ++ [FrameMsg data (mode s) (confThreshold s)])
                 (token sock)]> (sockets s)) /\
   length (frames_sent s') = S (length (frames_sent s)) /\
   awaitingResponse s' = true /\
   forall es, Forall (fun e => closes_request e = false) es ->
     frames_sent (run s' es) = frames_sent s' /\
     awaitingResponse (run s' es) = true).
Proof.
  split.
  - intros H. by apply sendFrame_skip, tick_skips_iff.
  - intros (Hact & Haw & Hopen). cbn zeta.
    assert (tick_skips s = false) as Hs.
    { destruct (tick_skips s) eqn:E; [|done].
      apply tick_skips_iff in E. destruct E as [E|[E|E]]; congruence. }
    destruct (sendFrame_send s data Hs) as (i & sock & Hw & Hi & Hr & ->).
    cbn. repeat split.
    + by exists i, sock.
    + unfold frames_sent. cbn. by eapply frames_in_insert_frame.
    + by apply quiet_run.
    + by apply quiet_run.
Qed.

(** ** C2: every inbound message releases the slot *)

(** [handleVisionResult] writes the mode tag first. *)
Lemma handleVisionResult_mode (s : State) msg now :
  currentMode (exec (handleVisionResult msg now) s) = msg_mode msg.
Proof.
  apply (wp_exec (fun s' => currentMode s' = msg_mode msg)).
  destruct s as [v d b]. wp_run; done.
Qed.

(** In detect mode the detections of the message replace the stored ones. *)
Lemma handleVisionResult_detect (s : State) msg now :
  is_classify (msg_mode msg) = false ->
  currentDetections (exec (handleVisionResult msg now) s) = default [] (msg_detections msg).
Proof.
  intros Hm.
  apply (wp_exec (fun s' => currentDetections s' = default [] (msg_detections msg))).
  destruct s as [v d b]. wp_run; done.
Qed.

(** In classify mode the copied classifications replace them. *)
Lemma handleVisionResult_classify (s : State) msg now cs :
  is_classify (msg_mode msg) = true ->
  map_throwing copy_classification (default [] (msg_classifications msg)) = Normal cs ->
  currentDetections (exec (handleVisionResult msg now) s) = cs.
Proof.
  intros Hm Hcs.
  apply (wp_exec (fun s' => currentDetections s' = cs)).
  destruct s as [v d b]. wp_run; congruence.
Qed.

(** Whether [ws.onmessage] hands the message to [handleVisionResult]. *)
Definition forwarded (data : Inbound) : option ResultMsg :=
  match data with
  | Parsed ty msg => if is_result ty then Some msg else None
  | Unparsable | ParsedNull => None
  end.

Lemma onmessage_forwarded (s : State) data now msg :
  forwarded data = Some msg ->
  exec (onmessage data now) s =
    let s' := exec (handleVisionResult msg now) s in
    Build_State (set_awaitingResponse s' false) s' s'.
Proof.
  destruct data as [| |ty m]; cbn; try done.
  destruct (is_result ty) eqn:Hty; [|done]. intros [= ->].
  unfold exec, onmessage, try_catch, when, mbind, M_bind, assign. rewrite Hty.
  by destruct (handleVisionResult msg now s) as [[[]|e] s'].
Qed.

Lemma onmessage_dropped (s : State) data now :
  forwarded data = None ->
  exec (onmessage data now) s = Build_State (set_awaitingResponse s false) s s.
Proof.
  destruct data as [| |ty m]; cbn; try done.
  destruct (is_result ty) eqn:Hty; [done|]. intros _.
  unfold exec, onmessage, try_catch, when, mbind, M_bind, assign. by rewrite Hty.
Qed.

(** C2.  After [ws.onmessage] has run, [awaitingResponse] is false, whatever
    the message: a [vision.result] is handed to [handleVisionResult], which
    stores its mode and its detections (or copied classifications); a
    message that does not parse is dropped, the state being otherwise
    untouched.  The handler is one turn of the event loop, so the flag is
    already down when the next capture tick evaluates its guard. *)
Theorem onmessage_clears_awaiting (s : State) (data : Inbound) (now : float) :
  let s' := exec (onmessage data now) s in
  awaitingResponse s' = false /\
  (forall msg, data = Parsed (Some "vision.result") msg ->
     currentMode s' = msg_mode msg /\
     (is_classify (msg_mode msg) = false ->
      currentDetections s' = default [] (msg_detections msg)) /\
     (forall cs, is_classify (msg_mode msg) = true ->
        map_throwing copy_classification (default [] (msg_classifications msg)) = Normal cs ->
        currentDetections s' = cs)) /\
  (data = Unparsable -> s' = Build_State (set_awaitingResponse s false) s s) /\
  (forall i, socket_is_open s i = true ->
     awaitingResponse (step s (SocketMessage i data now)) = false /\
     (tick_skips (step s (SocketMessage i data now)) = true ->
      active (step s (SocketMessage i data now)) = false \/
      socket_open (step s (SocketMessage i data now)) = false)).
Proof.
  cbn zeta.
  assert (forall s0 : State, awaitingResponse (exec (onmessage data now) s0) = false) as Hclear.
  { intros s0. destruct (forwarded data) as [msg|] eqn:Hf.
    - by rewrite (onmessage_forwarded _ _ _ _ Hf).
    - by rewrite (onmessage_dropped _ _ _ Hf). }
  split; [apply Hclear|]. split; [|split].
  - intros msg ->. rewrite (onmessage_forwarded _ _ _ msg) by done. cbn.
    split; [apply handleVisionResult_mode|].
    split; [apply handleVisionResult_detect|].
    intros cs. apply handleVisionResult_classify.
  - intros ->. by apply onmessage_dropped.
  - intros i Hopen.
    assert (step s (SocketMessage i data now) = exec (onmessage data now) s) as ->.
    { unfold step, exec at 1, handle, mbind, M_bind, read, when. by rewrite Hopen. }
    split; [apply Hclear|]. intros Hskip.
    apply tick_skips_iff in Hskip. rewrite Hclear in Hskip.
    destruct Hskip as [?|[?|?]]; auto. done.
Qed.

(** ** C3 and C4: what [drawDetections] paints *)

Section Painting.
Context {A B : Type}.

Lemma Draw_bind_normal (m : Draw A) (k : A -> Draw B) cs a :
  m = (cs, Normal a) -> m ≫= k = (cs ++ (k a).1, (k a).2).
Proof. intros ->. unfold mbind, Draw_bind. by destruct (k a). Qed.

Lemma Draw_bind_throw (m : Draw A) (k : A -> Draw B) cs e :
  m = (cs, Throw e) -> m ≫= k = (cs, Throw e).
Proof. by intros ->. Qed.
End Painting.

Lemma for_of_cons {A} (f : A -> Draw unit) x l :
  for_of f (x :: l) = f x ≫= fun _ => for_of f l.
Proof. done. Qed.

Lemma for_of_normal {A} (f : A -> Draw unit) l :
  Forall (fun x => (f x).2 = Normal tt) l -> (for_of f l).2 = Normal tt.
Proof.
  induction 1 as [|x l Hx _ IH]; [done|].
  rewrite for_of_cons. destruct (f x) as [cs r] eqn:Hf. cbn in Hx. subst r.
  by rewrite (Draw_bind_normal _ _ cs tt).
Qed.

(** The polygon of an entry cannot make the routine throw: it is absent,
    too short to be drawn, or made of point arrays. *)
Definition polygon_ok (polygon : option (list (option (list float)))) : Prop :=
  match polygon with
  | Some pts => 2 < length pts -> Forall is_Some pts
  | None => True
  end.

(** An entry the loop body gets through: an object with a [bbox] array. *)
Definition drawable (entry : option Detection) : Prop :=
  exists d bbox, entry = Some d /\ det_bbox d = Some bbox /\ polygon_ok (det_polygon d).

(** The fill of line 819 for a box. *)
Definition box_fill (cw ch : float) (bbox : list float) : Cmd :=
  let '(x1, y1, x2, y2) := box_corners cw ch bbox in
  FillRect CYAN_FILL x1 y1 (Px (x2 - x1)) (y2 - y1).

Lemma draw_polygon_skipped cw ch polygon :
  match polygon with Some pts => length pts <= 2 | None => True end ->
  draw_polygon cw ch polygon = ([], Normal tt).
Proof.
  destruct polygon as [pts|]; [|done]. intros Hlen. unfold draw_polygon.
  destruct (Nat.ltb_spec 2 (length pts)); [lia|reflexivity].
Qed.

Lemma draw_polygon_normal cw ch polygon :
  polygon_ok polygon -> (draw_polygon cw ch polygon).2 = Normal tt.
Proof.
  destruct polygon as [pts|]; [|intros _; reflexivity].
  unfold polygon_ok, draw_polygon.
  destruct (Nat.ltb_spec 2 (length pts)) as [Hlen|]; [|intros _; reflexivity].
  intros Hok. specialize (Hok Hlen).
  destruct pts as [|p0 rest]; [cbn in Hlen; lia|].
  apply Forall_cons in Hok as [[p ->] Hrest].
  cbn [lookup list_lookup mjoin option_join drop]. rewrite drop_0.
  set (line := fun pi : option (list float) =>
                 p ← deref pi; paint (LineTo (elem p 0 * cw) (elem p 1 * ch))).
  assert ((for_of line rest).2 = Normal tt) as Hlines.
  { apply for_of_normal. eapply Forall_impl; [exact Hrest|].
    by intros ? [q ->]. }
  destruct (for_of line rest) as [cs r]. cbn in Hlines. by subst r.
Qed.

(** An entry with a [bbox] is painted in full: polygon (if any), brackets,
    label chip and fill, at the corners computed from the [bbox]. *)
Lemma draw_detection_drawable cw ch d bbox :
  det_bbox d = Some bbox -> polygon_ok (det_polygon d) ->
  draw_detection cw ch (Some d) =
    let '(x1, y1, x2, y2) := box_corners cw ch bbox in
    ((draw_polygon cw ch (det_polygon d)).1
       ++ (draw_brackets x1 y1 x2 y2).1 ++ (draw_label_and_fill d x1 y1 x2 y2).1,
     Normal tt).
Proof.
  intros Hb Hp. unfold draw_detection.
  unfold mbind at 1, Draw_bind at 1. cbn [deref app]. rewrite Hb.
  unfold mbind at 1, Draw_bind at 1. cbn [deref app].
  destruct (box_corners cw ch bbox) as [[[x1 y1] x2] y2].
  pose proof (draw_polygon_normal cw ch _ Hp) as Hn.
  destruct (draw_polygon cw ch (det_polygon d)) as [pcs r]. cbn in Hn. subst r.
  reflexivity.
Qed.

(** An entry without a [bbox] stops the loop body at line 742. *)
Lemma draw_detection_no_bbox cw ch d :
  det_bbox d = None -> draw_detection cw ch (Some d) = ([], Throw TypeError).
Proof.
  intros Hb. unfold draw_detection.
  unfold mbind at 1, Draw_bind at 1. cbn [deref app]. by rewrite Hb.
Qed.

Lemma box_fill_painted cw ch d bbox :
  det_bbox d = Some bbox -> polygon_ok (det_polygon d) ->
  box_fill cw ch bbox ∈ (draw_detection cw ch (Some d)).1.
Proof.
  intros Hb Hp. rewrite (draw_detection_drawable _ _ _ _ Hb Hp). unfold box_fill.
  destruct (box_corners cw ch bbox) as [[[x1 y1] x2] y2]. cbn [fst].
  rewrite !elem_of_app. right. right.
  unfold draw_label_and_fill. cbv [mbind Draw_bind paint fst snd app].
  rewrite !elem_of_cons. auto 10.
Qed.

Lemma drawDetections_cons cw ch entry dets :
  drawDetections (entry :: dets) cw ch =
    draw_detection cw ch entry ≫= fun _ => drawDetections dets cw ch.
Proof. done. Qed.

Lemma drawDetections_drawable cw ch dets :
  Forall drawable dets ->
  (drawDetections dets cw ch).2 = Normal tt /\
  forall d bbox, Some d ∈ dets -> det_bbox d = Some bbox ->
    box_fill cw ch bbox ∈ (drawDetections dets cw ch).1.
Proof.
  induction 1 as [|entry dets (d0 & bbox0 & -> & Hb0 & Hp0) _ [IHn IHb]].
  { split; [done|]. intros d bbox Hin. by apply elem_of_nil in Hin. }
  rewrite drawDetections_cons.
  pose proof (box_fill_painted cw ch d0 bbox0 Hb0 Hp0) as Hfill.
  rewrite (draw_detection_drawable _ _ _ _ Hb0 Hp0) in *.
  destruct (box_corners cw ch bbox0) as [[[x1 y1] x2] y2].
  erewrite Draw_bind_normal by done. cbn [fst snd] in *.
  split; [done|]. intros d bbox Hin Hb.
  apply elem_of_cons in Hin as [[= ->]|Hin]; apply elem_of_app.
  - left. by replace bbox with bbox0 by congruence.
  - right. by eapply IHb.
Qed.

Lemma drawDetections_stops cw ch pre d post :
  Forall drawable pre -> det_bbox d = None ->
  drawDetections (pre ++ Some d :: post) cw ch =
    ((drawDetections pre cw ch).1, Throw TypeError).
Proof.
  intros Hpre Hb. induction Hpre as [|entry pre (d0 & bbox0 & -> & Hb0 & Hp0) _ IH].
  - cbn [app]. rewrite drawDetections_cons, (draw_detection_no_bbox _ _ _ Hb). done.
  - cbn [app]. rewrite !drawDetections_cons, IH.
    rewrite (draw_detection_drawable _ _ _ _ Hb0 Hp0).
    destruct (box_corners cw ch bbox0) as [[[x1 y1] x2] y2].
    erewrite !Draw_bind_normal by done. done.
Qed.

(** The detection of the spec's example, and the same one without a [bbox]. *)
Definition person : Detection :=
  {| det_class := Some "person"; det_confidence := Some 0.92%float;
     det_bbox := Some [0.1; 0.1; 0.5; 0.6]%float; det_polygon := None |}.

Definition person_without_bbox : Detection :=
  {| det_class := Some "person"; det_confidence := Some 0.92%float;
     det_bbox := None; det_polygon := None |}.

(** C3, as the code falsifies it.  A list whose first entry has no [bbox]
    and whose second entry is well formed: the routine throws at the first
    entry and paints nothing, the second entry included. *)
Lemma drawDetections_throws_without_bbox :
  drawDetections [Some person_without_bbox; Some person] 640 480
  = ([], Throw TypeError).
Proof. reflexivity. Qed.

(** C3, amended.  [drawDetections] checks the shape of the optional polygon
    only.  When every entry carries a [bbox] array (and a polygon of more
    than two points holds point arrays only) the routine does not throw and
    the box of every entry is painted; a polygon that is absent or has at
    most two points is skipped, its entry being painted all the same.
    There is no check on [bbox]: at an entry without one the routine throws,
    keeping what was painted for the entries before it and painting nothing
    for the entries after it. *)
Theorem drawDetections_only_guards_polygon (cw ch : float) :
  (forall dets, Forall drawable dets ->
     (drawDetections dets cw ch).2 = Normal tt /\
     forall d bbox, Some d ∈ dets -> det_bbox d = Some bbox ->
       box_fill cw ch bbox ∈ (drawDetections dets cw ch).1) /\
  (forall d bbox,
     det_bbox d = Some bbox ->
     match det_polygon d with Some pts => length pts <= 2 | None => True end ->
     drawable (Some d) /\ draw_polygon cw ch (det_polygon d) = ([], Normal tt)) /\
  (forall pre d post, Forall drawable pre -> det_bbox d = None ->
     drawDetections (pre ++ Some d :: post) cw ch =
       ((drawDetections pre cw ch).1, Throw TypeError)).
Proof.
  split; [|split].
  - apply drawDetections_drawable.
  - intros d bbox Hb Hp. split; [|by apply draw_polygon_skipped].
    exists d, bbox. repeat split; [done|].
    unfold polygon_ok. destruct (det_polygon d); [lia|done].
  - apply drawDetections_stops.
Qed.

(** C4.  For a detection with normalized bbox [(nx1, ny1, nx2, ny2)] on a
    surface of [cw] by [ch] pixels, the box is painted on the pixel
    rectangle [(nx1*cw, ny1*ch)-(nx2*cw, ny2*ch)]: these are the corners the
    loop body computes, the fill covers that rectangle and the four
    brackets turn at its four corners. *)
Theorem detection_box_rectangle (cw ch nx1 ny1 nx2 ny2 : float) (d : Detection) :
  det_bbox d = Some [nx1; ny1; nx2; ny2] ->
  polygon_ok (det_polygon d) ->
  let x1 := (nx1 * cw)%float in
  let y1 := (ny1 * ch)%float in
  let x2 := (nx2 * cw)%float in
  let y2 := (ny2 * ch)%float in
  let painted := (drawDetections [Some d] cw ch).1 in
  box_corners cw ch [nx1; ny1; nx2; ny2] = (x1, y1, x2, y2) /\
  (drawDetections [Some d] cw ch).2 = Normal tt /\
  FillRect CYAN_FILL x1 y1 (Px (x2 - x1)) (y2 - y1) ∈ painted /\
  LineTo x1 y1 ∈ painted /\ LineTo x2 y1 ∈ painted /\
  LineTo x1 y2 ∈ painted /\ LineTo x2 y2 ∈ painted.
Proof.
  intros Hb Hp. cbn zeta. split; [done|].
  unfold drawDetections. rewrite for_of_cons.
  rewrite (draw_detection_drawable _ _ _ _ Hb Hp).
  unfold box_corners, elem. cbn [lookup list_lookup Js.num default].
  erewrite Draw_bind_normal by done. cbn [fst snd for_of mret Draw_ret].
  split; [done|]. rewrite app_nil_r.
  repeat split; rewrite !elem_of_app; right.
  - right. unfold draw_label_and_fill. cbv [mbind Draw_bind paint fst snd app].
    rewrite !elem_of_cons. auto 10.
  - left. unfold draw_brackets. cbv [mbind Draw_bind paint fst snd app].
    rewrite !elem_of_cons. auto 30.
  - left. unfold draw_brackets. cbv [mbind Draw_bind paint fst snd app].
    rewrite !elem_of_cons. auto 30.
  - left. unfold draw_brackets. cbv [mbind Draw_bind paint fst snd app].
    rewrite !elem_of_cons. auto 30.
  - left. unfold draw_brackets. cbv [mbind Draw_bind paint fst snd app].
    rewrite !elem_of_cons. auto 30.
Qed.

(** The example of the spec: bbox [(0.1, 0.1, 0.5, 0.6)] on a 640 by 480
    surface is painted on [(64, 48)-(320, 288)]. *)
Lemma detection_box_rectangle_640_480 :
  let painted := (drawDetections [Some person] 640 480).1 in
  box_corners 640 480 [0.1; 0.1; 0.5; 0.6]%float = (64, 48, 320, 288)%float /\
  (drawDetections [Some person] 640 480).2 = Normal tt /\
  FillRect CYAN_FILL 64 48 (Px 256) 240 ∈ painted /\
  LineTo 64 48 ∈ painted /\ LineTo 320 48 ∈ painted /\
  LineTo 64 288 ∈ painted /\ LineTo 320 288 ∈ painted.
Proof.
  exact (detection_box_rectangle 640 480 0.1 0.1 0.5 0.6 person eq_refl I).
Defined.

(** ** C5: what [stopCamera] tears down *)

(** Everything [stopCamera] does, from any state: the session is marked
    inactive, the capture timer and the pending frame request are cancelled,
    the tracks of the held stream are stopped, the held socket is asked to
    close, the canvas, the stored detections, the panel and the displayed
    statistics are reset.  It does not assign [awaitingResponse], nor the
    counters behind the statistics. *)
Lemma stopCamera_teardown (s : State) :
  let s' := exec stopCamera s in
  active s' = false /\
  (sendTimer s' = None /\ forall h, sendTimer s = Some h -> h ∉ intervals s') /\
  (rafId s' = None /\ forall h, rafId s = Some h -> h ∉ rafs s') /\
  (stream s' = None /\
   forall i ts, stream s = Some i -> streams s !! i = Some ts ->
     streams s' !! i = Some ((fun _ => Ended) <$> ts)) /\
  (ws s' = None /\
   forall i sock, ws s = Some i -> sockets s !! i = Some sock ->
     exists sock', sockets s' !! i = Some sock' /\ sent sock' = sent sock /\
       (readyState sock' = CLOSING \/ readyState sock' = CLOSED)) /\
  currentDetections s' = [] /\ detectionsEl s' = [] /\ canvas s' = [] /\
  (fpsEl s', inferenceEl s', objectsEl s', confidenceEl s') = (0, 0%float, 0, 0%float) /\
  awaitingResponse s' = awaitingResponse s /\
  (frameCount s', currentFps s', lastFpsTime s') = (frameCount s, currentFps s, lastFpsTime s).
Proof.
  cbn zeta.
  apply (wp_exec (fun s' =>
    active s' = false /\
    (sendTimer s' = None /\ forall h, sendTimer s = Some h -> h ∉ intervals s') /\
    (rafId s' = None /\ forall h, rafId s = Some h -> h ∉ rafs s') /\
    (stream s' = None /\
     forall i ts, stream s = Some i -> streams s !! i = Some ts ->
       streams s' !! i = Some ((fun _ => Ended) <$> ts)) /\
    (ws s' = None /\
     forall i sock, ws s = Some i -> sockets s !! i = Some sock ->
       exists sock', sockets s' !! i = Some sock' /\ sent sock' = sent sock /\
         (readyState sock' = CLOSING \/ readyState sock' = CLOSED)) /\
    currentDetections s' = [] /\ detectionsEl s' = [] /\ canvas s' = [] /\
    (fpsEl s', inferenceEl s', objectsEl s', confidenceEl s') = (0, 0%float, 0, 0%float) /\
    awaitingResponse s' = awaitingResponse s /\
    (frameCount s', currentFps s', lastFpsTime s') = (frameCount s, currentFps s, lastFpsTime s))).
  destruct s as [v d b]. wp_run.
  all: repeat match goal with |- _ /\ _ => split end; try done.
  all: try (intros h ?; simplify_eq; rewrite list_elem_of_filter; tauto).
  all: try (intros i ts ? ?; simplify_eq;
            apply list_lookup_insert_eq; by eapply lookup_lt_Some).
  all: intros i sock ? ?; simplify_eq.
  all: try (eexists; split;
            [apply list_lookup_insert_eq; by eapply lookup_lt_Some | cbn; auto]).
  all: eexists; split; [eassumption | auto].
Qed.

(** A start in which the camera is granted, the token arrives and the
    socket is constructed. *)
Definition granted : StartOutcome := CameraGranted (FetchOk (Some "tok")) false.

(** A session with one frame in flight: started, socket open and
    authenticated, one capture tick past the guard. *)
Definition mid_flight : State :=
  run (init 0 blank_page) (start granted ++ [SocketOpen 0; Tick 1 "frame-1"]).

(** C5, at the failing input.  Stopping [mid_flight] tears everything down
    but leaves [awaitingResponse] true.  A start that completes before the
    old socket reports its close therefore begins with the slot taken: its
    first capture tick sends nothing on the new, open socket.  When the old
    socket's close event finally runs [ws.onclose], it lowers the flag and
    also drops the new socket from [ws], so this session never sends a
    frame. *)
Theorem stop_mid_flight_keeps_awaiting :
  let stopped := step mid_flight ClickStart in
  let restarted := run stopped (start granted ++ [SocketOpen 1; Tick 3 "frame-2"]) in
  let late_close := run restarted [SocketClose 0; Tick 3 "frame-3"] in
  awaitingResponse mid_flight = true /\
  (active stopped, sendTimer stopped, rafId stopped, stream stopped, ws stopped)
    = (false, None, None, None, None) /\
  (intervals stopped, rafs stopped, streams stopped) = ([], [], [[Ended]]) /\
  readyState <$> sockets stopped = [CLOSING] /\
  awaitingResponse stopped = true /\
  (active restarted, ws restarted, awaitingResponse restarted) = (true, Some 1, true) /\
  sent <$> sockets restarted
    = [[AuthMsg "tok"; FrameMsg "frame-1" "detect" 0.25]; [AuthMsg "tok"]] /\
  (active late_close, ws late_close, awaitingResponse late_close) = (true, None, false) /\
  sent <$> sockets late_close = sent <$> sockets restarted.
Proof. vm_compute. repeat split. Qed.

(** ** C6: a failed token request *)

(** Events that end a token request with a socket constructed. *)
Definition connects (e : Event) : bool :=
  match e with
  | TokenFetched (FetchOk _) false => true
  | _ => false
  end.

Lemma run_snoc (s : State) es e : run s (es ++ [e]) = step (run s es) e.
Proof. unfold run. by rewrite foldl_app. Qed.

(** Without a socket in [ws], nothing but a token request that ends with a
    socket changes that, and no event sends a frame or constructs a
    socket. *)
Lemma disconnected_stays (s : State) e :
  connects e = false -> ws s = None ->
  ws (step s e) = None /\ frames_sent (step s e) = frames_sent s /\
  length (sockets (step s e)) = length (sockets s).
Proof.
  intros He Hw.
  apply (wp_exec (fun s' => ws s' = None /\ frames_sent s' = frames_sent s /\
                            length (sockets s') = length (sockets s))).
  destruct s as [v d b]. cbn in Hw. unfold frames_sent.
  destruct e as [| |[|tok] [|]| | | | | | | | |]; try discriminate; wp_run; cbn;
    rewrite ?length_insert;
    repeat first
      [ done
      | congruence
      | erewrite frames_in_insert_same by (done || eassumption)
      | match goal with
        | H : tick_skips _ = false |- _ =>
            unfold tick_skips in H; cbn in H; rewrite Hw, orb_true_r in H; discriminate
        end ].
Qed.

Lemma disconnected_run (s : State) es :
  Forall (fun e => connects e = false) es -> ws s = None ->
  ws (run s es) = None /\ frames_sent (run s es) = frames_sent s /\
  length (sockets (run s es)) = length (sockets s).
Proof.
  intros Hes. revert s. induction Hes as [|e es He _ IH]; intros s Hw; [done|].
  change (run s (e :: es)) with (run (step s e) es).
  destruct (disconnected_stays s e He Hw) as (Hw' & Hf & Hl).
  destruct (IH _ Hw') as (? & ? & ?). repeat split; congruence.
Qed.

(** A token request that settles without a socket being constructed, on
    any page: [ws], the sockets, the console and the page are as before,
    and so are [active] and the stream; the capture timer and the HUD loop
    are started. *)
Lemma settled_without_socket (s : State) fetch ctor_throws :
  connects (TokenFetched fetch ctor_throws) = false ->
  0 < token_requests s ->
  let s' := step s (TokenFetched fetch ctor_throws) in
  (ws s', sockets s', console s', chrome s') = (ws s, sockets s, console s, chrome s) /\
  (active s', stream s') = (active s, stream s) /\
  (exists h, sendTimer s' = Some h /\ h ∈ intervals s') /\
  (exists h, rafId s' = Some h /\ h ∈ rafs s').
Proof.
  intros Hc Hp. cbn zeta.
  apply (wp_exec (fun s' =>
    (ws s', sockets s', console s', chrome s') = (ws s, sockets s, console s, chrome s) /\
    (active s', stream s') = (active s, stream s) /\
    (exists h, sendTimer s' = Some h /\ h ∈ intervals s') /\
    (exists h, rafId s' = Some h /\ h ∈ rafs s'))).
  destruct s as [v d [so st iv rf nh co mr [|tr]]]; cbn in Hp; [lia|].
  destruct fetch as [|tok], ctor_throws; try discriminate; wp_run.
  all: split; [reflexivity|]; split; [reflexivity|].
  all: split; eexists; (split; [reflexivity|]); cbn; rewrite ?elem_of_cons; auto.
Qed.

(** A click on the start button of an inactive session whose camera is
    granted and whose token request then settles without a socket, with no
    other event in between: the session is active, the preview is shown and
    both loops run; [ws], the sockets and the console are as before. *)
Lemma start_without_socket (s : State) fetch ctor_throws :
  connects (TokenFetched fetch ctor_throws) = false ->
  active s = false ->
  let s' := run s (start (CameraGranted fetch ctor_throws)) in
  ws s' = ws s /\ sockets s' = sockets s /\ console s' = console s /\
  noCamera_text (chrome s') = noCamera_text (chrome s) /\
  active s' = true /\ is_Some (stream s') /\ is_Some (sendTimer s') /\ is_Some (rafId s') /\
  (video_shown (chrome s'), startBtn_text (chrome s')) = (true, "Stop Camera").
Proof.
  intros Hc Ha. cbn zeta. unfold start, run. cbn [foldl].
  destruct s as [v d b]. cbn in Ha.
  assert (step (Build_State v d b) ClickStart
          = Build_State v d (set_media_requests b (S (media_requests b)))) as ->.
  { unfold step, handle, click_start, exec, mbind, M_bind, read. cbn. by rewrite Ha. }
  match goal with |- context [step (step ?s0 (UserMedia true)) _] =>
    set (s1 := step s0 (UserMedia true)) end.
  assert (0 < token_requests s1 /\ ws s1 = ws v /\ sockets s1 = sockets b /\
          console s1 = console b /\ noCamera_text (chrome s1) = noCamera_text (chrome d) /\
          active s1 = true /\ is_Some (stream s1) /\
          (video_shown (chrome s1), startBtn_text (chrome s1)) = (true, "Stop Camera"))
    as (Hp & Hw & Hs & Hco & Ht & Hact & Hst & Hui).
  { subst s1.
    apply (wp_exec (fun s1 =>
      0 < token_requests s1 /\ ws s1 = ws v /\ sockets s1 = sockets b /\
      console s1 = console b /\ noCamera_text (chrome s1) = noCamera_text (chrome d) /\
      active s1 = true /\ is_Some (stream s1) /\
      (video_shown (chrome s1), startBtn_text (chrome s1)) = (true, "Stop Camera"))).
    wp_run. repeat split; try done; lia. }
  destruct (settled_without_socket s1 fetch ctor_throws Hc Hp)
    as (Hsame & Hsame' & (h & Hh & _) & (h' & Hh' & _)).
  injection Hsame as Hw' Hs' Hco' Hch'. injection Hsame' as Hact' Hst'.
  rewrite Hw', Hs', Hco', Hch', Hact', Hst', Hh, Hh'.
  repeat split; try done.
Qed.

(** C6, amended.  When the token request of the connection sequence fails,
    [connectVisionWS] returns before it constructs a socket: the sockets,
    [ws], the console and the page are as before.  The start is not
    aborted: [active] and the stream are untouched and the capture timer and
    the HUD loop are started, so a session started from an inactive page is
    active, with the preview shown and both loops running.  If [ws] is
    [null] when the request fails, no event constructs a socket or sends a
    frame until a later token request ends with a socket.  A response whose
    body is a JSON object without a token is no failure: the socket is
    constructed with the empty token and stored in [ws]. *)
Theorem token_fetch_failure_is_silent (s : State) (ctor_throws : bool) :
  0 < token_requests s ->
  let s' := step s (TokenFetched FetchFails ctor_throws) in
  (ws s', sockets s', console s', chrome s') = (ws s, sockets s, console s, chrome s) /\
  (active s', stream s') = (active s, stream s) /\
  (exists h, sendTimer s' = Some h /\ h ∈ intervals s') /\
  (exists h, rafId s' = Some h /\ h ∈ rafs s') /\
  (ws s = None ->
   forall es, Forall (fun e => connects e = false) es ->
     ws (run s' es) = None /\
     frames_sent (run s' es) = frames_sent s /\
     length (sockets (run s' es)) = length (sockets s)) /\
  (forall s0 : State, active s0 = false ->
     let s1 := run s0 (start (CameraGranted FetchFails ctor_throws)) in
     ws s1 = ws s0 /\ sockets s1 = sockets s0 /\ console s1 = console s0 /\
     noCamera_text (chrome s1) = noCamera_text (chrome s0) /\
     active s1 = true /\ is_Some (stream s1) /\ is_Some (sendTimer s1) /\
     is_Some (rafId s1) /\
     (video_shown (chrome s1), startBtn_text (chrome s1)) = (true, "Stop Camera")) /\
  (let s2 := step s (TokenFetched (FetchOk None) false) in
   ws s2 = Some (length (sockets s)) /\
   sockets s2 = sockets s ++ [Build_Socket CONNECTING [] ""]).
Proof.
  intros Hp. cbn zeta.
  destruct (settled_without_socket s FetchFails ctor_throws eq_refl Hp)
    as (Hsame & Hsame' & Htimer & Hraf).
  split; [exact Hsame|]. split; [exact Hsame'|]. split; [exact Htimer|].
  split; [exact Hraf|]. injection Hsame as Hw Hs _ _.
  split; [|split].
  - intros Hnone es Hes.
    destruct (disconnected_run (step s (TokenFetched FetchFails ctor_throws)) es Hes)
      as (? & Hf & Hl); [congruence|].
    unfold frames_sent in *. rewrite Hs in Hf, Hl. done.
  - intros s0 Ha. by apply start_without_socket.
  - apply (wp_exec (fun s2 =>
      ws s2 = Some (length (sockets s)) /\
      sockets s2 = sockets s ++ [Build_Socket CONNECTING [] ""])).
    destruct s as [v d [so st iv rf nh co mr [|tr]]]; cbn in Hp; [lia|]. by wp_run.
Qed.

(** On a freshly loaded page: the start whose token request fails leaves an
    active session without a socket, and its capture ticks send nothing. *)
Lemma token_fetch_failure_on_fresh_page :
  let s' := run (init 0 blank_page) (start (CameraGranted FetchFails false)) in
  (active s', ws s', sockets s', console s') = (true, None, [], []) /\
  (exists h, sendTimer s' = Some h /\ h ∈ intervals s') /\
  frames_sent (run s' [Tick 1 "frame-1"; AnimationFrame 2 640 480; Tick 1 "frame-2"]) = [].
Proof.
  destruct (token_fetch_failure_is_silent
              (run (init 0 blank_page) [ClickStart; UserMedia true]) false)
    as (_ & _ & Htimer & _ & Hquiet & _); [vm_compute; lia|].
  split; [vm_compute; reflexivity|]. split; [exact Htimer|].
  apply (Hquiet eq_refl [Tick 1 "frame-1"; AnimationFrame 2 640 480; Tick 1 "frame-2"]).
  by repeat constructor.
Defined.

(** C6, as the code falsifies it.  A session is stopped while its token
    request is pending; the request then succeeds and stores its socket in
    [ws], on the stopped session, and starts a capture timer and a frame
    request.  The next start gets the camera, its own token request fails,
    and its capture tick sends a frame on the socket of the stopped
    session: the session whose token request failed is connected. *)
Lemma failed_fetch_sends_on_stale_socket :
  let stale :=
    run (init 0 blank_page)
      [ClickStart; UserMedia true; ClickStart; TokenFetched (FetchOk (Some "tok")) false;
       SocketOpen 0] in
  let failed := run stale (start (CameraGranted FetchFails false)) in
  let ticked := step failed (Tick 3 "frame-1") in
  (active stale, ws stale, sendTimer stale) = (false, Some 0, Some 1) /\
  (active failed, ws failed, length (sockets failed)) = (true, Some 0, 1) /\
  frames_sent failed = [] /\
  frames_sent ticked = [FrameMsg "frame-1" "detect" 0.25] /\
  sent <$> sockets ticked = [[AuthMsg "tok"; FrameMsg "frame-1" "detect" 0.25]].
Proof. vm_compute. repeat split. Qed.

(** ** C7: the rolling frame counter *)

(** The list a result carries for its mode. *)
Definition entries (msg : ResultMsg) : list (option Detection) :=
  if is_classify (msg_mode msg) then default [] (msg_classifications msg)
  else default [] (msg_detections msg).

(** A result the handler gets through: none of its entries is [null]. *)
Definition accepted (msg : ResultMsg) : Prop := Forall is_Some (entries msg).

Section Total.
Implicit Types (dets : list (option Detection)).

Lemma copy_classifications_total dets :
  Forall is_Some dets ->
  exists cs, map_throwing copy_classification dets = Normal cs /\ Forall is_Some cs.
Proof.
  induction 1 as [|entry dets [c ->] _ (cs & IH & Hcs)]; [by exists []|].
  eexists. cbn. rewrite IH. split; [done|]. by constructor.
Qed.

Lemma classification_items_total dets :
  Forall is_Some dets -> exists rows, map_throwing classification_item dets = Normal rows.
Proof.
  induction 1 as [|entry dets [c ->] _ (rows & IH)]; [by exists []|].
  eexists. cbn. by rewrite IH.
Qed.

Lemma sum_confidence_total dets acc :
  Forall is_Some dets -> exists total, sum_confidence acc dets = Normal total.
Proof.
  intros H. revert acc. induction H as [|entry dets [d ->] _ IH]; intros acc.
  - by exists acc.
  - apply IH.
Qed.

Lemma average_confidence_total dets :
  Forall is_Some dets -> exists avg, average_confidence dets = Normal avg.
Proof.
  intros H. unfold average_confidence. destruct (0 <? length dets); [|by eexists].
  destruct (sum_confidence_total dets 0 H) as [total ->]. by eexists.
Qed.

Lemma group_all_total dets groups :
  Forall is_Some dets -> exists gs, group_all groups dets = Normal gs.
Proof.
  intros H. revert groups. induction H as [|entry dets [d ->] _ IH]; intros groups.
  - by exists groups.
  - apply IH.
Qed.

Lemma detection_rows_total cm dets :
  Forall is_Some dets -> exists rows, detection_rows cm dets = Normal rows.
Proof.
  intros H. unfold detection_rows. destruct (is_classify cm).
  - by apply classification_items_total.
  - destruct (group_all_total dets [] H) as [gs ->]. by eexists.
Qed.
End Total.

(** Lines 669-675 as a function of the three variables they touch. *)
Definition counted (now : float) (s : State) : nat * nat * float :=
  if Js.ge (now - lastFpsTime s) 1000
  then (0, S (frameCount s), now)
  else (S (frameCount s), currentFps s, lastFpsTime s).

(** An accepted result is handled to the end: the counter moves as
    [counted] says and the statistics shown are the ones just computed. *)
Lemma handleVisionResult_accepted (s : State) msg now :
  accepted msg ->
  let s' := exec (handleVisionResult msg now) s in
  (frameCount s', currentFps s', lastFpsTime s') = counted now s /\
  fpsEl s' = currentFps s' /\
  objectsEl s' = length (currentDetections s') /\
  inferenceEl s' = Js.or_zero (msg_inference_ms msg).
Proof.
  unfold accepted, entries. intros Hacc. cbn zeta.
  apply (wp_exec (fun s' =>
    (frameCount s', currentFps s', lastFpsTime s') = counted now s /\
    fpsEl s' = currentFps s' /\
    objectsEl s' = length (currentDetections s') /\
    inferenceEl s' = Js.or_zero (msg_inference_ms msg))).
  destruct s as [v d b]. unfold counted. cbn [lastFpsTime frameCount currentFps vars].
  destruct (is_classify (msg_mode msg)) eqn:Hmode.
  - destruct (copy_classifications_total _ Hacc) as (cs & Hcs & Hsome).
    destruct (average_confidence_total _ Hsome) as [avg Havg].
    destruct (detection_rows_total (msg_mode msg) _ Hsome) as [rows Hrows].
    unfold handleVisionResult. rewrite Hmode, Hcs.
    wp_run; rewrite ?Havg, ?Hrows; wp_run; done.
  - destruct (average_confidence_total _ Hacc) as [avg Havg].
    destruct (detection_rows_total (msg_mode msg) _ Hacc) as [rows Hrows].
    unfold handleVisionResult. rewrite Hmode.
    wp_run; rewrite ?Havg, ?Hrows; wp_run; done.
Qed.

(** Handling a sequence of results, each with its arrival time. *)
Definition handle_results (s : State) (rs : list (ResultMsg * float)) : State :=
  foldl (fun s r => exec (handleVisionResult r.1 r.2) s) s rs.

(** Results that arrive less than 1000ms after the last reset are counted
    and leave the displayed value alone. *)
Lemma results_within_window (s : State) rs :
  Forall (fun r => accepted r.1 /\ Js.ge (r.2 - lastFpsTime s) 1000 = false) rs ->
  let s' := handle_results s rs in
  frameCount s' = frameCount s + length rs /\
  currentFps s' = currentFps s /\ lastFpsTime s' = lastFpsTime s.
Proof.
  cbn zeta. revert s. induction rs as [|[msg now] rs IH]; intros s Hrs.
  { cbn. by rewrite Nat.add_0_r. }
  apply Forall_cons in Hrs as [[Hacc Hin] Hrs]. cbn [fst snd] in Hacc, Hin.
  destruct (handleVisionResult_accepted s msg now Hacc) as (Hc & _).
  unfold counted in Hc. cbn zeta in Hc. rewrite Hin in Hc.
  injection Hc as Hfc Hfps Hlast.
  change (handle_results s ((msg, now) :: rs))
    with (handle_results (exec (handleVisionResult msg now) s) rs).
  destruct (IH (exec (handleVisionResult msg now) s)) as (IHc & IHf & IHl).
  { by rewrite Hlast. }
  rewrite IHc, IHf, IHl, Hfc, Hfps, Hlast. cbn [length]. repeat split; lia.
Qed.

(** C7, amended.  Each accepted result increments [frameCount]; when it
    arrives at least 1000ms after the last reset, the incremented count
    becomes [currentFps], the counter restarts from 0 at that arrival time,
    and the page shows [currentFps].  The result that closes the window is
    counted in it: from a counter just reset, [n] results arriving less
    than 1000ms after the reset followed by one arriving 1000ms or more
    after it show [n + 1].  Ten results show 10 when the tenth is the first
    to arrive 1000ms or more after the reset. *)
Theorem fps_rolling_window (s : State) :
  (forall msg now, accepted msg ->
     let s' := exec (handleVisionResult msg now) s in
     (if Js.ge (now - lastFpsTime s) 1000
      then currentFps s' = S (frameCount s) /\ frameCount s' = 0 /\ lastFpsTime s' = now
      else frameCount s' = S (frameCount s) /\ currentFps s' = currentFps s /\
           lastFpsTime s' = lastFpsTime s) /\
     fpsEl s' = currentFps s') /\
  (forall within msg now,
     frameCount s = 0 ->
     Forall (fun r => accepted r.1 /\ Js.ge (r.2 - lastFpsTime s) 1000 = false) within ->
     accepted msg -> Js.ge (now - lastFpsTime s) 1000 = true ->
     let s' := handle_results s (within ++ [(msg, now)]) in
     fpsEl s' = S (length within) /\ frameCount s' = 0 /\ lastFpsTime s' = now /\
     (length within = 9 -> fpsEl s' = 10)).
Proof.
  split.
  - intros msg now Hacc. cbn zeta.
    destruct (handleVisionResult_accepted s msg now Hacc) as (Hc & Hfps & _).
    unfold counted in Hc. split; [|done].
    destruct (Js.ge (now - lastFpsTime s) 1000); by injection Hc as -> -> ->.
  - intros within msg now H0 Hin Hacc Hout. cbn zeta.
    unfold handle_results. rewrite foldl_app. cbn [foldl fst snd].
    fold (handle_results s within).
    destruct (results_within_window s within Hin) as (Hc & Hf & Hl).
    destruct (handleVisionResult_accepted (handle_results s within) msg now Hacc)
      as (Hcount & Hfps & _).
    unfold counted in Hcount. rewrite Hl, Hout, Hc, H0 in Hcount.
    injection Hcount as Hfc Hcur Hlast.
    rewrite Hfps, Hcur. repeat split; try done. by intros ->.
Qed.

(** A detect-mode result with one detection. *)
Definition one_person : ResultMsg :=
  {| msg_mode := Some "detect"; msg_inference_ms := Some 12%float;
     msg_detections := Some [Some person]; msg_classifications := None |}.

(** Nine results 100ms apart. *)
Definition nine_results : list (ResultMsg * float) :=
  (fun t => (one_person, t)) <$> [100; 200; 300; 400; 500; 600; 700; 800; 900]%float.

Lemma one_person_accepted : accepted one_person.
Proof. unfold accepted, entries. cbn. constructor; [by eexists|constructor]. Qed.

(** Nine results inside the window and a tenth at 1000ms: the page shows 10. *)
Lemma fps_ten_results :
  fpsEl (handle_results (init 0 blank_page) (nine_results ++ [(one_person, 1000%float)])) = 10.
Proof.
  destruct (fps_rolling_window (init 0 blank_page)) as [_ H].
  refine (proj2 (proj2 (proj2
            (H nine_results one_person 1000%float eq_refl _ one_person_accepted eq_refl)))
            eq_refl).
  unfold nine_results. cbn [fmap list_fmap].
  repeat (constructor; [split; [exact one_person_accepted | reflexivity]|]).
  constructor.
Defined.

(** C7, as the code falsifies it.  Ten results arrive within 1000ms of the
    reset at time 0: the counter holds 10 but nothing is snapshotted, the
    page still shows its old value.  The snapshot is taken by the next
    result to arrive, here at 1200ms, and counts it: the page shows 11. *)
Lemma fps_ten_inside_then_eleventh :
  let inside := nine_results ++ [(one_person, 950%float)] in
  let after_ten := handle_results (init 0 blank_page) inside in
  let after_next := handle_results (init 0 blank_page) (inside ++ [(one_person, 1200%float)]) in
  length inside = 10 /\
  forallb (fun r => negb (Js.ge (r.2 - 0) 1000)) inside = true /\
  (frameCount after_ten, currentFps after_ten, fpsEl after_ten) = (10, 0, 0) /\
  (frameCount after_next, currentFps after_next, fpsEl after_next) = (0, 11, 11).
Proof. vm_compute. done. Qed.

(** ** C8 and C9: mode changes and the HUD's choice of routine *)

Definition is_message (e : Event) : bool :=
  match e with
  | SocketMessage _ _ _ => true
  | _ => false
  end.

(** Events that hand a result to [handleVisionResult]. *)
Definition delivers_result (e : Event) : bool :=
  match e with
  | SocketMessage _ data _ =>
      match forwarded data with Some _ => true | None => false end
  | _ => false
  end.

Lemma step_message (s : State) i data now :
  step s (SocketMessage i data now)
  = if socket_is_open s i then exec (onmessage data now) s else s.
Proof.
  unfold step, exec at 1, handle, mbind, M_bind, read, when.
  by destruct (socket_is_open s i).
Qed.

(** Only [handleVisionResult] writes [currentMode]; every other handler
    leaves the stored detections alone or empties them. *)
Lemma quiet_step_keeps_result (s : State) e :
  is_message e = false ->
  currentMode (step s e) = currentMode s /\
  (currentDetections (step s e) = currentDetections s \/ currentDetections (step s e) = []).
Proof.
  intros He.
  apply (wp_exec (fun s' => currentMode s' = currentMode s /\
           (currentDetections s' = currentDetections s \/ currentDetections s' = []))).
  destruct s as [v d b]. destruct e; try discriminate; wp_run; auto.
Qed.

Lemma unanswered_step_keeps_result (s : State) e :
  delivers_result e = false ->
  currentMode (step s e) = currentMode s /\
  (currentDetections (step s e) = currentDetections s \/ currentDetections (step s e) = []).
Proof.
  intros He. destruct (is_message e) eqn:Hm; [|by apply quiet_step_keeps_result].
  destruct e; try discriminate. cbn in He.
  destruct (forwarded data) eqn:Hf; [done|].
  rewrite step_message. destruct (socket_is_open s i); [|auto].
  rewrite (onmessage_dropped _ _ _ Hf). auto.
Qed.

Lemma unanswered_run_keeps_result (s : State) es :
  Forall (fun e => delivers_result e = false) es ->
  currentMode (run s es) = currentMode s /\
  (currentDetections s = [] -> currentDetections (run s es) = []).
Proof.
  intros Hes. revert s. induction Hes as [|e es He _ IH]; intros s; [done|].
  change (run s (e :: es)) with (run (step s e) es).
  destruct (unanswered_step_keeps_result s e He) as [Hm Hd].
  destruct (IH (step s e)) as [IHm IHd]. split; [congruence|].
  intros Hs. apply IHd. destruct Hd; congruence.
Qed.

(** The routine [render] calls, lines 726-730. *)
Definition hud_routine (s : State) (cw ch : float) : Draw unit :=
  if is_classify (currentMode s) then drawClassifications (currentDetections s) cw ch
  else drawDetections (currentDetections s) cw ch.

(** What one frame of an active session leaves on the canvas: the calls of
    the routine chosen by [currentMode], then, unless that routine threw,
    the scanline and the frame border. *)
Lemma render_canvas (s : State) cw ch :
  active s = true ->
  canvas (exec (render cw ch) s) =
    (hud_routine s cw ch).1 ++
    match (hud_routine s cw ch).2 with
    | Normal _ => (drawScanline cw ch).1 ++ (drawFrameBorder cw ch).1
    | Throw _ => []
    end.
Proof.
  intros Ha.
  apply (wp_exec (fun s' => canvas s' = (hud_routine s cw ch).1 ++
    match (hud_routine s cw ch).2 with
    | Normal _ => (drawScanline cw ch).1 ++ (drawFrameBorder cw ch).1
    | Throw _ => []
    end)).
  destruct s as [v d b]. cbn in Ha. unfold hud_routine. cbn [currentMode currentDetections vars].
  unfold render. wp_step. wp_step. rewrite Ha. cbn [negb].
  wp_run.
  all: match goal with
       | H : context [match ?c with Normal _ => _ | Throw _ => _ end] |- _ => destruct c
       end; try discriminate; cbn; by rewrite <- ?app_assoc, ?app_nil_r.
Qed.

(** The frame callback of a pending request on an active session. *)
Lemma step_frame (s : State) h cw ch :
  h ∈ rafs s ->
  step s (AnimationFrame h cw ch)
  = exec (render cw ch)
      (Build_State s s (set_rafs s (filter (fun x => x ≠ h) (rafs s)))).
Proof.
  intros Hh.
  unfold step, exec at 1, handle, frame_fired, mbind, M_bind, read, when, assign_browser.
  rewrite (bool_decide_eq_true_2 _ Hh). by destruct s.
Qed.

(** What [handleVisionResult] stores for a result (lines 659-665): the
    copies of its classifications, unless making them throws, or its
    detections. *)
Definition stored (msg : ResultMsg) : Completion (list (option Detection)) :=
  if is_classify (msg_mode msg)
  then map_throwing copy_classification (default [] (msg_classifications msg))
  else Normal (default [] (msg_detections msg)).

(** The result an event hands to [handleVisionResult], if any. *)
Definition handled_by (s : State) (e : Event) : option ResultMsg :=
  match e with
  | SocketMessage i data _ => if socket_is_open s i then forwarded data else None
  | _ => None
  end.

(** The result most recently handed to [handleVisionResult] while the
    events [es] were handled from [s], if any. *)
Fixpoint last_handled (s : State) (es : list Event) : option ResultMsg :=
  match es with
  | [] => None
  | e :: es' =>
      match last_handled (step s e) es' with
      | Some msg => Some msg
      | None => handled_by s e
      end
  end.

(** Every result an event delivers has entries that are objects. *)
Definition delivers_accepted (e : Event) : Prop :=
  match e with
  | SocketMessage _ data _ =>
      match forwarded data with Some msg => accepted msg | None => True end
  | _ => True
  end.

Lemma accepted_stored (msg : ResultMsg) :
  accepted msg -> exists l, stored msg = Normal l.
Proof.
  unfold accepted, entries, stored. destruct (is_classify (msg_mode msg)); [|by eexists].
  intros Hacc. destruct (copy_classifications_total _ Hacc) as (cs & Hcs & _). by exists cs.
Qed.

(** A result whose list can be stored: the mode tag and the list are
    replaced together. *)
Lemma handleVisionResult_stored (s : State) msg now l :
  stored msg = Normal l ->
  currentMode (exec (handleVisionResult msg now) s) = msg_mode msg /\
  currentDetections (exec (handleVisionResult msg now) s) = l.
Proof.
  unfold stored. intros Hl. split; [apply handleVisionResult_mode|].
  destruct (is_classify (msg_mode msg)) eqn:Hm.
  - by apply handleVisionResult_classify.
  - injection Hl as <-. by apply handleVisionResult_detect.
Qed.

(** A result whose list cannot be stored, a classify result that holds a
    [null]: the mode tag is replaced, the list is not. *)
Lemma handleVisionResult_not_stored (s : State) msg now err :
  stored msg = Throw err ->
  is_classify (msg_mode msg) = true /\
  currentMode (exec (handleVisionResult msg now) s) = msg_mode msg /\
  currentDetections (exec (handleVisionResult msg now) s) = currentDetections s.
Proof.
  unfold stored. intros Hl. destruct (is_classify (msg_mode msg)) eqn:Hm; [|done].
  split; [done|]. split; [apply handleVisionResult_mode|].
  apply (wp_exec (fun s' => currentDetections s' = currentDetections s)).
  destruct s as [v d b]. unfold handleVisionResult. rewrite Hm, Hl. by wp_run.
Qed.

Lemma step_handled (s : State) e msg :
  handled_by s e = Some msg ->
  exists now, step s e =
    let s' := exec (handleVisionResult msg now) s in
    Build_State (set_awaitingResponse s' false) s' s'.
Proof.
  destruct e; try discriminate. cbn. destruct (socket_is_open s i) eqn:Hopen; [|done].
  intros Hf. exists now. by rewrite step_message, Hopen, (onmessage_forwarded _ _ _ _ Hf).
Qed.

Lemma step_not_handled (s : State) e :
  handled_by s e = None ->
  currentMode (step s e) = currentMode s /\
  (currentDetections (step s e) = currentDetections s \/ currentDetections (step s e) = []).
Proof.
  intros Hh. destruct (delivers_result e) eqn:Hd;
    [|by apply unanswered_step_keeps_result].
  destruct e; try discriminate. cbn in Hh, Hd. rewrite step_message.
  destruct (socket_is_open s i); [|auto]. by rewrite Hh in Hd.
Qed.

(** The stored mode tag is the one of the last result handled, and the
    stored list is empty or is the list stored for that result. *)
Lemma last_handled_run (s : State) es :
  Forall delivers_accepted es ->
  match last_handled s es with
  | Some msg =>
      currentMode (run s es) = msg_mode msg /\
      (currentDetections (run s es) = [] \/ stored msg = Normal (currentDetections (run s es)))
  | None =>
      currentMode (run s es) = currentMode s /\
      (currentDetections (run s es) = currentDetections s \/ currentDetections (run s es) = [])
  end.
Proof.
  intros Hes. revert s. induction Hes as [|e es He _ IH]; intros s.
  { cbn. auto. }
  change (run s (e :: es)) with (run (step s e) es). cbn [last_handled].
  specialize (IH (step s e)).
  destruct (last_handled (step s e) es) as [msg|]; [exact IH|].
  destruct IH as [IHm IHd]. destruct (handled_by s e) as [msg|] eqn:Hh.
  - destruct (step_handled _ _ _ Hh) as [now Hstep].
    assert (accepted msg) as Hacc.
    { destruct e; try discriminate. cbn in Hh, He.
      destruct (socket_is_open s i); [|done]. by rewrite Hh in He. }
    destruct (accepted_stored _ Hacc) as [l Hl].
    destruct (handleVisionResult_stored s msg now l Hl) as [Hm Hd].
    assert (currentMode (step s e) = msg_mode msg /\ currentDetections (step s e) = l)
      as [Hm' Hd'] by (rewrite Hstep; cbn; by rewrite Hm, Hd).
    split; [congruence|]. destruct IHd as [IHd|IHd]; [|by left].
    right. by rewrite IHd, Hd'.
  - destruct (step_not_handled _ _ Hh) as [Hm Hd]. split; [congruence|].
    destruct IHd as [E|E]; rewrite E; [exact Hd|by right].
Qed.

(** C8, amended.  A click on a mode button stores the new mode and empties
    the stored detections and the panel at once.  Until a result is handled
    the stored list stays empty, and a frame drawn by an active session
    paints the scanline and the frame border only: no box and no bar of the
    old mode.  A result handled after the click, the answer to a frame sent
    before it included, is stored and drawn like any other: when its list
    can be stored, the mode tag and the list are replaced together and the
    list is drawn by the routine of the result's own mode tag.  As long as
    the results handled have entries that are objects, the stored list is
    empty or is the list of the last result handled, and it is drawn by the
    routine of that result's mode tag.  A classify result that holds a
    [null] replaces the mode tag but not the list: the list stored before
    it is then drawn by [drawClassifications]. *)
Theorem mode_change_clears_detections (s : State) (m : string) :
  let s' := step s (ClickMode m) in
  mode s' = m /\ currentDetections s' = [] /\ detectionsEl s' = [] /\
  (forall es h cw ch,
     Forall (fun e => delivers_result e = false) es ->
     let s2 := run s' es in
     currentDetections s2 = [] /\
     (active s2 = true -> h ∈ rafs s2 ->
      canvas (step s2 (AnimationFrame h cw ch))
      = (drawScanline cw ch).1 ++ (drawFrameBorder cw ch).1)) /\
  (forall i data now msg l cw ch,
     socket_is_open s' i = true -> forwarded data = Some msg ->
     stored msg = Normal l ->
     let s2 := step s' (SocketMessage i data now) in
     currentMode s2 = msg_mode msg /\ currentDetections s2 = l /\
     hud_routine s2 cw ch =
       if is_classify (msg_mode msg) then drawClassifications l cw ch
       else drawDetections l cw ch) /\
  (forall es, Forall delivers_accepted es ->
     let s2 := run s' es in
     currentDetections s2 = [] \/
     exists msg,
       last_handled s' es = Some msg /\
       currentMode s2 = msg_mode msg /\
       stored msg = Normal (currentDetections s2) /\
       forall cw ch,
         hud_routine s2 cw ch =
           if is_classify (msg_mode msg) then drawClassifications (currentDetections s2) cw ch
           else drawDetections (currentDetections s2) cw ch) /\
  (forall (s0 : State) i data now msg err cw ch,
     socket_is_open s0 i = true -> forwarded data = Some msg ->
     stored msg = Throw err ->
     let s2 := step s0 (SocketMessage i data now) in
     is_classify (msg_mode msg) = true /\
     currentMode s2 = msg_mode msg /\ currentDetections s2 = currentDetections s0 /\
     hud_routine s2 cw ch = drawClassifications (currentDetections s0) cw ch).
Proof.
  cbn zeta. split; [done|]. split; [done|]. split; [done|].
  split; [|split; [|split]].
  - intros es h cw ch Hes.
    destruct (unanswered_run_keeps_result (step s (ClickMode m)) es Hes) as [_ Hd].
    specialize (Hd eq_refl). split; [done|]. intros Ha Hh.
    set (s2 := run (step s (ClickMode m)) es) in *.
    rewrite step_frame, render_canvas by done.
    unfold hud_routine. cbn [currentMode currentDetections vars].
    rewrite Hd. by destruct (is_classify (currentMode s2)).
  - intros i data now msg l cw ch Hopen Hf Hl.
    rewrite step_message, Hopen, (onmessage_forwarded _ _ _ _ Hf).
    destruct (handleVisionResult_stored (step s (ClickMode m)) msg now l Hl) as [Hm Hd].
    unfold hud_routine. cbn. by rewrite Hm, Hd.
  - intros es Hes.
    pose proof (last_handled_run (step s (ClickMode m)) es Hes) as Hlast.
    destruct (last_handled (step s (ClickMode m)) es) as [msg|].
    + destruct Hlast as [Hm [Hd|Hd]]; [by left|]. right. exists msg.
      repeat split; try done. intros cw ch. unfold hud_routine. by rewrite Hm.
    + destruct Hlast as [_ [Hd|Hd]]; left; [by rewrite Hd|done].
  - intros s0 i data now msg err cw ch Hopen Hf Hl.
    rewrite step_message, Hopen, (onmessage_forwarded _ _ _ _ Hf).
    destruct (handleVisionResult_not_stored s0 msg now err Hl) as (Hc & Hm & Hd).
    unfold hud_routine. cbn. by rewrite Hm, Hd, Hc.
Qed.

(** C9.  [render] chooses between [drawClassifications] and
    [drawDetections] by [currentMode], the mode tag of the last result
    handled, and never reads the user-selected [mode].  A click on a mode
    button changes [mode] but not [currentMode]: until a result is handled,
    every frame takes the branch of the previous result's mode, over the
    emptied list.  [currentMode] changes only when a result is handled, and
    then becomes that result's mode tag. *)
Theorem hud_follows_result_mode (s : State) :
  (forall cw ch, active s = true ->
     canvas (exec (render cw ch) s) =
       (hud_routine s cw ch).1 ++
       match (hud_routine s cw ch).2 with
       | Normal _ => (drawScanline cw ch).1 ++ (drawFrameBorder cw ch).1
       | Throw _ => []
       end) /\
  (forall m cw ch, active s = true ->
     canvas (exec (render cw ch) (Build_State (set_mode s m) s s))
     = canvas (exec (render cw ch) s)) /\
  (forall m es, Forall (fun e => delivers_result e = false) es ->
     let s2 := run (step s (ClickMode m)) es in
     mode (step s (ClickMode m)) = m /\
     currentMode s2 = currentMode s /\ currentDetections s2 = [] /\
     forall cw ch,
       hud_routine s2 cw ch =
         if is_classify (currentMode s) then drawClassifications [] cw ch
         else drawDetections [] cw ch) /\
  (forall e, delivers_result e = false -> currentMode (step s e) = currentMode s) /\
  (forall i data now msg,
     socket_is_open s i = true -> forwarded data = Some msg ->
     currentMode (step s (SocketMessage i data now)) = msg_mode msg).
Proof.
  split; [|split; [|split; [|split]]].
  - intros cw ch. apply render_canvas.
  - intros m cw ch Ha. by rewrite !render_canvas.
  - intros m es Hes. cbn zeta.
    destruct (unanswered_run_keeps_result (step s (ClickMode m)) es Hes) as [Hm Hd].
    specialize (Hd eq_refl). repeat split; try done.
    intros cw ch. unfold hud_routine. by rewrite Hm, Hd.
  - intros e He. by apply unanswered_step_keeps_result.
  - intros i data now msg Hopen Hf. rewrite step_message, Hopen.
    rewrite (onmessage_forwarded _ _ _ _ Hf). cbn. apply handleVisionResult_mode.
Qed.

(** ** C10: the detection panel *)

(** The class name of a detection as a property key, and its confidence as
    a number. *)
Definition key (d : Detection) : string := class_text (det_class d).
Definition confidence (d : Detection) : float := Js.num (det_confidence d).

(** Aggregation by class, stated on the list itself: the detections of
    class [k], and what the panel is to show for them, their number and
    the largest of their confidences ([Math.max], starting from 0 as
    line 927 does). *)
Definition occurrences (k : string) (dets : list Detection) : list Detection :=
  filter (fun d => key d = k) dets.

Definition aggregate (occ : list Detection) : Group :=
  {| count := length occ; maxConf := foldl Js.Math_max 0%float (confidence <$> occ) |}.

Definition group_of (k : string) (dets : list Detection) : option Group :=
  match occurrences k dets with
  | [] => None
  | occ => Some (aggregate occ)
  end.

Section Groups.
Implicit Types (k : string) (g : Group) (gs : Groups) (d : Detection)
  (dets seen : list Detection).

Lemma own_put_eq k g gs : own k (put k g gs) = Some g.
Proof.
  induction gs as [|[k' g'] gs IH]; cbn.
  - by rewrite String.eqb_refl.
  - destruct (String.eqb_spec k k') as [->|Hne]; cbn.
    + by rewrite String.eqb_refl.
    + by destruct (String.eqb_spec k k').
Qed.

Lemma own_put_ne k k' g gs : k ≠ k' -> own k' (put k g gs) = own k' gs.
Proof.
  intros Hne. induction gs as [|[k0 g0] gs IH]; cbn.
  - by destruct (String.eqb_spec k' k) as [->|].
  - destruct (String.eqb_spec k k0) as [->|Hne0]; cbn.
    + by destruct (String.eqb_spec k' k0) as [->|].
    + destruct (String.eqb_spec k' k0); [done|apply IH].
Qed.

Lemma own_None k gs : own k gs = None <-> k ∉ gs.*1.
Proof.
  induction gs as [|[k' g'] gs IH]; cbn.
  - split; [intros _; apply not_elem_of_nil|done].
  - rewrite not_elem_of_cons. destruct (String.eqb_spec k k') as [->|Hne].
    + split; [done|]. by intros [? _].
    + rewrite IH. tauto.
Qed.

Lemma own_elem_of k g gs : NoDup gs.*1 -> own k gs = Some g <-> (k, g) ∈ gs.
Proof.
  induction gs as [|[k' g'] gs IH]; cbn; intros Hnd.
  - split; [done|]. by intros ?%elem_of_nil.
  - apply NoDup_cons in Hnd as [Hk' Hnd]. rewrite elem_of_cons.
    destruct (String.eqb_spec k k') as [->|Hne].
    + split; [by intros [= ->]; left|].
      intros [[= ->]|Hin]; [done|].
      destruct Hk'. change k' with ((k', g).1). by apply list_elem_of_fmap_2.
    + rewrite (IH Hnd). split; [by right|]. by intros [[= ]|?].
Qed.

Lemma put_keys k g gs :
  (put k g gs).*1 = if own k gs is Some _ then gs.*1 else gs.*1 ++ [k].
Proof.
  induction gs as [|[k' g'] gs IH]; cbn; [done|].
  destruct (String.eqb_spec k k') as [->|Hne]; cbn; [done|].
  rewrite IH. by destruct (own k gs).
Qed.

Lemma put_NoDup k g gs : NoDup gs.*1 -> NoDup (put k g gs).*1.
Proof.
  intros Hnd. rewrite put_keys. destruct (own k gs) eqn:Hk; [done|].
  apply NoDup_app. split; [done|]. split; [|apply NoDup_singleton].
  intros x Hx ->%list_elem_of_singleton. by apply own_None in Hk.
Qed.

Lemma occurrences_snoc k seen d :
  occurrences k (seen ++ [d]) =
    occurrences k seen ++ (if decide (key d = k) then [d] else []).
Proof.
  unfold occurrences. by rewrite filter_app.
Qed.

Lemma aggregate_snoc occ d :
  aggregate (occ ++ [d]) =
    {| count := S (count (aggregate occ));
       maxConf := Js.Math_max (maxConf (aggregate occ)) (confidence d) |}.
Proof.
  unfold aggregate. cbn [count maxConf].
  rewrite length_app, fmap_app, foldl_app. cbn. f_equal. lia.
Qed.

(** The loop invariant of lines 926-930: after the detections [seen],
    [groups] holds exactly the aggregate of every class seen. *)
Lemma group_add_spec gs seen d :
  (forall k, own k gs = group_of k seen) ->
  inherited (key d) = false ->
  forall k, own k (group_add gs d) = group_of k (seen ++ [d]).
Proof.
  intros Hinv Hd k. unfold group_add. fold (key d). fold (confidence d).
  unfold group_of. rewrite occurrences_snoc.
  pose proof (Hinv (key d)) as Hkd. unfold group_of in Hkd.
  destruct (decide (key d = k)) as [<-|Hne].
  - destruct (occurrences (key d) seen) as [|d0 occ] eqn:Hocc; rewrite Hkd, ?Hd.
    + by rewrite own_put_eq.
    + rewrite own_put_eq, <- aggregate_snoc. done.
  - rewrite app_nil_r. rewrite <- (Hinv k) at 1. unfold group_of.
    destruct (own (key d) gs); [by apply own_put_ne|].
    rewrite Hd. by apply own_put_ne.
Qed.

Lemma group_add_NoDup gs d : NoDup gs.*1 -> NoDup (group_add gs d).*1.
Proof.
  intros Hnd. unfold group_add. destruct (own _ gs); [by apply put_NoDup|].
  destruct (inherited _); [done|by apply put_NoDup].
Qed.

Lemma group_all_spec dets seen gs :
  (forall k, own k gs = group_of k seen) -> NoDup gs.*1 ->
  Forall (fun d => inherited (key d) = false) dets ->
  exists gs', group_all gs (Some <$> dets) = Normal gs' /\
    (forall k, own k gs' = group_of k (seen ++ dets)) /\ NoDup gs'.*1.
Proof.
  intros Hinv Hnd Hdets. revert seen gs Hinv Hnd.
  induction Hdets as [|d dets Hd _ IH]; intros seen gs Hinv Hnd.
  - exists gs. by rewrite app_nil_r.
  - cbn [fmap list_fmap group_all].
    destruct (IH (seen ++ [d]) (group_add gs d)) as (gs' & Hrun & Hown & Hnd').
    + by apply group_add_spec.
    + by apply group_add_NoDup.
    + exists gs'. by rewrite <- app_assoc in Hown.
Qed.
End Groups.

Section Ordering.
Implicit Types (e : string * Group) (l gs : Groups).

Lemma insert_index_perm (x : N * (string * Group)) xs : insert_index x xs ≡ₚ x :: xs.
Proof.
  induction xs as [|y xs IH]; cbn; [done|].
  destruct (x.1 <=? y.1)%N; [done|]. rewrite IH. apply Permutation_swap.
Qed.

Lemma sort_index_perm (xs : list (N * (string * Group))) :
  foldr insert_index [] xs ≡ₚ xs.
Proof.
  induction xs as [|x xs IH]; cbn; [done|]. by rewrite insert_index_perm, IH.
Qed.

(** [Object.entries] lists every own property exactly once. *)
Lemma Object_entries_perm gs : Object_entries gs ≡ₚ gs.
Proof.
  unfold Object_entries. rewrite sort_index_perm.
  induction gs as [|e gs IH]; [done|].
  destruct (array_index e.1) as [n|] eqn:Hi.
  - rewrite filter_cons_False by (by rewrite Hi). cbn. rewrite Hi. cbn. by rewrite IH.
  - rewrite filter_cons_True by done. cbn. rewrite Hi. cbn.
    rewrite <- Permutation_middle. by rewrite IH.
Qed.

Definition by_falling_count e1 e2 : Prop := count e2.2 <= count e1.2.

Lemma insert_by_count_perm e l : insert_by_count e l ≡ₚ e :: l.
Proof.
  induction l as [|e' l IH]; cbn; [done|].
  destruct (count e'.2 <=? count e.2); [done|]. rewrite IH. apply Permutation_swap.
Qed.

Lemma sort_by_count_perm l : sort_by_count l ≡ₚ l.
Proof.
  unfold sort_by_count.
  induction l as [|e l IH]; cbn; [done|]. by rewrite insert_by_count_perm, IH.
Qed.

Lemma insert_by_count_HdRel e0 e l :
  by_falling_count e0 e -> HdRel by_falling_count e0 l ->
  HdRel by_falling_count e0 (insert_by_count e l).
Proof.
  intros He Hl. destruct l as [|e' l]; cbn; [by constructor|].
  destruct (count e'.2 <=? count e.2); constructor; [done|].
  by inversion Hl.
Qed.

Lemma insert_by_count_sorted e l :
  Sorted by_falling_count l -> Sorted by_falling_count (insert_by_count e l).
Proof.
  induction 1 as [|e' l Hs IH Hhd]; cbn; [by repeat constructor|].
  destruct (Nat.leb_spec (count e'.2) (count e.2)) as [Hle|Hlt].
  - constructor; [by constructor|]. by constructor.
  - constructor; [done|]. apply insert_by_count_HdRel; [|done].
    unfold by_falling_count. lia.
Qed.

Lemma sort_by_count_sorted l : StronglySorted by_falling_count (sort_by_count l).
Proof.
  apply Sorted_StronglySorted.
  - intros e1 e2 e3. unfold by_falling_count. lia.
  - unfold sort_by_count. induction l as [|e l IH]; cbn; [constructor|].
    by apply insert_by_count_sorted.
Qed.
End Ordering.

(** The markup of the row of a classification, lines 915-919. *)
Definition classification_row (c : Detection) : Html :=
  det_item 16 (key c) (Js.Math_round (confidence c * 100)).

Lemma classification_rows dets :
  map_throwing classification_item (Some <$> dets) = Normal (classification_row <$> dets).
Proof. induction dets as [|d dets IH]; cbn; [done|]. by rewrite IH. Qed.

(** What [updateDetectionsList] assigns to the panel's [innerHTML]. *)
Lemma updateDetectionsList_markup (s : State) rows :
  detection_rows (currentMode s) (currentDetections s) = Normal rows ->
  detectionsEl (exec updateDetectionsList s) = concat rows.
Proof.
  intros Hrows. destruct s as [v d b]. cbn in Hrows.
  unfold exec, updateDetectionsList, mbind, M_bind, read. cbn. by rewrite Hrows.
Qed.

(** The markup written to the panel for a result whose class names are
    ordinary property names (none of them is inherited from
    [Object.prototype]): in detect mode the row template once per class
    present, filled by [group_item] with the class name, the number of its
    detections and the [Math.max] of their confidences, the rows in order of
    falling count; in classify mode the template once per classification,
    in the order received.  The panel's [innerHTML] is the concatenation of
    these rows.  The class name is inserted as received: the rows are
    markup, and they are the rows the page shows only as far as the names
    hold no markup of their own. *)
Theorem panel_aggregates_by_class (cm : option string) (dets : list Detection) :
  Forall (fun d => inherited (key d) = false) dets ->
  (is_classify cm = false ->
   exists sorted,
     detection_rows cm (Some <$> dets) = Normal (group_item <$> sorted) /\
     NoDup sorted.*1 /\
     (forall k, k ∈ sorted.*1 <-> exists d, d ∈ dets /\ key d = k) /\
     (forall k g, (k, g) ∈ sorted -> g = aggregate (occurrences k dets)) /\
     StronglySorted by_falling_count sorted) /\
  (is_classify cm = true ->
   detection_rows cm (Some <$> dets) = Normal (classification_row <$> dets)) /\
  (forall (s : State) rows,
     currentMode s = cm -> currentDetections s = Some <$> dets ->
     detection_rows cm (Some <$> dets) = Normal rows ->
     detectionsEl (exec updateDetectionsList s) = concat rows).
Proof.
  intros Hkeys. split; [|split].
  3: { intros s rows <- Hd Hrows. apply updateDetectionsList_markup. by rewrite Hd. }
  2: { intros Hcm. unfold detection_rows. rewrite Hcm. apply classification_rows. }
  intros Hcm. unfold detection_rows. rewrite Hcm.
  destruct (group_all_spec dets [] [] (fun _ => eq_refl) (NoDup_nil_2) Hkeys)
    as (gs & -> & Hown & Hnd).
  cbn [app] in Hown.
  assert (sort_by_count (Object_entries gs) ≡ₚ gs) as Hperm.
  { by rewrite sort_by_count_perm, Object_entries_perm. }
  exists (sort_by_count (Object_entries gs)). repeat split.
  - by rewrite Hperm.
  - rewrite Hperm. intros Hk.
    destruct (own k gs) as [g|] eqn:Hg; [|by apply own_None in Hg].
    rewrite Hown in Hg. unfold group_of in Hg.
    destruct (occurrences k dets) as [|d occ] eqn:Hocc; [done|].
    exists d. assert (d ∈ occurrences k dets) as Hin by (rewrite Hocc; left).
    by apply list_elem_of_filter in Hin as [? ?].
  - rewrite Hperm. intros (d & Hd & Hk).
    destruct (own k gs) as [g|] eqn:Hg.
    + apply own_elem_of in Hg; [|done]. change k with ((k, g).1).
      by apply list_elem_of_fmap_2.
    + rewrite Hown in Hg. unfold group_of in Hg.
      assert (d ∈ occurrences k dets) as Hin by by apply list_elem_of_filter.
      destruct (occurrences k dets); [by apply elem_of_nil in Hin|done].
  - intros k g Hin. rewrite Hperm in Hin. apply own_elem_of in Hin; [|done].
    rewrite Hown in Hin. unfold group_of in Hin.
    destruct (occurrences k dets); congruence.
  - apply sort_by_count_sorted.
Qed.

Definition dog : Detection :=
  {| det_class := Some "dog"; det_confidence := Some 0.5%float;
     det_bbox := Some [0.2; 0.2; 0.4; 0.4]%float; det_polygon := None |}.

(** Three persons and a dog: two rows, the persons first. *)
Example panel_rows_example :
  detection_rows (Some "detect") (Some <$> [person; dog; person; person])
  = Normal [det_item 12 "person x3" 92; det_item 12 "dog" 50].
Proof. reflexivity. Qed.

Lemma panel_three_persons_and_a_dog :
  let dets := [person; dog; person; person] in
  (is_classify (Some "detect") = false ->
   exists sorted,
     detection_rows (Some "detect") (Some <$> dets) = Normal (group_item <$> sorted) /\
     NoDup sorted.*1 /\
     (forall k, k ∈ sorted.*1 <-> exists d, d ∈ dets /\ key d = k) /\
     (forall k g, (k, g) ∈ sorted -> g = aggregate (occurrences k dets)) /\
     StronglySorted by_falling_count sorted) /\
  (is_classify (Some "detect") = true ->
   detection_rows (Some "detect") (Some <$> dets) = Normal (classification_row <$> dets)) /\
  (forall (s : State) rows,
     currentMode s = Some "detect" -> currentDetections s = Some <$> dets ->
     detection_rows (Some "detect") (Some <$> dets) = Normal rows ->
     detectionsEl (exec updateDetectionsList s) = concat rows).
Proof.
  apply (panel_aggregates_by_class (Some "detect") [person; dog; person; person]).
  by repeat constructor.
Defined.

(** A class named like a property of [Object.prototype]. *)
Definition constructor_detection : Detection :=
  {| det_class := Some "constructor"; det_confidence := Some 0.9%float;
     det_bbox := Some [0.2; 0.2; 0.4; 0.4]%float; det_polygon := None |}.

(** C10, at the failing input.  A detect-mode result with two detections of
    class "constructor" and one person: [groups["constructor"]] finds the
    inherited [Object] function, so no group is created for that class.
    The statistics count three objects, the panel holds the row of the
    person only. *)
Theorem panel_drops_inherited_class_name :
  let msg := {| msg_mode := Some "detect"; msg_inference_ms := Some 12%float;
                msg_detections := Some [Some constructor_detection; Some person;
                                        Some constructor_detection];
                msg_classifications := None |} in
  let s := exec (handleVisionResult msg 1500) mid_flight in
  objectsEl s = 3 /\
  detectionsEl s = det_item 12 "person" 92 /\
  detection_rows (Some "detect") [Some constructor_detection]
    = Normal [].
Proof. vm_compute. done. Qed.

(** ** Further checks on concrete sessions *)

(** A session ready to send: started, socket open, nothing in flight. *)
Definition ready : State := run (init 0 blank_page) (start granted ++ [SocketOpen 0]).

(** [capture_tick_single_slot] on [ready]: the tick sends one frame and
    raises the flag; a second tick, and any other event short of a message
    or a close, sends nothing more. *)
Lemma capture_tick_on_ready_session :
  let s' := exec (sendFrame "frame-1") ready in
  length (frames_sent s') = 1 /\ awaitingResponse s' = true /\
  frames_sent (run s' [Tick 1 "frame-2"; AnimationFrame 2 640 480; Tick 1 "frame-3"])
  = frames_sent s'.
Proof.
  destruct (capture_tick_single_slot ready "frame-1") as [_ H].
  destruct (H (conj eq_refl (conj eq_refl eq_refl))) as (_ & Hlen & Haw & Hquiet).
  split; [exact Hlen|]. split; [exact Haw|].
  apply (Hquiet [Tick 1 "frame-2"; AnimationFrame 2 640 480; Tick 1 "frame-3"]).
  by repeat constructor.
Defined.

(** Spec section 8: the average confidence of an empty list is 0. *)
Theorem empty_result_shows_zero (s : State) (msg : ResultMsg) (now : float) :
  entries msg = [] ->
  let s' := exec (handleVisionResult msg now) s in
  average_confidence (currentDetections s') = Normal 0%float /\
  confidenceEl s' = 0%float /\ objectsEl s' = 0 /\ detectionsEl s' = [].
Proof.
  unfold entries. intros Hempty. cbn zeta.
  apply (wp_exec (fun s' =>
    average_confidence (currentDetections s') = Normal 0%float /\
    confidenceEl s' = 0%float /\ objectsEl s' = 0 /\ detectionsEl s' = [])).
  destruct s as [v d b]. unfold handleVisionResult.
  destruct (is_classify (msg_mode msg)) eqn:Hmode; rewrite Hempty; cbn [map_throwing].
  all: wp_run.
  all: match goal with H : detection_rows _ [] = _ |- _ =>
         unfold detection_rows in H; rewrite Hmode in H; cbn in H
       end; by simplify_eq.
Qed.

Definition empty_detect_result : ResultMsg :=
  {| msg_mode := Some "detect"; msg_inference_ms := Some 7%float;
     msg_detections := Some []; msg_classifications := None |}.

Lemma empty_detect_result_shows_zero :
  let s' := exec (handleVisionResult empty_detect_result 1500) mid_flight in
  average_confidence (currentDetections s') = Normal 0%float /\
  confidenceEl s' = 0%float /\ objectsEl s' = 0 /\ detectionsEl s' = [].
Proof.
  exact (empty_result_shows_zero mid_flight empty_detect_result 1500 eq_refl).
Defined.

(** An unparsable message while a frame is in flight: the slot is released
    and nothing else changes. *)
Lemma unparsable_message_releases_slot :
  awaitingResponse mid_flight = true /\
  awaitingResponse (step mid_flight (SocketMessage 0 Unparsable 1500)) = false /\
  exec (onmessage Unparsable 1500) mid_flight
  = Build_State (set_awaitingResponse mid_flight false) mid_flight mid_flight.
Proof.
  destruct (onmessage_clears_awaiting mid_flight Unparsable 1500) as (_ & _ & Hdrop & Hstep).
  split; [by vm_compute|].
  split; [apply Hstep; by vm_compute | by apply Hdrop].
Defined.

(** The fills of line 819 among the calls on the canvas: one per box. *)
Definition is_box (c : Cmd) : bool :=
  match c with
  | FillRect CYAN_FILL _ _ _ _ => true
  | _ => false
  end.

Definition three_persons : ResultMsg :=
  {| msg_mode := Some "detect"; msg_inference_ms := Some 12%float;
     msg_detections := Some [Some person; Some person; Some person];
     msg_classifications := None |}.

(** A detect-mode session showing three boxes. *)
Definition showing_three : State :=
  run mid_flight [SocketMessage 0 (Parsed (Some "vision.result") three_persons) 1500;
                  AnimationFrame 2 640 480].

(** The check of spec section 8: three detections are on screen, the user
    switches to classify, the next frame paints no box. *)
Lemma switch_to_classify_clears_boxes :
  let switched := step showing_three (ClickMode "classify") in
  length (filter is_box (canvas showing_three)) = 3 /\
  currentDetections switched = [] /\
  canvas (step switched (AnimationFrame 3 640 480))
  = (drawScanline 640 480).1 ++ (drawFrameBorder 640 480).1.
Proof.
  destruct (mode_change_clears_detections showing_three "classify")
    as (_ & Hempty & _ & Hnext & _).
  destruct (Hnext [] 3 640%float 480%float (Forall_nil_2 _)) as [_ Hcanvas].
  unfold run in Hcanvas. cbn [foldl] in Hcanvas.
  split; [vm_compute; reflexivity|]. split; [exact Hempty|].
  apply Hcanvas; [vm_compute; reflexivity | vm_compute; apply list_elem_of_here].
Defined.

(** C8, as the code falsifies it.  Three detections are on screen and a
    second frame, sent in detect mode, is in flight when the user switches
    to classify.  The click empties the stored list; the answer to the
    frame in flight then arrives and is stored, and the next draw after the
    change paints its three boxes, while the selected mode is classify. *)
Lemma late_result_draws_old_mode_boxes :
  let in_flight := step showing_three (Tick 1 "frame-2") in
  let switched := step in_flight (ClickMode "classify") in
  let answered :=
    step switched (SocketMessage 0 (Parsed (Some "vision.result") three_persons) 1700) in
  let drawn := step answered (AnimationFrame 3 640 480) in
  awaitingResponse in_flight = true /\
  (mode switched, currentDetections switched) = ("classify", []) /\
  (mode answered, currentMode answered) = ("classify", Some "detect") /\
  length (filter is_box (canvas drawn)) = 3.
Proof. vm_compute. repeat split. Qed.

(** The same session one step further: the first classify result holds a
    [null] classification.  Its mode tag is stored, the copying throws, and
    the three detections of the late detect result stay stored: the next
    frame paints them as three classification bars. *)
Example null_classification_draws_old_list :
  let switched := step (step showing_three (Tick 1 "frame-2")) (ClickMode "classify") in
  let answered :=
    step switched (SocketMessage 0 (Parsed (Some "vision.result") three_persons) 1700) in
  let bad := {| msg_mode := Some "classify"; msg_inference_ms := Some 9%float;
                msg_detections := None; msg_classifications := Some [None] |} in
  let s := run answered [Tick 1 "frame-3";
                         SocketMessage 0 (Parsed (Some "vision.result") bad) 1900] in
  let drawn := step s (AnimationFrame 3 640 480) in
  stored bad = Throw TypeError /\
  (mode s, currentMode s) = ("classify", Some "classify") /\
  currentDetections s = [Some person; Some person; Some person] /\
  canvas drawn
  = (drawClassifications [Some person; Some person; Some person] 640 480).1
    ++ (drawScanline 640 480).1 ++ (drawFrameBorder 640 480).1 /\
  length (filter is_box (canvas drawn)) = 0.
Proof. vm_compute. repeat split. Qed.

(** A frame whose stored list has an entry without a [bbox]: the throw of
    [drawDetections] leaves [render] before the scanline, the border and
    the next frame request, so the HUD loop is not rescheduled. *)
Example missing_bbox_ends_hud_loop :
  let bad := {| msg_mode := Some "detect"; msg_inference_ms := Some 12%float;
                msg_detections := Some [Some person; Some person_without_bbox; Some person];
                msg_classifications := None |} in
  let s := step mid_flight (SocketMessage 0 (Parsed (Some "vision.result") bad) 1500) in
  let drawn := step s (AnimationFrame 2 640 480) in
  rafs s = [2] /\ length (filter is_box (canvas drawn)) = 1 /\
  (ScanlineBand 640 ∉ canvas drawn) /\ rafs drawn = [].
Proof.
  vm_compute. repeat split. intros H.
  repeat (apply elem_of_cons in H as [H|H]; [discriminate|]).
  by apply elem_of_nil in H.
Qed.

Definition two_labels : ResultMsg :=
  {| msg_mode := Some "classify"; msg_inference_ms := Some 9%float;
     msg_detections := None;
     msg_classifications :=
       Some [Some {| det_class := Some "cat"; det_confidence := Some 0.8%float;
                     det_bbox := None; det_polygon := None |};
             Some {| det_class := Some "dog"; det_confidence := Some 0.1%float;
                     det_bbox := None; det_polygon := None |}] |}.

(** After the switch the outgoing mode is classify while the HUD keeps the
    detect branch, until the first classify result is handled. *)
Lemma switch_to_classify_keeps_detect_branch :
  let switched := step showing_three (ClickMode "classify") in
  let later := run switched [Tick 1 "frame-2"; AnimationFrame 3 640 480] in
  (mode switched, currentMode later, currentDetections later)
  = ("classify", Some "detect", []) /\
  (forall cw ch, hud_routine later cw ch = drawDetections [] cw ch) /\
  currentMode
    (step later (SocketMessage 0 (Parsed (Some "vision.result") two_labels) 1700))
  = Some "classify".
Proof.
  destruct (hud_follows_result_mode showing_three) as (_ & _ & Hswitch & _).
  destruct (Hswitch "classify" [Tick 1 "frame-2"; AnimationFrame 3 640 480])
    as (Hmode & Hcur & Hdets & Hroutine); [by repeat constructor|].
  split; [rewrite Hmode, Hcur, Hdets; by vm_compute|].
  split; [intros cw ch; rewrite Hroutine; by vm_compute|].
  destruct (hud_follows_result_mode
              (run (step showing_three (ClickMode "classify"))
                   [Tick 1 "frame-2"; AnimationFrame 3 640 480]))
    as (_ & _ & _ & _ & Hresult).
  apply (Hresult 0 (Parsed (Some "vision.result") two_labels) 1700%float two_labels);
    by vm_compute.
Defined.

(** * Further properties of the vision module *)

(** ** Stopping, from the button and from a view change *)

(** The start button on an active session and a [nex:viewchange] to any
    view but the vision one both run [stopCamera]; a view change does
    nothing on an inactive session or towards the vision view.  Whatever
    the state it is run from, [stopCamera] marks the session inactive,
    cancels the capture timer and the pending frame request, ends every
    track of the held stream, asks the held socket to close without sending
    on it, and blanks the canvas, the stored detections, the panel and the
    displayed statistics. *)
Theorem stop_releases_camera_and_socket (s : State) :
  (active s = true -> step s ClickStart = exec stopCamera s) /\
  (forall view, active s = true -> view <> "vision" ->
     step s (ViewChange view) = exec stopCamera s) /\
  (forall view, active s = false \/ view = "vision" -> step s (ViewChange view) = s) /\
  let s' := exec stopCamera s in
  active s' = false /\
  (sendTimer s' = None /\ forall h, sendTimer s = Some h -> h ∉ intervals s') /\
  (rafId s' = None /\ forall h, rafId s = Some h -> h ∉ rafs s') /\
  (stream s' = None /\
   forall i ts, stream s = Some i -> streams s !! i = Some ts ->
     streams s' !! i = Some ((fun _ => Ended) <$> ts)) /\
  (ws s' = None /\
   forall i sock, ws s = Some i -> sockets s !! i = Some sock ->
     exists sock', sockets s' !! i = Some sock' /\ sent sock' = sent sock /\
       (readyState sock' = CLOSING \/ readyState sock' = CLOSED)) /\
  currentDetections s' = [] /\ detectionsEl s' = [] /\ canvas s' = [] /\
  (fpsEl s', inferenceEl s', objectsEl s', confidenceEl s') = (0, 0%float, 0, 0%float) /\
  (video_src (chrome s'), video_shown (chrome s'), scanline_shown (chrome s'),
   startBtn_text (chrome s')) = (None, false, false, "Start Camera").
Proof.
  split; [|split; [|split]].
  - intros Ha. unfold step, handle, click_start, exec, mbind, M_bind, read.
    by rewrite Ha.
  - intros view Ha Hv. unfold step, handle, view_change, exec, mbind, M_bind, read, when.
    rewrite Ha. destruct (String.eqb_spec view "vision") as [->|_]; [done|].
    reflexivity.
  - intros view Hv. unfold step, handle, view_change, exec, mbind, M_bind, read, when.
    destruct Hv as [->| ->]; [by rewrite andb_false_r; destruct s|].
    by destruct s.
  - cbn zeta. destruct (stopCamera_teardown s) as (H1 & H2 & H3 & H4 & H5 & H6 & H7 & H8 & H9 & _).
    repeat (split; [assumption|]).
    apply (wp_exec (fun s' =>
      (video_src (chrome s'), video_shown (chrome s'), scanline_shown (chrome s'),
       startBtn_text (chrome s')) = (None, false, false, "Start Camera"))).
    destruct s as [v d b]. wp_run; done.
Qed.

(** ** A start that cannot get the camera or the socket *)

(** What the rejection of [getUserMedia] does, on any page. *)
Lemma camera_denied_step (s : State) :
  0 < media_requests s ->
  let s' := step s (UserMedia false) in
  vars s' = vars s /\
  (sockets s', streams s', intervals s', rafs s') =
    (sockets s, streams s, intervals s, rafs s) /\
  console s' = console s ++ ["Camera access denied:"] /\
  noCamera_text (chrome s') = "Camera access denied" /\
  (video_src (chrome s'), video_shown (chrome s'), noCamera_shown (chrome s'),
   scanline_shown (chrome s'), startBtn_text (chrome s'), startBtn_active (chrome s'))
  = (video_src (chrome s), video_shown (chrome s), noCamera_shown (chrome s),
     scanline_shown (chrome s), startBtn_text (chrome s), startBtn_active (chrome s)) /\
  (canvas s', detectionsEl s') = (canvas s, detectionsEl s) /\
  (media_requests s', token_requests s') = (pred (media_requests s), token_requests s).
Proof.
  intros Hp. cbn zeta.
  destruct s as [v d [so st iv rf nh co [|mr] tr]]; cbn in Hp; [lia|].
  by destruct d as [? ? ? ? ? ? ? ? []].
Qed.

(** When [getUserMedia] rejects, the start is abandoned in its [catch]:
    the error is logged, the fallback text reads "Camera access denied",
    and nothing else has happened: no closure variable is written, no
    stream, socket, timer or frame request exists that did not before, no
    request is left pending.  The session stays inactive, so the next click
    on the button starts again.  The same holds of a rejection that other
    events have separated from its click. *)
Theorem camera_denied_starts_nothing (s : State) :
  active s = false ->
  let s' := run s (start CameraDenied) in
  vars s' = vars s /\
  (sockets s', streams s', intervals s', rafs s') =
    (sockets s, streams s, intervals s, rafs s) /\
  console s' = console s ++ ["Camera access denied:"] /\
  noCamera_text (chrome s') = "Camera access denied" /\
  (video_src (chrome s'), video_shown (chrome s'), noCamera_shown (chrome s'),
   scanline_shown (chrome s'), startBtn_text (chrome s'), startBtn_active (chrome s'))
  = (video_src (chrome s), video_shown (chrome s), noCamera_shown (chrome s),
     scanline_shown (chrome s), startBtn_text (chrome s), startBtn_active (chrome s)) /\
  (canvas s', detectionsEl s') = (canvas s, detectionsEl s) /\
  (media_requests s', token_requests s') = (media_requests s, token_requests s) /\
  step s' ClickStart = exec startCamera s' /\
  (forall s0 : State, 0 < media_requests s0 ->
     let s1 := step s0 (UserMedia false) in
     vars s1 = vars s0 /\
     (sockets s1, streams s1, intervals s1, rafs s1) =
       (sockets s0, streams s0, intervals s0, rafs s0) /\
     console s1 = console s0 ++ ["Camera access denied:"] /\
     noCamera_text (chrome s1) = "Camera access denied").
Proof.
  intros Ha. cbn zeta. unfold start, run. cbn [foldl].
  assert (step s ClickStart
          = Build_State s s (set_media_requests s (S (media_requests s)))) as ->.
  { unfold step, handle, click_start, exec, mbind, M_bind, read. rewrite Ha.
    by destruct s. }
  match goal with |- context [step ?s0 (UserMedia false)] => set (s1 := s0) end.
  assert (0 < media_requests s1) as Hp by (cbn; lia).
  destruct (camera_denied_step s1 Hp) as (Hv & Hb & Hc & Ht & Hui & Hcv & Hreq).
  split; [exact Hv|]. split; [exact Hb|]. split; [exact Hc|]. split; [exact Ht|].
  split; [exact Hui|]. split; [exact Hcv|]. split; [exact Hreq|]. split.
  - unfold step at 1, handle, click_start, exec at 1, mbind, M_bind, read.
    assert (active (step s1 (UserMedia false)) = false) as Hact.
    { change (active (vars (step s1 (UserMedia false))) = false). by rewrite Hv. }
    by rewrite Hact.
  - intros s0 Hp0. destruct (camera_denied_step s0 Hp0) as (? & ? & ? & ? & _). done.
Qed.

Lemma camera_denied_on_fresh_page :
  let s' := run (init 0 blank_page) (start CameraDenied) in
  vars s' = vars (init 0 blank_page) /\
  (sockets s', streams s', intervals s', rafs s') = ([], [], [], []) /\
  console s' = ["Camera access denied:"] /\
  noCamera_text (chrome s') = "Camera access denied" /\
  (media_requests s', token_requests s') = (0, 0) /\
  active (run s' (start granted)) = true.
Proof.
  destruct (camera_denied_starts_nothing (init 0 blank_page) eq_refl)
    as (Hv & Hb & Hc & Ht & _ & _ & Hreq & _).
  split; [exact Hv|]. split; [exact Hb|]. split; [exact Hc|]. split; [exact Ht|].
  split; [exact Hreq|]. vm_compute. reflexivity.
Defined.

(** When the token arrives but [new WebSocket] throws (line 631),
    [connectVisionWS] returns without assigning [ws]: the sockets, [ws],
    the console and the page are as before, [active] and the stream are
    untouched, and the capture timer and the HUD loop are started.  If [ws]
    is [null] at that point, no event constructs a socket or sends a frame
    until a later token request ends with a socket.  A session started from
    an inactive page is then active, with the preview shown and both loops
    running, and nothing has been logged or shown. *)
Theorem socket_constructor_failure_is_silent (s : State) (tok : option string) :
  0 < token_requests s ->
  let s' := step s (TokenFetched (FetchOk tok) true) in
  (ws s', sockets s', console s', chrome s') = (ws s, sockets s, console s, chrome s) /\
  (active s', stream s') = (active s, stream s) /\
  (exists h, sendTimer s' = Some h /\ h ∈ intervals s') /\
  (exists h, rafId s' = Some h /\ h ∈ rafs s') /\
  (ws s = None ->
   forall es, Forall (fun e => connects e = false) es ->
     ws (run s' es) = None /\
     frames_sent (run s' es) = frames_sent s /\
     length (sockets (run s' es)) = length (sockets s)) /\
  (forall s0 : State, active s0 = false ->
     let s1 := run s0 (start (CameraGranted (FetchOk tok) true)) in
     ws s1 = ws s0 /\ sockets s1 = sockets s0 /\ console s1 = console s0 /\
     noCamera_text (chrome s1) = noCamera_text (chrome s0) /\
     active s1 = true /\ is_Some (stream s1) /\ is_Some (sendTimer s1) /\
     is_Some (rafId s1) /\
     (video_shown (chrome s1), startBtn_text (chrome s1)) = (true, "Stop Camera")).
Proof.
  intros Hp. cbn zeta.
  destruct (settled_without_socket s (FetchOk tok) true eq_refl Hp)
    as (Hsame & Hsame' & Htimer & Hraf).
  split; [exact Hsame|]. split; [exact Hsame'|]. split; [exact Htimer|].
  split; [exact Hraf|]. injection Hsame as Hw Hs _ _. split.
  - intros Hnone es Hes.
    destruct (disconnected_run (step s (TokenFetched (FetchOk tok) true)) es Hes)
      as (? & Hf & Hl); [congruence|].
    unfold frames_sent in *. rewrite Hs in Hf, Hl. done.
  - intros s0 Ha. by apply start_without_socket.
Qed.

Lemma socket_constructor_failure_on_fresh_page :
  let s' := run (init 0 blank_page) (start (CameraGranted (FetchOk (Some "tok")) true)) in
  (active s', ws s', sockets s', console s') = (true, None, [], []) /\
  (exists h, sendTimer s' = Some h /\ h ∈ intervals s') /\
  frames_sent (run s' [Tick 1 "frame-1"; AnimationFrame 2 640 480; Tick 1 "frame-2"]) = [].
Proof.
  destruct (socket_constructor_failure_is_silent
              (run (init 0 blank_page) [ClickStart; UserMedia true]) (Some "tok"))
    as (_ & _ & Htimer & _ & Hquiet & _); [vm_compute; lia|].
  split; [vm_compute; reflexivity|]. split; [exact Htimer|].
  apply (Hquiet eq_refl [Tick 1 "frame-1"; AnimationFrame 2 640 480; Tick 1 "frame-2"]).
  by repeat constructor.
Defined.

(** ** Authentication comes first on every socket *)

(** What has been sent on a socket starts with the auth message that carries
    the token its handlers captured. *)
Definition auth_first (sock : Socket) : Prop :=
  sent sock = [] \/ exists rest, sent sock = AuthMsg (token sock) :: rest.

(** A connecting socket has sent nothing; the socket held in [ws], once
    open, has sent its auth message. *)
Definition sockets_ok (s : State) : Prop :=
  (forall i, ws s = Some i -> i < length (sockets s)) /\
  forall i sock, sockets s !! i = Some sock ->
    (readyState sock = CONNECTING -> sent sock = []) /\
    auth_first sock /\
    (ws s = Some i -> readyState sock = OPEN -> sent sock <> []).

Ltac split_lookup H :=
  repeat match type of H with
  | <[_ := _]> _ !! _ = Some _ =>
      apply list_lookup_insert_Some in H as [(? & ? & ?) | (? & H)]
  | (_ ++ [_]) !! _ = Some _ =>
      apply lookup_snoc_Some in H as [(? & H) | (? & ?)]
  end.

Ltac split_lookups :=
  repeat match goal with
  | H : <[_ := _]> _ !! _ = Some _ |- _ => progress split_lookup H
  | H : (_ ++ [_]) !! _ = Some _ |- _ => progress split_lookup H
  end.

Ltac use_inv Hinv :=
  repeat match goal with
  | H : sockets _ !! ?k = Some ?s |- _ =>
      lazymatch goal with
      | _ : auth_first s |- _ => fail
      | _ => destruct (Hinv k s H) as (? & ? & ?)
      end
  end.

Ltac solve_auth :=
  unfold auth_first in *; cbn in *;
  repeat match goal with
  | H : ?P -> _, H' : ?P |- _ => specialize (H H')
  | H : ?x = ?x -> _ |- _ => specialize (H eq_refl)
  end;
  repeat match goal with
  | H : sent ?s = [] |- _ => rewrite H in *
  | H : sent ?s = _ :: _ |- _ => rewrite H in *
  end;
  cbn in *;
  first
  [ done
  | congruence
  | by left
  | by right; eexists
  | match goal with
    | H : _ \/ _ |- _ => destruct H as [H|[? H]]; solve_auth
    end ].

Lemma sockets_ok_step (s : State) e : sockets_ok s -> sockets_ok (step s e).
Proof.
  intros Hinv. apply (wp_exec sockets_ok).
  destruct s as [v d b]. unfold sockets_ok in *. cbn in Hinv.
  destruct Hinv as [Hws Hinv].
  destruct e; wp_run; cbn.
  all: try (split; [exact Hws | exact Hinv]).
  all: split;
    [ intros j Hj; rewrite ?length_app, ?length_insert; cbn;
      first [ done | simplify_eq; lia | apply Hws; congruence ]
    | intros q sq Hq; split_lookups; simplify_eq; cbn ].
  all: try (destruct (Hinv q sq Hq) as (H1 & H2 & H3); repeat split; auto; congruence).
  all: use_inv Hinv.
  all: repeat split; intros; try solve_auth.
  all: try (simplify_eq; lia).
  all: try match goal with
       | H : _ !! ?n = None |- _ =>
           apply lookup_ge_None in H; rewrite ?length_insert in H;
           specialize (Hws n eq_refl); lia
       end.
Qed.

Lemma sockets_ok_run (s : State) es : sockets_ok s -> sockets_ok (run s es).
Proof.
  revert s. induction es as [|e es IH]; intros s Hs; [done|].
  change (run s (e :: es)) with (run (step s e) es). by apply IH, sockets_ok_step.
Qed.

(** On every socket the module ever constructs, whatever events are
    handled, the first message sent is the auth message with the token
    obtained for that socket: a frame is never sent on a socket that has not
    been sent its credentials, a socket that is still connecting has been
    sent nothing, and the socket a capture tick would use, once open, has
    already been sent its auth message. *)
Theorem frames_follow_authentication (t0 : float) (page : Dom) (es : list Event) :
  let s := run (init t0 page) es in
  forall i sock, sockets s !! i = Some sock ->
    (sent sock = [] \/ exists rest, sent sock = AuthMsg (token sock) :: rest) /\
    (forall m, m ∈ sent sock -> is_frame m = true ->
       exists rest, sent sock = AuthMsg (token sock) :: rest /\ m ∈ rest) /\
    (readyState sock = CONNECTING -> sent sock = []) /\
    (ws s = Some i -> readyState sock = OPEN ->
       exists rest, sent sock = AuthMsg (token sock) :: rest).
Proof.
  cbn zeta. intros i sock Hi.
  assert (sockets_ok (run (init t0 page) es)) as [_ Hok].
  { apply sockets_ok_run. split; [done|]. intros k sk Hk. cbn in Hk. by rewrite lookup_nil in Hk. }
  destruct (Hok i sock Hi) as (Hc & Ha & Ho).
  split; [exact Ha|]. split; [|split; [exact Hc|]].
  - intros m Hm Hf. destruct Ha as [Hnil|[rest Hrest]].
    + rewrite Hnil in Hm. by apply elem_of_nil in Hm.
    + exists rest. split; [done|]. rewrite Hrest in Hm.
      apply elem_of_cons in Hm as [->|Hm]; [done|done].
  - intros Hw Hopen. specialize (Ho Hw Hopen).
    destruct Ha as [Hnil|[rest Hrest]]; [done|by exists rest].
Qed.

(** A session that is stopped and, once its socket has closed, started
    again: what the second socket has been sent. *)
Lemma second_socket_is_authenticated_first :
  let s := run (init 0 blank_page)
             (start granted ++ [SocketOpen 0; Tick 1 "frame-1"; ClickStart; SocketClose 0]
              ++ start granted ++ [SocketOpen 1; Tick 3 "frame-2"]) in
  let sock := {| readyState := OPEN;
                 sent := [AuthMsg "tok"; FrameMsg "frame-2" "detect" 0.25];
                 token := "tok" |} in
  sockets s !! 1 = Some sock /\
  (forall m, m ∈ sent sock -> is_frame m = true ->
     exists rest, sent sock = AuthMsg (token sock) :: rest /\ m ∈ rest).
Proof.
  cbn zeta. split; [vm_compute; reflexivity|].
  refine (proj1 (proj2 (frames_follow_authentication 0 blank_page
            (start granted ++ [SocketOpen 0; Tick 1 "frame-1"; ClickStart; SocketClose 0]
             ++ start granted ++ [SocketOpen 1; Tick 3 "frame-2"]) 1 _ _))).
  vm_compute. reflexivity.
Defined.

(** ** The classification bars *)

(** The four calls of lines 839-860 for the [i]-th classification. *)
Definition bar (cw ch : float) (i : nat) (cls : Detection) : list Cmd :=
  let startY := (ch * 0.15)%float in
  let startX := (cw * 0.05)%float in
  let y := (startY + Js.of_nat i * 32)%float in
  [FillRect BarBackground startX y (Px 180) 20;
   FillRect BarFill startX y (Px (180 * Js.num (det_confidence cls))) 20;
   StrokeRect CYAN_DIM startX y (Px 180) 20;
   FillText CYAN (inr (make_label cls)) (startX + 180 + 10) (y + 10)].

Lemma forEach_bars cw ch (dets : list Detection) (i : nat) :
  forEach_from i (fun entry i =>
      let y := (ch * 0.15 + Js.of_nat i * 32)%float in
      let barW := 180%float in
      cls ← deref entry;
      let fillW := (barW * Js.num (det_confidence cls))%float in
      paint (FillRect BarBackground (cw * 0.05) y (Px barW) 20);;
      paint (FillRect BarFill (cw * 0.05) y (Px fillW) 20);;
      paint (StrokeRect CYAN_DIM (cw * 0.05) y (Px barW) 20);;
      paint (FillText CYAN (inr (make_label cls)) (cw * 0.05 + barW + 10) (y + 10)))
    (Some <$> dets)
  = (concat (imap (fun k => bar cw ch (i + k)) dets), Normal tt).
Proof.
  revert i. induction dets as [|d dets IH]; intros i; [done|].
  cbn [fmap list_fmap forEach_from]. rewrite IH.
  cbn. rewrite Nat.add_0_r. do 6 f_equal.
  apply imap_ext. intros k x _. cbn. do 2 f_equal. lia.
Qed.

Lemma length_concat_imap {A B} (f : nat -> A -> list B) (n : nat) (l : list A) :
  (forall i x, length (f i x) = n) ->
  length (concat (imap f l)) = n * length l.
Proof.
  revert f. induction l as [|x l IH]; intros f Hf; [cbn; lia|].
  rewrite imap_cons. cbn [concat length]. rewrite length_app, Hf, IH; [lia|].
  intros i y. apply Hf.
Qed.

(** [drawClassifications] over classifications that are objects never
    throws: an empty list paints nothing at all, not even the heading;
    otherwise the heading is painted, then four calls per classification,
    the [i]-th bar 32 pixels below the one before it and filled over
    [180 * confidence] pixels.  The list [handleVisionResult] stores for a
    classify result, when the copying does not throw, is made of such
    objects, one per classification received, so a frame drawn from it is
    completed: the scanline and the border follow the bars. *)
Theorem drawClassifications_paints_every_bar (cw ch : float) (dets : list Detection) :
  drawClassifications (Some <$> dets) cw ch
  = (match dets with
     | [] => []
     | _ :: _ =>
         FillText CYAN_DIM (inl "CLASSIFICATION") (cw * 0.05) (ch * 0.15 - 20)
         :: concat (imap (bar cw ch) dets)
     end, Normal tt) /\
  length (drawClassifications (Some <$> dets) cw ch).1
  = (match dets with [] => 0 | _ :: _ => 1 + 4 * length dets end) /\
  (forall received cs,
     map_throwing copy_classification received = Normal cs ->
     exists copies, cs = Some <$> copies /\ length copies = length received) /\
  (forall s : State, active s = true -> is_classify (currentMode s) = true ->
     currentDetections s = Some <$> dets ->
     canvas (exec (render cw ch) s)
     = (drawClassifications (Some <$> dets) cw ch).1
       ++ (drawScanline cw ch).1 ++ (drawFrameBorder cw ch).1).
Proof.
  assert (drawClassifications (Some <$> dets) cw ch
          = (match dets with
             | [] => []
             | _ :: _ =>
                 FillText CYAN_DIM (inl "CLASSIFICATION") (cw * 0.05) (ch * 0.15 - 20)
                 :: concat (imap (bar cw ch) dets)
             end, Normal tt)) as Heq.
  { unfold drawClassifications. destruct dets as [|d dets]; [done|].
    rewrite length_fmap. cbn [length Nat.eqb].
    pose proof (forEach_bars cw ch (d :: dets) 0) as Hbars.
    cbv zeta in Hbars |- *. rewrite Hbars. reflexivity. }
  split; [exact Heq|]. split; [|split].
  - rewrite Heq. destruct dets as [|d dets]; [done|]. cbn [fst length]. f_equal.
    by rewrite (length_concat_imap _ 4).
  - intros received. clear Heq.
    induction received as [|[d|] received IH]; intros cs Hcs.
    + cbn in Hcs. injection Hcs as <-. by exists [].
    + cbn in Hcs.
      destruct (map_throwing copy_classification received) as [cs'|err] eqn:E; [|discriminate].
      destruct (IH cs' eq_refl) as (copies & -> & Hlen).
      injection Hcs as <-.
      exists (Build_Detection (det_class d) (det_confidence d) None None :: copies).
      split; [done|]. cbn. by rewrite Hlen.
    + discriminate Hcs.
  - intros s Ha Hm Hd. rewrite (render_canvas s cw ch Ha).
    unfold hud_routine. rewrite Hm, Hd, Heq. done.
Qed.

(** * Properties of the conversation feed and the history drawer *)

(** ** Strings: [truncate] and [escHtml] *)

Lemma truncate_long (s : str) (max : nat) :
  max < length s ->
  truncate s max = take max s ++ [ellipsis] /\ length (truncate s max) = S max.
Proof.
  intros Hlt. unfold truncate. destruct (Nat.ltb_spec max (length s)); [|lia].
  split; [done|]. rewrite length_app, length_take. cbn. lia.
Qed.

Lemma truncate_short (s : str) (max : nat) : length s <= max -> truncate s max = s.
Proof. intros Hle. unfold truncate. destruct (Nat.ltb_spec max (length s)); [lia|done]. Qed.

(** [truncate(s, max)] leaves a string of at most [max] code units alone;
    a longer one becomes its first [max] code units and an ellipsis, so the
    result never has more than [max + 1] code units (and a string of
    exactly [max + 1] is not made shorter).  The first [max] code units are
    always those of [s], and truncating twice is truncating once. *)
Theorem truncate_bounded_and_idempotent (s : str) (max : nat) :
  length (truncate s max) <= S max /\
  (length s <= max -> truncate s max = s) /\
  (max < length s ->
     truncate s max = take max s ++ [ellipsis] /\ length (truncate s max) = S max) /\
  take max (truncate s max) = take max s /\
  truncate (truncate s max) max = truncate s max.
Proof.
  destruct (decide (max < length s)) as [Hlt|Hle].
  - destruct (truncate_long s max Hlt) as [Heq Hlen].
    split; [lia|]. split; [lia|]. split; [done|]. split.
    + rewrite Heq, take_app_le by (rewrite length_take; lia).
      rewrite take_take. f_equal. lia.
    + destruct (truncate_long (truncate s max) max) as [-> _]; [lia|].
      rewrite Heq at 1. rewrite take_app_le by (rewrite length_take; lia).
      rewrite take_take, Heq. do 2 f_equal. lia.
  - rewrite !truncate_short by (rewrite ?truncate_short; lia).
    repeat split; try done; lia.
Qed.

Lemma escape_head (c : N) :
  (exists r, escape c = 38%N :: r /\
             (c = 38 \/ c = 160 \/ c = 60 \/ c = 62)%N) \/
  (escape c = [c] /\ c <> 38%N /\ c <> 160%N /\ c <> 60%N /\ c <> 62%N).
Proof.
  unfold escape.
  destruct (N.eqb_spec c 38) as [->|?]; [left; eexists; split; [reflexivity|auto]|].
  destruct (N.eqb_spec c 160) as [->|?]; [left; eexists; split; [reflexivity|auto]|].
  destruct (N.eqb_spec c 60) as [->|?]; [left; eexists; split; [reflexivity|auto]|].
  destruct (N.eqb_spec c 62) as [->|?]; [left; eexists; split; [reflexivity|auto]|].
  by right.
Qed.

Lemma escape_clean (c x : N) : x ∈ escape c -> x <> 60%N /\ x <> 62%N /\ x <> 160%N.
Proof.
  unfold escape.
  destruct (N.eqb_spec c 38) as [->|?];
    [|destruct (N.eqb_spec c 160) as [->|?];
      [|destruct (N.eqb_spec c 60) as [->|?];
        [|destruct (N.eqb_spec c 62) as [->|?]]]].
  all: cbn; intros Hx; repeat (apply elem_of_cons in Hx as [->|Hx]; [lia|]).
  all: by apply elem_of_nil in Hx.
Qed.

Lemma escHtml_cons (c : N) (s : str) : escHtml (c :: s) = escape c ++ escHtml s.
Proof. done. Qed.

Lemma escHtml_inj (s t : str) : escHtml s = escHtml t -> s = t.
Proof.
  revert t. induction s as [|c s IH]; intros [|d t]; rewrite ?escHtml_cons.
  - done.
  - intros H. destruct (escape_head d) as [(r & Hr & _)|(Hr & _)]; by rewrite Hr in H.
  - intros H. destruct (escape_head c) as [(r & Hr & _)|(Hr & _)]; by rewrite Hr in H.
  - intros H.
    destruct (escape_head c) as [(r & Hr & Hc)|(Hr & Hc)],
             (escape_head d) as [(r' & Hr' & Hd)|(Hr' & Hd)].
    + assert (c = d) as ->.
      { unfold escape in H.
        destruct Hc as [Hc|[Hc|[Hc|Hc]]], Hd as [Hd|[Hd|[Hd|Hd]]]; subst c d;
          cbn in H; first [done | discriminate H]. }
      f_equal. apply IH. by apply app_inv_head in H.
    + rewrite Hr, Hr' in H. cbn in H. injection H as H _. lia.
    + rewrite Hr, Hr' in H. cbn in H. injection H as H _. lia.
    + rewrite Hr, Hr' in H. cbn in H. injection H as -> H. f_equal. by apply IH.
Qed.

(** The markup [escHtml] makes of a text holds no [<], no [>] and no
    no-break space, whatever the text: it cannot open or close an element.
    It is the text itself when the text has none of the four special code
    units, it is never shorter than the text, and two different texts never
    get the same markup. *)
Theorem escHtml_is_inert_markup (s : str) :
  (forall x, x ∈ escHtml s -> x <> 60%N /\ x <> 62%N /\ x <> 160%N) /\
  (Forall (fun c => c <> 38%N /\ c <> 160%N /\ c <> 60%N /\ c <> 62%N) s -> escHtml s = s) /\
  length s <= length (escHtml s) /\
  (forall t, escHtml s = escHtml t -> s = t).
Proof.
  split; [|split; [|split]].
  - intros x Hx. unfold escHtml in Hx. apply list_elem_of_bind in Hx as (c & Hx & _).
    by eapply escape_clean.
  - induction 1 as [|c s Hc _ IH]; [done|]. rewrite escHtml_cons, IH.
    destruct (escape_head c) as [(r & _ & Hs)|(-> & _)]; [lia|done].
  - induction s as [|c s IH]; [done|]. rewrite escHtml_cons, length_app. cbn.
    destruct (escape_head c) as [(r & -> & _)|(-> & _)]; cbn; lia.
  - apply escHtml_inj.
Qed.

(** ** The conversation feed: what is on screen *)

(** The children [render] gives the feed for a list of entries. *)
Definition rendered (es : list Feed.Entry) : list Feed.Element :=
  omap (fun x => x) (imap Feed.render_entry es).

(** The feed shows what [render] makes of the current entries. *)
Definition in_sync (s : Feed.State) : Prop := Feed.feed s = rendered (Feed.entries s).

Lemma render_entry_hidden k e : 5 <= k -> Feed.render_entry k e = None.
Proof.
  intros Hk. unfold Feed.render_entry.
  destruct k as [|[|[|[|[|k]]]]]; try lia. reflexivity.
Qed.

Lemma render_entry_visible k e :
  k < 5 ->
  exists el, Feed.render_entry k e = Some el /\
    Feed.OPACITY_LEVELS !! k = Some (Feed.opacity el) /\
    Feed.dataset_id el = Feed.id e /\ Feed.titleText el = Feed.title e /\
    Feed.linesBox el = Feed.render_lines e.
Proof.
  intros Hk. unfold Feed.render_entry.
  destruct k as [|[|[|[|[|k]]]]]; try lia; eexists; (split; [reflexivity|done]).
Qed.

Lemma rendered_from_hidden n es :
  5 <= n -> omap (fun x => x) (imap (fun k => Feed.render_entry (n + k)) es) = [].
Proof.
  revert n. induction es as [|e es IH]; intros n Hn; [done|]. cbn.
  rewrite render_entry_hidden by lia.
  rewrite (imap_ext _ (fun k => Feed.render_entry (S n + k))); [apply IH; lia|].
  intros i x _. cbn. f_equal. lia.
Qed.

Lemma rendered_from_lookup n es k :
  n + k < 5 ->
  omap (fun x => x) (imap (fun k => Feed.render_entry (n + k)) es) !! k
  = es !! k ≫= Feed.render_entry (n + k).
Proof.
  revert n k. induction es as [|e es IH]; intros n k Hk; [done|]. cbn.
  destruct (render_entry_visible (n + 0) e) as (el & Hel & _); [lia|]. rewrite Hel.
  rewrite (imap_ext _ (fun k => Feed.render_entry (S n + k)))
    by (intros i x _; cbn; f_equal; lia).
  destruct k as [|k].
  - cbn. by rewrite Hel.
  - transitivity
      (omap (fun x => x) (imap (fun k => Feed.render_entry (S n + k)) es) !! k); [done|].
    rewrite IH by lia. change ((e :: es) !! S k) with (es !! k).
    by replace (S n + k) with (n + S k) by lia.
Qed.

Lemma rendered_from_length n es :
  length (omap (fun x => x) (imap (fun k => Feed.render_entry (n + k)) es))
  = min (length es) (5 - n).
Proof.
  revert n. induction es as [|e es IH]; intros n; [done|].
  destruct (decide (5 <= n)) as [Hn|Hn].
  { rewrite rendered_from_hidden by done. cbn [length]. lia. }
  cbn. destruct (render_entry_visible (n + 0) e) as (el & -> & _); [lia|].
  rewrite (imap_ext _ (fun k => Feed.render_entry (S n + k)))
    by (intros i x _; cbn; f_equal; lia).
  cbn [length]. rewrite (IH (S n)).
  destruct (5 - n) as [|m] eqn:Hm; [lia|]. replace (5 - S n) with m by lia. done.
Qed.

Lemma rendered_lookup es k :
  k < 5 -> rendered es !! k = es !! k ≫= Feed.render_entry k.
Proof. intros Hk. by apply (rendered_from_lookup 0). Qed.

Lemma rendered_length es : length (rendered es) = min (length es) 5.
Proof. apply (rendered_from_length 0). Qed.

(** The bound on [entries] and the synchrony of the feed. *)
Definition feed_ok (s : Feed.State) : Prop :=
  length (Feed.entries s) <= 6 /\ in_sync s.

Lemma render_in_sync s : in_sync (Feed.render s).
Proof. done. Qed.

Lemma addEntry_ok c ty ttl lns ptm s : feed_ok (Feed.addEntry c ty ttl lns ptm s).2.
Proof.
  unfold Feed.addEntry. cbn zeta. split; [|apply render_in_sync].
  cbn [snd Feed.render Feed.set_feed Feed.entries Feed.set_entries].
  match goal with |- context [if ?b then _ else _] => destruct b eqn:Hb end.
  - rewrite length_take. unfold Feed.MAX_VISIBLE. lia.
  - apply Nat.ltb_ge in Hb. unfold Feed.MAX_VISIBLE in Hb. lia.
Qed.

Lemma showThinking_ok c ttl s : feed_ok (Feed.showThinking c ttl s).2.
Proof.
  unfold Feed.showThinking.
  match goal with
  | |- context [Feed.addEntry ?c ?ty ?t ?l ?p ?s0] =>
      pose proof (addEntry_ok c ty t l p s0) as H;
      destruct (Feed.addEntry c ty t l p s0) as [i s2]
  end.
  exact H.
Qed.

Lemma feed_ok_step s e : feed_ok s -> feed_ok (Feed.step s e).
Proof.
  intros [Hlen Hsync]. destruct e; cbn [Feed.step].
  - apply addEntry_ok.
  - apply showThinking_ok.
  - apply showThinking_ok.
  - unfold Feed.on_tool_executing.
    match goal with
    | |- context [Feed.addEntry ?c ?ty ?t ?l ?p ?s0] =>
        pose proof (addEntry_ok c ty t l p s0) as H;
        destruct (Feed.addEntry c ty t l p s0) as [i s2]
    end.
    exact H.
  - unfold Feed.on_command_response.
    destruct (startsWith _ _); [done|]. cbn zeta.
    match goal with
    | |- context [Feed.addEntry ?c ?ty ?t ?l ?p ?s0] =>
        pose proof (addEntry_ok c ty t l p s0) as H;
        destruct (Feed.addEntry c ty t l p s0) as [i s2]
    end.
    exact H.
  - done.
  - unfold Feed.mouseenter. destruct (Feed.hovered k s) as [e|]; [|done].
    destruct (_ <? _); [|done]. split; [|apply render_in_sync].
    cbn. by rewrite length_insert.
  - unfold Feed.mouseleave. destruct (Feed.hovered k s) as [e|]; [|done].
    destruct (Feed.expanded e); [|done]. split; [|apply render_in_sync].
    cbn. by rewrite length_insert.
  - apply addEntry_ok.
  - apply showThinking_ok.
Qed.

Lemma feed_ok_run s es : feed_ok s -> feed_ok (Feed.run s es).
Proof.
  revert s. induction es as [|e es IH]; intros s Hs; [done|].
  apply IH, feed_ok_step, Hs.
Qed.

(** Whatever events the feed has handled since the page was loaded,
    [entries] holds at most six entries and the feed shows the first five
    of them, in order, the [k]-th at the [k]-th opacity level: the sixth
    entry is kept but never rendered.  An entry added by [addEntry] is put
    first, so it is shown on top at full opacity. *)
Theorem feed_shows_newest_five (es : list Feed.Event) :
  let s := Feed.run Feed.init es in
  length (Feed.entries s) <= 6 /\
  length (Feed.feed s) = min (length (Feed.entries s)) 5 /\
  (forall k el, Feed.feed s !! k = Some el ->
     exists e, Feed.entries s !! k = Some e /\ Feed.render_entry k e = Some el /\
       Feed.dataset_id el = Feed.id e /\
       Feed.OPACITY_LEVELS !! k = Some (Feed.opacity el)) /\
  (forall c ty ttl lns ptm,
     let r := Feed.addEntry c ty ttl lns ptm s in
     exists e rest el shown,
       Feed.entries r.2 = e :: rest /\ Feed.feed r.2 = el :: shown /\
       r.1 = Feed.generateId c /\ Feed.id e = r.1 /\ Feed.type e = ty /\
       Feed.title e = ttl /\ Feed.expanded e = false /\
       Feed.dataset_id el = r.1 /\ Feed.opacity el = 1%float).
Proof.
  cbn zeta. destruct (feed_ok_run Feed.init es) as [Hlen Hsync];
    [split; [cbn; lia|reflexivity]|].
  split; [exact Hlen|]. split; [|split].
  - rewrite Hsync. apply rendered_length.
  - intros k el Hk. rewrite Hsync in Hk.
    assert (k < 5) as Hk5.
    { apply lookup_lt_Some in Hk. rewrite rendered_length in Hk. lia. }
    rewrite rendered_lookup in Hk by done.
    destruct (Feed.entries _ !! k) as [e|] eqn:He; [|done]. cbn in Hk.
    exists e. destruct (render_entry_visible k e Hk5) as (el' & Hel & Hop & Hid & _).
    rewrite Hel in Hk. injection Hk as <-. done.
  - intros c ty ttl lns ptm. unfold Feed.addEntry. cbn zeta.
    cbn [fst snd Feed.render Feed.set_feed Feed.entries Feed.feed Feed.set_entries].
    match goal with |- context [if ?b then _ else _] => destruct b end;
      cbn; do 4 eexists; repeat split.
Qed.

(** ** The conversation feed: the thinking indicator *)

Definition is_thinking (e : Feed.Entry) : Prop := Feed.type e = lit "thinking".

#[global] Instance is_thinking_dec e : Decision (is_thinking e).
Proof. unfold is_thinking. apply _. Defined.

(** The events of the module's own wiring, and calls of the exposed
    functions that do not add a thinking entry behind [showThinking]'s
    back. *)
Definition own_event (ev : Feed.Event) : Prop :=
  match ev with
  | Feed.ApiAddEntry ty _ _ _ _ => ty <> lit "thinking"
  | _ => True
  end.

(** Events that add an entry which is not a thinking entry. *)
Definition settles (ev : Feed.Event) : bool :=
  match ev with
  | Feed.SystemReady _ | Feed.ApiAddEntry _ _ _ _ _ => true
  | Feed.CommandResponse _ command _ _ => negb (startsWith (or_empty command) (lit "_"))
  | _ => false
  end.

(** Events that show a thinking entry. *)
Definition starts_thinking (ev : Feed.Event) : bool :=
  match ev with
  | Feed.MicTranscribed _ _ _ _ | Feed.UserCommand _ _ _ _
  | Feed.ToolExecuting _ _ | Feed.ApiShowThinking _ _ => true
  | _ => false
  end.

(** Every thinking entry in the list is the one [activeThinking] names, and
    there is at most one. *)
Definition thinking_ok (s : Feed.State) : Prop :=
  (forall e, e ∈ Feed.entries s -> is_thinking e ->
     Feed.id e <> [] /\ Feed.activeThinking s = Some (Feed.id e)) /\
  length (filter is_thinking (Feed.entries s)) <= 1.

Section Thinking.
Implicit Types (s : Feed.State) (e : Feed.Entry) (es : list Feed.Entry).

Lemma no_thinking_iff es :
  filter is_thinking es = [] <-> forall e, e ∈ es -> ~ is_thinking e.
Proof.
  split.
  - intros H e He Ht. assert (e ∈ filter is_thinking es) as Hin by by apply list_elem_of_filter.
    rewrite H in Hin. by apply elem_of_nil in Hin.
  - intros H. apply elem_of_nil_inv. intros e [Ht He]%list_elem_of_filter. by eapply H.
Qed.

Lemma filter_insert_length (P : Feed.Entry -> Prop) `{!forall e, Decision (P e)} es k e e' :
  es !! k = Some e -> (P e <-> P e') ->
  length (filter P (<[k := e']> es)) = length (filter P es).
Proof.
  intros Hk HP. pose proof (lookup_lt_Some _ _ _ Hk) as Hlt.
  rewrite insert_take_drop by done.
  rewrite <- (take_drop_middle es k e Hk) at 3.
  rewrite !filter_app, !length_app, !filter_cons.
  destruct (decide (P e)), (decide (P e')); cbn; tauto || lia.
Qed.

(** What [addEntry] starts from once it has dropped the active thinking
    entry: a list without thinking entries. *)
Definition dropped s : Feed.State :=
  match Feed.activeThinking s with
  | Some (u :: r) => Feed.set_activeThinking None (Feed.removeEntry (u :: r) s)
  | Some [] | None => s
  end.

Lemma dropped_no_thinking s :
  thinking_ok s -> filter is_thinking (Feed.entries (dropped s)) = [].
Proof.
  intros [Hall _]. apply no_thinking_iff. intros e He Ht. unfold dropped in He.
  destruct (Feed.activeThinking s) as [[|u r]|] eqn:Ha.
  - destruct (Hall e He Ht) as [Hid Hact]. congruence.
  - cbn in He. apply list_elem_of_filter in He as [Hne He].
    destruct (Hall e He Ht) as [_ Hact]. congruence.
  - destruct (Hall e He Ht) as [_ Hact]. congruence.
Qed.

Lemma removed_no_thinking s :
  thinking_ok s ->
  thinking_ok (match Feed.activeThinking s with
               | Some (u :: r) => Feed.removeEntry (u :: r) s
               | Some [] | None => s
               end).
Proof.
  intros Hok. pose proof (dropped_no_thinking s Hok) as Hno. unfold dropped in Hno.
  destruct (Feed.activeThinking s) as [[|u r]|] eqn:Ha; try done.
  change (filter is_thinking (Feed.entries (Feed.removeEntry (u :: r) s)) = []) in Hno.
  split.
  - intros e He Ht. by destruct (proj1 (no_thinking_iff _) Hno e He).
  - rewrite Hno. cbn. lia.
Qed.

Lemma generateId_nonempty c : Feed.generateId c <> [].
Proof. done. Qed.

(** The entries and the active id [addEntry] leaves. *)
Lemma addEntry_entries c ty ttl lns ptm s :
  exists entry,
    Feed.id entry = Feed.generateId c /\ Feed.type entry = ty /\
    (Feed.addEntry c ty ttl lns ptm s).1 = Feed.generateId c /\
    Feed.entries (Feed.addEntry c ty ttl lns ptm s).2
      = take 6 (entry :: Feed.entries (dropped s)) /\
    Feed.activeThinking (Feed.addEntry c ty ttl lns ptm s).2
      = Feed.activeThinking (dropped s).
Proof.
  exists {| Feed.id := Feed.generateId c; Feed.type := ty; Feed.title := ttl;
            Feed.lines := default [] lns;
            Feed.processingTimeMs :=
              match ptm with Some 0%Z | None => None | Some t => Some t end;
            Feed.timestamp := Feed.date c; Feed.expanded := false |}.
  unfold Feed.addEntry. cbn zeta. fold (dropped s).
  cbn [fst snd Feed.render Feed.set_feed Feed.entries Feed.activeThinking Feed.set_entries
       Feed.id Feed.type].
  split; [reflexivity|]. split; [reflexivity|]. split; [reflexivity|]. split; [|done].
  match goal with |- context [if ?b then _ else _] => destruct b eqn:Hb end; [done|].
  apply Nat.ltb_ge in Hb. by rewrite take_ge.
Qed.

Lemma dropped_active s :
  thinking_ok s -> Feed.activeThinking (dropped s) = None \/
                   Feed.activeThinking (dropped s) = Some [].
Proof.
  intros _. unfold dropped. destruct (Feed.activeThinking s) as [[|u r]|] eqn:Ha; auto.
Qed.

Lemma take_no_thinking n es :
  filter is_thinking es = [] -> filter is_thinking (take n es) = [].
Proof.
  intros H. apply no_thinking_iff. intros e He. apply (proj1 (no_thinking_iff es) H).
  apply elem_of_take in He as (i & Hi & _). by eapply list_elem_of_lookup_2.
Qed.

(** [addEntry] for an entry that is not a thinking entry leaves none. *)
Lemma addEntry_settles c ty ttl lns ptm s :
  thinking_ok s -> ty <> lit "thinking" ->
  filter is_thinking (Feed.entries (Feed.addEntry c ty ttl lns ptm s).2) = [].
Proof.
  intros Hok Hty.
  destruct (addEntry_entries c ty ttl lns ptm s) as (entry & Hid & Htype & _ & -> & _).
  cbn [take]. rewrite filter_cons_False by (unfold is_thinking; congruence).
  by apply take_no_thinking, dropped_no_thinking.
Qed.

(** [addEntry] for a thinking entry leaves exactly that one, on top. *)
Lemma addEntry_thinking c ttl lns ptm s :
  thinking_ok s ->
  exists entry rest,
    Feed.entries (Feed.addEntry c (lit "thinking") ttl lns ptm s).2 = entry :: rest /\
    Feed.id entry = Feed.generateId c /\ is_thinking entry /\
    filter is_thinking rest = [].
Proof.
  intros Hok.
  destruct (addEntry_entries c (lit "thinking") ttl lns ptm s)
    as (entry & Hid & Htype & _ & -> & _).
  exists entry, (take 5 (Feed.entries (dropped s))). repeat split; try done.
  by apply take_no_thinking, dropped_no_thinking.
Qed.

Lemma thinking_ok_none s :
  filter is_thinking (Feed.entries s) = [] -> thinking_ok s.
Proof.
  intros H. split; [|rewrite H; cbn; lia].
  intros e He Ht. by destruct (proj1 (no_thinking_iff _) H e He).
Qed.

Lemma thinking_ok_one s entry rest :
  Feed.entries s = entry :: rest -> is_thinking entry -> filter is_thinking rest = [] ->
  Feed.id entry <> [] -> Feed.activeThinking s = Some (Feed.id entry) -> thinking_ok s.
Proof.
  intros He Ht Hrest Hid Hact. split.
  - intros e Hin Hth. rewrite He in Hin. apply elem_of_cons in Hin as [->|Hin]; [done|].
    by destruct (proj1 (no_thinking_iff _) Hrest e Hin).
  - rewrite He, filter_cons_True, Hrest by done. cbn. lia.
Qed.

(** [showThinking], and the [tool.executing] listener, leave one thinking
    entry, on top, and [activeThinking] names it. *)
Lemma showThinking_one c ttl s :
  thinking_ok s ->
  exists entry rest,
    Feed.entries (Feed.showThinking c ttl s).2 = entry :: rest /\
    is_thinking entry /\ filter is_thinking rest = [] /\ Feed.id entry <> [] /\
    Feed.activeThinking (Feed.showThinking c ttl s).2 = Some (Feed.id entry).
Proof.
  intros Hok. unfold Feed.showThinking.
  pose proof (removed_no_thinking s Hok) as Hok1.
  set (s1 := match Feed.activeThinking s with
             | Some (u :: r) => Feed.removeEntry (u :: r) s
             | Some [] | None => s
             end) in *.
  destruct (addEntry_thinking c (or_else (lit "Thinking...") ttl) (Some []) None s1 Hok1)
    as (entry & rest & He & Hid & Ht & Hrest).
  destruct (addEntry_entries c (lit "thinking") (or_else (lit "Thinking...") ttl)
              (Some []) None s1) as (_ & _ & _ & Hfst & _).
  destruct (Feed.addEntry _ _ _ _ _ s1) as [i s2]. cbn in *.
  exists entry, rest. rewrite Hid. repeat split; try done. by rewrite Hfst.
Qed.

Lemma tool_executing_one name c s :
  thinking_ok s ->
  exists entry rest,
    Feed.entries (Feed.on_tool_executing name c s) = entry :: rest /\
    is_thinking entry /\ filter is_thinking rest = [] /\ Feed.id entry <> [] /\
    Feed.activeThinking (Feed.on_tool_executing name c s) = Some (Feed.id entry).
Proof.
  intros Hok. unfold Feed.on_tool_executing. cbn zeta.
  set (s0 := Feed.set_currentServicesUsed _ s).
  assert (thinking_ok s0) as Hok0 by done.
  pose proof (removed_no_thinking s0 Hok0) as Hok1.
  set (s1 := match Feed.activeThinking s0 with
             | Some (u :: r) => Feed.removeEntry (u :: r) s0
             | Some [] | None => s0
             end) in *.
  match goal with
  | |- context [Feed.addEntry ?c ?ty ?t ?l ?p s1] =>
      destruct (addEntry_thinking c t l p s1 Hok1) as (entry & rest & He & Hid & Ht & Hrest);
      destruct (addEntry_entries c ty t l p s1) as (_ & _ & _ & Hfst & _);
      destruct (Feed.addEntry c ty t l p s1) as [i s2]
  end.
  cbn in *. exists entry, rest. rewrite Hid. repeat split; try done. by rewrite Hfst.
Qed.

Lemma hovered_lookup k s e : Feed.hovered k s = Some e -> Feed.entries s !! k = Some e.
Proof.
  unfold Feed.hovered. destruct (Feed.entries s !! k) as [e0|]; [|done]. cbn.
  destruct (Feed.render_entry k e0); [|done]. cbn.
  destruct (length (Feed.lines e0)); [done|]. by intros [= ->].
Qed.

Lemma thinking_ok_expanded k b s e :
  Feed.entries s !! k = Some e -> thinking_ok s ->
  thinking_ok (Feed.render
                 (Feed.set_entries (<[k := Feed.set_expanded b e]> (Feed.entries s)) s)).
Proof.
  intros Hk [Hall Hlen]. split; cbn.
  - intros e' He' Ht.
    apply list_elem_of_lookup in He' as [j Hj].
    apply list_lookup_insert_Some in Hj as [(-> & <- & _)|(_ & Hj)].
    + apply (Hall e); [by eapply list_elem_of_lookup_2|done].
    + apply Hall; [by eapply list_elem_of_lookup_2|done].
  - by rewrite (filter_insert_length _ _ _ e).
Qed.

Lemma thinking_ok_step s ev : own_event ev -> thinking_ok s -> thinking_ok (Feed.step s ev).
Proof.
  intros Hev Hok. destruct ev; cbn [Feed.step].
  - by apply thinking_ok_none, addEntry_settles.
  - unfold Feed.on_command.
    match goal with |- thinking_ok (Feed.showThinking ?c ?t ?s0).2 =>
      destruct (showThinking_one c t s0) as (entry & rest & He & Ht & Hr & Hid & Ha)
    end; [|by eapply thinking_ok_one].
    by apply thinking_ok_none, addEntry_settles.
  - unfold Feed.on_command.
    match goal with |- thinking_ok (Feed.showThinking ?c ?t ?s0).2 =>
      destruct (showThinking_one c t s0) as (entry & rest & He & Ht & Hr & Hid & Ha)
    end; [|by eapply thinking_ok_one].
    by apply thinking_ok_none, addEntry_settles.
  - destruct (tool_executing_one name c s Hok) as (entry & rest & He & Ht & Hr & Hid & Ha).
    by eapply thinking_ok_one.
  - unfold Feed.on_command_response. destruct (startsWith _ _); [done|]. cbn zeta.
    apply thinking_ok_none.
    cbn [Feed.entries Feed.set_currentServicesUsed Feed.set_dispatched].
    by apply addEntry_settles.
  - done.
  - unfold Feed.mouseenter. destruct (Feed.hovered k s) as [e|] eqn:Hh; [|done].
    destruct (_ <? _); [|done]. apply thinking_ok_expanded; [|done].
    by apply hovered_lookup.
  - unfold Feed.mouseleave. destruct (Feed.hovered k s) as [e|] eqn:Hh; [|done].
    destruct (Feed.expanded e); [|done]. apply thinking_ok_expanded; [|done].
    by apply hovered_lookup.
  - by apply thinking_ok_none, addEntry_settles.
  - destruct (showThinking_one c ttl s Hok) as (entry & rest & He & Ht & Hr & Hid & Ha).
    by eapply thinking_ok_one.
Qed.

Lemma thinking_ok_run s evs :
  Forall own_event evs -> thinking_ok s -> thinking_ok (Feed.run s evs).
Proof.
  intros Hevs. revert s. induction Hevs as [|ev evs Hev _ IH]; intros s Hs; [done|].
  by apply IH, thinking_ok_step.
Qed.
End Thinking.

(** Over any sequence of the module's events since the page was loaded,
    the feed holds at most one thinking entry, and [activeThinking] is its
    id.  A command, a tool start and [showThinking] leave exactly one, on
    top; the ready event, a response to a command that is not internal and
    an [addEntry] of another type leave none.  (A response to an internal
    command, one whose name starts with an underscore, is ignored and
    leaves the indicator where it was.) *)
Theorem one_thinking_indicator (evs : list Feed.Event) :
  Forall own_event evs ->
  let s := Feed.run Feed.init evs in
  length (filter is_thinking (Feed.entries s)) <= 1 /\
  (forall e, e ∈ Feed.entries s -> is_thinking e ->
     Feed.activeThinking s = Some (Feed.id e)) /\
  (forall ev, own_event ev -> settles ev = true ->
     filter is_thinking (Feed.entries (Feed.step s ev)) = []) /\
  (forall ev, starts_thinking ev = true ->
     exists e rest,
       Feed.entries (Feed.step s ev) = e :: rest /\ is_thinking e /\
       filter is_thinking rest = [] /\
       Feed.activeThinking (Feed.step s ev) = Some (Feed.id e)) /\
  (forall text command t c,
     startsWith (or_empty command) (lit "_") = true ->
     Feed.step s (Feed.CommandResponse text command t c) = s).
Proof.
  intros Hevs. cbn zeta.
  assert (thinking_ok (Feed.run Feed.init evs)) as Hok.
  { apply thinking_ok_run; [done|]. by apply thinking_ok_none. }
  set (s := Feed.run Feed.init evs) in *.
  split; [apply Hok|]. split; [|split; [|split]].
  - intros e He Ht. by destruct (proj1 Hok e He Ht).
  - intros ev Hown Hset. destruct ev; try discriminate; cbn [Feed.step].
    + by apply addEntry_settles.
    + unfold Feed.on_command_response. unfold settles in Hset.
      apply negb_true_iff in Hset.
      rewrite Hset. cbn zeta.
      cbn [Feed.entries Feed.set_currentServicesUsed Feed.set_dispatched].
      by apply addEntry_settles.
    + by apply addEntry_settles.
  - intros ev Hst. destruct ev; try discriminate; cbn [Feed.step].
    + unfold Feed.on_command.
      match goal with |- context [Feed.showThinking ?c ?t ?s0] =>
        destruct (showThinking_one c t s0) as (entry & rest & He & Ht & Hr & Hid & Ha)
      end; [by apply thinking_ok_none, addEntry_settles|].
      by exists entry, rest.
    + unfold Feed.on_command.
      match goal with |- context [Feed.showThinking ?c ?t ?s0] =>
        destruct (showThinking_one c t s0) as (entry & rest & He & Ht & Hr & Hid & Ha)
      end; [by apply thinking_ok_none, addEntry_settles|].
      by exists entry, rest.
    + destruct (tool_executing_one name c s Hok) as (entry & rest & He & Ht & Hr & Hid & Ha).
      by exists entry, rest.
    + destruct (showThinking_one c ttl s Hok) as (entry & rest & He & Ht & Hr & Hid & Ha).
      by exists entry, rest.
  - intros text command t c Hint. cbn. unfold Feed.on_command_response. by rewrite Hint.
Qed.

(** ** The conversation feed: hovering an entry *)

Lemma set_expanded_back e :
  Feed.expanded e = false -> Feed.set_expanded false (Feed.set_expanded true e) = e.
Proof. destruct e. cbn. by intros ->. Qed.

Lemma render_lines_some e :
  0 < length (Feed.lines e) ->
  exists box, Feed.render_lines e = Some box /\
    Feed.box_expanded box = Feed.expanded e /\
    length (Feed.box_lines box)
      = (if Feed.expanded e then length (Feed.lines e) else min 3 (length (Feed.lines e))) /\
    Feed.box_more box
      = (if negb (Feed.expanded e) && (3 <? length (Feed.lines e))
         then Some ([ellipsis] ++ lit " +" ++ dec (Z.of_nat (length (Feed.lines e)) - 3)
                    ++ lit " lines (hover to expand)")
         else None).
Proof.
  intros Hl. unfold Feed.render_lines.
  destruct (Nat.ltb_spec 0 (length (Feed.lines e))); [|lia].
  eexists. split; [reflexivity|]. cbn [Feed.box_expanded Feed.box_lines Feed.box_more].
  split; [done|]. split; [|done].
  rewrite length_fmap. destruct (Feed.expanded e); [done|].
  rewrite length_take. unfold Feed.COLLAPSE_LINES. lia.
Qed.

(** An entry with more than three lines is shown collapsed: three lines and
    an indicator that counts the hidden ones.  While the pointer is over
    it, all its lines are shown and the indicator is gone; when the pointer
    leaves, the feed is exactly what it was.  Hovering an entry with at most
    three lines, or none, changes nothing. *)
Theorem hover_expands_and_restores (s : Feed.State) (k : nat) (e : Feed.Entry) :
  in_sync s -> Feed.entries s !! k = Some e -> Feed.expanded e = false ->
  let s1 := Feed.mouseenter k s in
  (length (Feed.lines e) <= 3 \/ 5 <= k -> s1 = s) /\
  (3 < length (Feed.lines e) -> k < 5 ->
     (exists el box,
        Feed.feed s !! k = Some el /\ Feed.linesBox el = Some box /\
        Feed.box_expanded box = false /\ length (Feed.box_lines box) = 3 /\
        Feed.box_more box
          = Some ([ellipsis] ++ lit " +" ++ dec (Z.of_nat (length (Feed.lines e)) - 3)
                  ++ lit " lines (hover to expand)")) /\
     (exists el box,
        Feed.feed s1 !! k = Some el /\ Feed.linesBox el = Some box /\
        Feed.box_expanded box = true /\
        length (Feed.box_lines box) = length (Feed.lines e) /\
        Feed.box_more box = None)) /\
  Feed.mouseleave k s1 = s.
Proof.
  intros Hsync Hk Hexp. cbn zeta.
  assert (forall e', Feed.entries s !! k = Some e' ->
            Feed.hovered k s
            = if (k <? 5) && (0 <? length (Feed.lines e')) then Some e' else None) as Hhov.
  { intros e' He'. unfold Feed.hovered. rewrite He'. cbn [mbind option_bind].
    destruct (Nat.ltb_spec k 5) as [Hk5|Hk5].
    - destruct (render_entry_visible k e' Hk5) as (el & -> & _). done.
    - by rewrite render_entry_hidden. }
  assert (forall (s0 : Feed.State) e' , Feed.entries s0 !! k = Some e' ->
            Feed.hovered k s0
            = if (k <? 5) && (0 <? length (Feed.lines e')) then Some e' else None) as Hhov'.
  { intros s0 e' He'. unfold Feed.hovered. rewrite He'. cbn [mbind option_bind].
    destruct (Nat.ltb_spec k 5) as [Hk5|Hk5].
    - destruct (render_entry_visible k e' Hk5) as (el & -> & _). done.
    - by rewrite render_entry_hidden. }
  clear Hhov.
  pose proof (lookup_lt_Some _ _ _ Hk) as Hlt.
  unfold Feed.mouseenter. rewrite (Hhov' s e Hk).
  destruct (Nat.ltb_spec k 5) as [Hk5|Hk5]; cbn [andb].
  2:{ split; [done|]. split; [lia|].
      unfold Feed.mouseleave. rewrite (Hhov' s e Hk).
      destruct (Nat.ltb_spec k 5); [lia|done]. }
  destruct (Nat.ltb_spec 0 (length (Feed.lines e))) as [Hl0|Hl0].
  2:{ split; [done|]. split; [lia|].
      unfold Feed.mouseleave. rewrite (Hhov' s e Hk).
      destruct (Nat.ltb_spec k 5); [|lia].
      destruct (Nat.ltb_spec 0 (length (Feed.lines e))); [lia|done]. }
  unfold Feed.COLLAPSE_LINES.
  destruct (Nat.ltb_spec 3 (length (Feed.lines e))) as [Hl3|Hl3].
  2:{ split; [done|]. split; [lia|].
      unfold Feed.mouseleave. rewrite (Hhov' s e Hk).
      destruct (Nat.ltb_spec k 5); [|lia].
      destruct (Nat.ltb_spec 0 (length (Feed.lines e))); [|lia].
      cbn [andb]. by rewrite Hexp. }
  split; [intros [?|?]; lia|]. split.
  - intros _ _. split.
    + destruct (render_entry_visible k e Hk5) as (el & Hel & _ & _ & _ & Hbox).
      destruct (render_lines_some e Hl0) as (box & Hb & Hbe & Hbl & Hbm).
      exists el, box. rewrite Hsync, rendered_lookup, Hk by done. cbn [mbind option_bind].
      split; [done|]. split; [congruence|]. rewrite Hbe, Hbl, Hbm, Hexp. cbn [negb andb].
      destruct (Nat.ltb_spec 3 (length (Feed.lines e))); [|lia].
      repeat split; first [lia|done].
    + set (e1 := Feed.set_expanded true e).
      destruct (render_entry_visible k e1 Hk5) as (el & Hel & _ & _ & _ & Hbox).
      destruct (render_lines_some e1 Hl0) as (box & Hb & Hbe & Hbl & Hbm).
      exists el, box.
      cbn [Feed.render Feed.feed Feed.set_feed Feed.set_entries Feed.entries].
      fold (rendered (<[k:=e1]> (Feed.entries s))).
      rewrite rendered_lookup, list_lookup_insert_eq by done. cbn [mbind option_bind].
      split; [done|]. split; [congruence|]. by rewrite Hbe, Hbl, Hbm.
  - set (e1 := Feed.set_expanded true e).
    set (s1 := Feed.render (Feed.set_entries (<[k:=e1]> (Feed.entries s)) s)).
    assert (Feed.entries s1 !! k = Some e1) as Hk1.
    { subst s1. cbn. by rewrite list_lookup_insert_eq. }
    unfold Feed.mouseleave. rewrite (Hhov' s1 e1 Hk1).
    destruct (Nat.ltb_spec k 5); [|lia].
    change (Feed.lines e1) with (Feed.lines e).
    destruct (Nat.ltb_spec 0 (length (Feed.lines e))); [|lia].
    cbn [andb]. change (Feed.expanded e1) with true. cbn iota.
    subst s1 e1. cbn [Feed.render Feed.set_feed Feed.set_entries Feed.entries
                       Feed.activeThinking Feed.commandStartTime Feed.currentServicesUsed
                       Feed.feed Feed.visible Feed.dispatched].
    rewrite list_insert_insert_eq, set_expanded_back, list_insert_id by done.
    unfold Feed.render, Feed.set_feed, Feed.set_entries.
    cbn [Feed.entries Feed.activeThinking Feed.commandStartTime Feed.currentServicesUsed
         Feed.feed Feed.visible Feed.dispatched].
    fold (rendered (Feed.entries s)). rewrite <- Hsync. by destruct s.
Qed.

(** ** From a command to the history request *)

(** The bookkeeping variables [addEntry] and [showThinking] leave alone. *)
Definition books (s : Feed.State) : option Z * list str * list Detail :=
  (Feed.commandStartTime s, Feed.currentServicesUsed s, Feed.dispatched s).

Lemma books_inv s a b c :
  books s = (a, b, c) ->
  Feed.commandStartTime s = a /\ Feed.currentServicesUsed s = b /\ Feed.dispatched s = c.
Proof. unfold books. by intros [= -> -> ->]. Qed.

Lemma addEntry_books c ty ttl lns ptm s :
  books (Feed.addEntry c ty ttl lns ptm s).2 = books s.
Proof.
  unfold Feed.addEntry, books. cbn zeta.
  cbn [snd Feed.render Feed.set_feed Feed.set_entries Feed.commandStartTime
       Feed.currentServicesUsed Feed.dispatched].
  by destruct (Feed.activeThinking s) as [[|u r]|].
Qed.

Lemma removeEntry_books i s : books (Feed.removeEntry i s) = books s.
Proof. done. Qed.

Lemma showThinking_books c ttl s : books (Feed.showThinking c ttl s).2 = books s.
Proof.
  unfold Feed.showThinking.
  match goal with
  | |- context [Feed.addEntry ?c ?ty ?t ?l ?p ?s0] =>
      destruct (Feed.addEntry c ty t l p s0) as [i s2] eqn:E;
      assert (books s2 = books s0) as H
        by (replace s2 with (Feed.addEntry c ty t l p s0).2 by (by rewrite E);
            apply addEntry_books)
  end.
  cbn [snd]. transitivity (books s2); [done|]. rewrite H.
  by destruct (Feed.activeThinking s) as [[|u r]|].
Qed.

Lemma on_command_books services text t c1 c2 s :
  books (Feed.on_command services text t c1 c2 s) = (Some t, services, Feed.dispatched s).
Proof.
  unfold Feed.on_command. cbn zeta. by rewrite showThinking_books, addEntry_books.
Qed.

Lemma on_tool_executing_books name c s :
  books (Feed.on_tool_executing name c s)
  = (Feed.commandStartTime s, Feed.currentServicesUsed s ++ [or_else (lit "tool") name],
     Feed.dispatched s).
Proof.
  unfold Feed.on_tool_executing. cbn zeta.
  match goal with
  | |- context [Feed.addEntry ?c ?ty ?t ?l ?p ?s0] =>
      destruct (Feed.addEntry c ty t l p s0) as [i s2] eqn:E;
      assert (books s2 = books s0) as H
        by (replace s2 with (Feed.addEntry c ty t l p s0).2 by (by rewrite E);
            apply addEntry_books)
  end.
  transitivity (books s2); [done|]. rewrite H.
  by destruct (Feed.activeThinking _) as [[|u r]|].
Qed.

Lemma tools_books (tools : list (option str * Feed.Clock)) s :
  books (Feed.run s ((fun nc => Feed.ToolExecuting nc.1 nc.2) <$> tools))
  = (Feed.commandStartTime s,
     Feed.currentServicesUsed s ++ ((fun nc => or_else (lit "tool") nc.1) <$> tools),
     Feed.dispatched s).
Proof.
  revert s. induction tools as [|[name c] tools IH]; intros s.
  { cbn. by rewrite app_nil_r. }
  cbn [fmap list_fmap Feed.run foldl]. fold (Feed.run (Feed.step s (Feed.ToolExecuting name c))
    ((fun nc => Feed.ToolExecuting nc.1 nc.2) <$> tools)).
  rewrite IH. cbn [Feed.step fst snd].
  destruct (books_inv _ _ _ _ (on_tool_executing_books name c s)) as (-> & -> & ->).
  by rewrite <- app_assoc.
Qed.

(** A spoken or typed command, then any number of tool runs, then the
    response to a command that is not internal: the feed dispatches exactly
    one [nex:conversation.complete], whose prompt is the command of the
    response, whose answer is the full response text, whose time is
    measured from the command to the response, and whose services are
    [stt] for a spoken command, every tool in the order it ran (a tool
    without a name counts as "tool"), and [tts].  The history drawer posts
    that detail to the server, unless command and text are both empty. *)
Theorem command_is_recorded_with_its_services
    (s : Feed.State) (spoken : bool) (text : option str) (t0 : Z) (c1 c2 : Feed.Clock)
    (tools : list (option str * Feed.Clock)) (resp cmd : option str) (t : Z)
    (c : Feed.Clock) :
  startsWith (or_empty cmd) (lit "_") = false -> t0 <> 0%Z ->
  let s1 := Feed.step s (if spoken then Feed.MicTranscribed text t0 c1 c2
                         else Feed.UserCommand text t0 c1 c2) in
  let s2 := Feed.run s1 ((fun nc => Feed.ToolExecuting nc.1 nc.2) <$> tools) in
  let s3 := Feed.step s2 (Feed.CommandResponse resp cmd t c) in
  let d := {| detail_userPrompt := Some (or_empty cmd);
              detail_nexResponse := Some (or_empty resp);
              detail_processingTimeMs := Some (t - t0)%Z;
              detail_servicesUsed :=
                (if spoken then [lit "stt"] else [])
                ++ ((fun nc => or_else (lit "tool") nc.1) <$> tools) ++ [lit "tts"] |} in
  Feed.dispatched s3 = Feed.dispatched s ++ [d] /\
  Feed.currentServicesUsed s3 = [] /\ Feed.commandStartTime s3 = None /\
  forall h,
    History.on_complete d h
    = if bool_decide (or_empty cmd = [] /\ or_empty resp = []) then h
      else History.set_requests (History.requests h ++ [History.PostHistory d]) h.
Proof.
  intros Hcmd Ht0. cbn zeta.
  set (s1 := Feed.step s _).
  assert (books s1 = (Some t0, (if spoken then [lit "stt"] else []), Feed.dispatched s)) as H1.
  { subst s1. destruct spoken; apply on_command_books. }
  set (s2 := Feed.run s1 _).
  assert (books s2 = (Some t0,
            (if spoken then [lit "stt"] else [])
            ++ ((fun nc => or_else (lit "tool") nc.1) <$> tools), Feed.dispatched s)) as H2.
  { subst s2. rewrite tools_books.
    by destruct (books_inv _ _ _ _ H1) as (-> & -> & ->). }
  destruct (books_inv _ _ _ _ H2) as (Hstart & Hserv & Hdisp).
  cbn [Feed.step]. unfold Feed.on_command_response. rewrite Hcmd, Hstart. cbn zeta.
  destruct t0 as [|p|p]; [done| |].
  all: cbn [Feed.dispatched Feed.set_currentServicesUsed Feed.set_dispatched
            Feed.currentServicesUsed Feed.commandStartTime].
  all: match goal with
       | |- context [Feed.addEntry ?c ?ty ?t ?l ?p ?s0] =>
           destruct (books_inv _ _ _ _ (addEntry_books c ty t l p s0)) as (Hc & Hs & Hd);
           destruct (Feed.addEntry c ty t l p s0) as [i s3]
       end.
  all: cbn [snd Feed.set_commandStartTime Feed.commandStartTime
            Feed.currentServicesUsed Feed.dispatched] in Hc, Hs, Hd.
  all: cbn [snd]; rewrite Hc, Hs, Hd, Hserv, Hdisp, <- app_assoc.
  all: split; [done|]; split; [done|]; split; [done|].
  all: intros h; unfold History.on_complete; cbn [detail_userPrompt detail_nexResponse].
  all: destruct (or_empty cmd) as [|? ?], (or_empty resp) as [|? ?]; try done.
  all: rewrite bool_decide_eq_false_2; [done|]; by intros [? ?].
Qed.

(** ** The history drawer: days and labels *)

Section Decimal.

Lemma lit_inj (s t : string) : lit s = lit t -> s = t.
Proof.
  unfold lit. intros H.
  rewrite <- (string_of_list_ascii_of_string s), <- (string_of_list_ascii_of_string t).
  f_equal. revert H. generalize (list_ascii_of_string s) (list_ascii_of_string t).
  induction l as [|a l IH]; intros [|b l']; cbn; try done.
  intros [= Hab Hl]. f_equal; [|by apply IH].
  by rewrite <- (ascii_N_embedding a), <- (ascii_N_embedding b), Hab.
Qed.

(** Reading a decimal back. *)
Definition undec (s : string) : option Z := Z.of_int <$> NilZero.int_of_string s.

Lemma undec_dec (z : Z) : undec (NilZero.string_of_int (Z.to_int z)) = Some z.
Proof.
  unfold undec. rewrite NilZero.isi.
  - cbn. by rewrite DecimalZ.of_to.
  - destruct z; cbn; [done| |done]. intros [= H]. by apply DecimalPos.Unsigned.to_uint_nonnil in H.
  - destruct z; cbn; [done|done|]. intros [= H]. by apply DecimalPos.Unsigned.to_uint_nonnil in H.
Qed.

Lemma dec_inj (z1 z2 : Z) : dec z1 = dec z2 -> z1 = z2.
Proof.
  unfold dec. intros H%lit_inj.
  pose proof (undec_dec z1) as H1. rewrite H, undec_dec in H1. by injection H1.
Qed.

(** Two-digit fields: months 1 to 12 and days 1 to 31 are among them. *)
Definition two_digits (s : str) : option Z :=
  match s with
  | [a; b] => Some ((Z.of_N a - 48) * 10 + (Z.of_N b - 48))%Z
  | _ => None
  end.

Lemma two_digits_padStart2 (k : Z) :
  (0 <= k <= 99)%Z -> two_digits (padStart2 (dec k)) = Some k.
Proof.
  intros Hk.
  assert (Forall (fun k => two_digits (padStart2 (dec k)) = Some k) (seqZ 0 100)) as H.
  { apply (bool_decide_unpack _). vm_compute. reflexivity. }
  rewrite Forall_forall in H. apply H. apply elem_of_seqZ. lia.
Qed.

Lemma padStart2_length (k : Z) : (0 <= k <= 99)%Z -> length (padStart2 (dec k)) = 2.
Proof.
  intros Hk. pose proof (two_digits_padStart2 k Hk) as H.
  by destruct (padStart2 (dec k)) as [|a [|b [|c r]]].
Qed.
End Decimal.

(** The host's calendar gives a month index from 0 to 11 and a day of the
    month from 1 to 31. *)
Definition calendar_in_range (loc : History.Locale) (t : Z) : Prop :=
  (0 <= (History.calendar loc t).1.2 <= 11)%Z /\ (1 <= (History.calendar loc t).2 <= 31)%Z.

Lemma dateKey_valid loc t :
  calendar_in_range loc t ->
  exists tail,
    History.dateKey loc (Some t) = dec (History.calendar loc t).1.1 ++ tail /\
    length tail = 6 /\
    two_digits (take 2 (drop 1 tail)) = Some ((History.calendar loc t).1.2 + 1)%Z /\
    two_digits (drop 4 tail) = Some (History.calendar loc t).2.
Proof.
  unfold calendar_in_range, History.dateKey.
  destruct (History.calendar loc t) as [[y m] d]. cbn [fst snd]. intros [Hm Hd].
  pose proof (two_digits_padStart2 (m + 1) ltac:(lia)) as Hmm.
  pose proof (two_digits_padStart2 d ltac:(lia)) as Hdd.
  destruct (padStart2 (dec (m + 1))) as [|m1 [|m2 [|? ?]]]; try done.
  destruct (padStart2 (dec d)) as [|d1 [|d2 [|? ?]]]; try done.
  exists (lit "-" ++ [m1; m2] ++ lit "-" ++ [d1; d2]). done.
Qed.

Lemma dateKey_inj loc t1 t2 :
  calendar_in_range loc t1 -> calendar_in_range loc t2 ->
  History.dateKey loc (Some t1) = History.dateKey loc (Some t2) ->
  History.calendar loc t1 = History.calendar loc t2.
Proof.
  intros H1 H2 Hkey.
  destruct (dateKey_valid loc t1 H1) as (tail1 & Hk1 & Hl1 & Hm1 & Hd1).
  destruct (dateKey_valid loc t2 H2) as (tail2 & Hk2 & Hl2 & Hm2 & Hd2).
  rewrite Hk1, Hk2 in Hkey.
  destruct (app_inj_2 _ _ _ _ (eq_trans Hl1 (eq_sym Hl2)) Hkey) as [Hy Ht].
  apply dec_inj in Hy. subst tail2.
  rewrite Hm1 in Hm2. rewrite Hd1 in Hd2.
  destruct (History.calendar loc t1) as [[y1 m1] d1],
           (History.calendar loc t2) as [[y2 m2] d2].
  cbn [fst snd] in *. simplify_eq. assert (m1 = m2) as -> by lia. done.
Qed.

Lemma dateKey_valid_not_NaN loc t :
  calendar_in_range loc t -> History.dateKey loc (Some t) <> History.dateKey loc None.
Proof.
  intros H Hkey. destruct (dateKey_valid loc t H) as (tail & Hk & Hl & _).
  rewrite Hk in Hkey. change (History.dateKey loc None) with (lit "NaN-N" ++ lit "aN-NaN") in Hkey.
  destruct (app_inj_2 _ (lit "NaN-N") _ (lit "aN-NaN") Hl Hkey) as [Hy _].
  unfold dec in Hy. apply lit_inj in Hy.
  pose proof (undec_dec (History.calendar loc t).1.1) as Hu. by rewrite Hy in Hu.
Qed.

(** [dateKey] tells local calendar days apart: two valid dates have the
    same key exactly when the host's calendar gives them the same year,
    month and day, and an invalid date never shares the key of a valid
    one.  So an entry is filed under TODAY exactly when it is dated on the
    local day of [now], under YESTERDAY when it is not but is dated on the
    local day of the instant 24 hours before [now], and under its own date
    otherwise; an entry without a valid date goes under INVALID DATE. *)
Theorem entries_are_filed_by_local_day (loc : History.Locale) (now : Z) (e : History.Entry) :
  calendar_in_range loc now -> calendar_in_range loc (now - 86400000) ->
  (forall t, History.timestamp e = Some t -> calendar_in_range loc t ->
     (History.dateKey loc (Some t) = History.dateKey loc (Some now)
      <-> History.calendar loc t = History.calendar loc now) /\
     History.label loc now e =
       if decide (History.calendar loc t = History.calendar loc now) then lit "TODAY"
       else if decide (History.calendar loc t = History.calendar loc (now - 86400000)%Z)
            then lit "YESTERDAY"
            else History.dateLabel loc t) /\
  (History.timestamp e = None -> History.label loc now e = lit "INVALID DATE").
Proof.
  intros Hnow Hyes. split.
  - intros t Ht Hrange.
    assert (forall t', calendar_in_range loc t' ->
              History.dateKey loc (Some t) = History.dateKey loc (Some t')
              <-> History.calendar loc t = History.calendar loc t') as Hiff.
    { intros t' Ht'. split; [by apply dateKey_inj|].
      intros Hcal. unfold History.dateKey. by rewrite Hcal. }
    split; [by apply Hiff|].
    unfold History.label. rewrite Ht. cbn zeta.
    destruct (decide (History.calendar loc t = History.calendar loc now)) as [Hc|Hc].
    + rewrite decide_True; [done|]. by apply Hiff.
    + rewrite decide_False; [|by rewrite Hiff].
      destruct (decide (History.calendar loc t = _)) as [Hc'|Hc'].
      * rewrite decide_True; [done|]. by apply Hiff.
      * rewrite decide_False; [done|]. by rewrite Hiff.
  - intros Ht. unfold History.label. rewrite Ht. cbn zeta.
    rewrite decide_False;
      [|intros H; by apply (dateKey_valid_not_NaN loc now Hnow)].
    rewrite decide_False; [done|].
    intros H; by apply (dateKey_valid_not_NaN loc _ Hyes).
Qed.

(** ** The history drawer: the rendered list *)

(** The entries of the items of a list, in document order. *)
Definition shown_entries (nodes : list History.Node) : list History.Entry :=
  omap (fun n => match n with
                 | History.Item it => Some (History.item_entry it)
                 | _ => None
                 end) nodes.

(** The entries filed under label [L], in the order given. *)
Definition filed (loc : History.Locale) (now : Z) (L : str) (es : list History.Entry)
  : list History.Entry :=
  filter (fun e => History.label loc now e = L) es.

(** The labels of a list, each once, in the order they first occur. *)
Definition first_seen (labels : list str) : list str :=
  foldl (fun acc l => if decide (l ∈ acc) then acc else acc ++ [l]) [] labels.

(** The group of key [k], if a [Map] holds one. *)
Fixpoint group (k : str) (gs : History.Groups) : option (list History.Entry) :=
  match gs with
  | [] => None
  | (k', es) :: rest => if decide (k = k') then Some es else group k rest
  end.

Section Grouping.
Context (loc : History.Locale) (now : Z).
Implicit Types (k L : str) (e : History.Entry) (es seen : list History.Entry)
  (gs : History.Groups).

Lemma group_push_eq k e gs :
  group k (History.push k e gs) = Some (default [] (group k gs) ++ [e]).
Proof.
  induction gs as [|[k' es] gs IH]; cbn.
  - by rewrite decide_True.
  - destruct (decide (k = k')) as [->|Hne]; cbn.
    + by rewrite decide_True.
    + by rewrite decide_False.
Qed.

Lemma group_push_ne k k' e gs : k <> k' -> group k' (History.push k e gs) = group k' gs.
Proof.
  intros Hne. induction gs as [|[k0 es] gs IH]; cbn.
  - by rewrite decide_False.
  - destruct (decide (k = k0)) as [->|Hne0]; cbn.
    + by rewrite !decide_False by done.
    + destruct (decide (k' = k0)); [done|apply IH].
Qed.

Lemma group_None k gs : group k gs = None <-> k ∉ gs.*1.
Proof.
  induction gs as [|[k' es] gs IH]; cbn.
  - split; [intros _; apply not_elem_of_nil|done].
  - rewrite not_elem_of_cons. destruct (decide (k = k')) as [->|Hne].
    + split; [done|]. by intros [? _].
    + rewrite IH. tauto.
Qed.

Lemma group_elem_of k es gs : NoDup gs.*1 -> group k gs = Some es <-> (k, es) ∈ gs.
Proof.
  induction gs as [|[k' es'] gs IH]; cbn; intros Hnd.
  - split; [done|]. by intros ?%elem_of_nil.
  - apply NoDup_cons in Hnd as [Hk' Hnd]. rewrite elem_of_cons.
    destruct (decide (k = k')) as [->|Hne].
    + split; [by intros [= ->]; left|].
      intros [[= ->]|Hin]; [done|].
      destruct Hk'. change k' with ((k', es).1). by apply list_elem_of_fmap_2.
    + rewrite (IH Hnd). split; [by right|]. by intros [[= ]|?].
Qed.

Lemma push_keys k e gs :
  (History.push k e gs).*1 = if decide (k ∈ gs.*1) then gs.*1 else gs.*1 ++ [k].
Proof.
  induction gs as [|[k' es] gs IH]; cbn.
  - rewrite decide_False; [done|apply not_elem_of_nil].
  - destruct (decide (k = k')) as [->|Hne]; cbn.
    + rewrite decide_True; [done|left].
    + rewrite IH. destruct (decide (k ∈ gs.*1)) as [Hin|Hin].
      * rewrite decide_True; [done|by right].
      * rewrite decide_False; [done|]. by intros [?|?]%elem_of_cons.
Qed.

Lemma push_NoDup k e gs : NoDup gs.*1 -> NoDup (History.push k e gs).*1.
Proof.
  intros Hnd. rewrite push_keys. destruct (decide (k ∈ gs.*1)) as [Hin|Hin]; [done|].
  apply NoDup_app. split; [done|]. split; [|apply NoDup_singleton].
  by intros x Hx ->%list_elem_of_singleton.
Qed.

Lemma push_concat k e gs : concat (History.push k e gs).*2 ≡ₚ concat gs.*2 ++ [e].
Proof.
  induction gs as [|[k' es] gs IH]; cbn; [done|].
  destruct (decide (k = k')) as [->|Hne]; cbn.
  - rewrite <- !app_assoc. f_equiv. apply Permutation_app_comm.
  - by rewrite IH, app_assoc.
Qed.

Lemma filed_snoc L seen e :
  filed loc now L (seen ++ [e])
  = filed loc now L seen ++ (if decide (History.label loc now e = L) then [e] else []).
Proof. unfold filed. by rewrite filter_app. Qed.

Lemma first_seen_snoc labels l :
  first_seen (labels ++ [l])
  = if decide (l ∈ first_seen labels) then first_seen labels else first_seen labels ++ [l].
Proof. unfold first_seen. by rewrite foldl_app. Qed.

(** What the loop of [groupByDate] keeps true of the map, after the
    entries [seen]. *)
Definition grouped seen gs : Prop :=
  NoDup gs.*1 /\
  gs.*1 = first_seen (History.label loc now <$> seen) /\
  (forall L, group L gs = match filed loc now L seen with
                          | [] => None
                          | items => Some items
                          end) /\
  concat gs.*2 ≡ₚ seen.

Lemma grouped_push seen gs e :
  grouped seen gs -> grouped (seen ++ [e]) (History.push (History.label loc now e) e gs).
Proof.
  intros (Hnd & Hkeys & Hgroup & Hperm). split; [by apply push_NoDup|]. split; [|split].
  - rewrite push_keys, fmap_app.
    change (History.label loc now <$> [e]) with [History.label loc now e].
    by rewrite first_seen_snoc, <- Hkeys.
  - intros L. rewrite filed_snoc.
    destruct (decide (History.label loc now e = L)) as [<-|Hne].
    + rewrite group_push_eq, Hgroup.
      by destruct (filed loc now (History.label loc now e) seen).
    + rewrite group_push_ne, Hgroup, app_nil_r by done. done.
  - by rewrite push_concat, Hperm.
Qed.

Lemma group_from_grouped es seen gs :
  grouped seen gs ->
  exists gs', History.group_from loc now gs (Some <$> es) = Normal gs' /\
              grouped (seen ++ es) gs'.
Proof.
  revert seen gs. induction es as [|e es IH]; intros seen gs Hg.
  - exists gs. by rewrite app_nil_r.
  - cbn. destruct (IH (seen ++ [e]) _ (grouped_push _ _ e Hg)) as (gs' & Hrun & Hg').
    exists gs'. by rewrite <- app_assoc in Hg'.
Qed.

Lemma group_from_null gs (entries : list (option History.Entry)) :
  None ∈ entries -> History.group_from loc now gs entries = Throw TypeError.
Proof.
  revert gs. induction entries as [|[e|] entries IH]; intros gs Hin.
  - by apply elem_of_nil in Hin.
  - cbn. apply IH. by apply elem_of_cons in Hin as [?|?].
  - done.
Qed.

Lemma shown_group_nodes gs :
  shown_entries (gs ≫= History.group_nodes loc) = concat gs.*2.
Proof.
  induction gs as [|[k es] gs IH]; [done|].
  cbn. unfold shown_entries in *. rewrite omap_app, IH. f_equal.
  clear. induction es as [|e es IH]; [done|]. cbn. by rewrite IH.
Qed.
End Grouping.

Lemma renderList_objects loc now (es : list History.Entry) s :
  es <> [] ->
  exists gs,
    History.groupByDate loc now (Some <$> reverse es) = Normal gs /\
    History.renderList loc now (Some <$> es) s
      = (Normal tt, History.set_listEl (gs ≫= History.group_nodes loc) s) /\
    grouped loc now (reverse es) gs.
Proof.
  intros Hne.
  destruct (group_from_grouped loc now (reverse es) [] []) as (gs & Hrun & Hg).
  { split; [apply NoDup_nil_2|]. split; [done|]. split; [done|done]. }
  exists gs. split; [exact Hrun|]. split; [|exact Hg].
  unfold History.renderList. cbn zeta. rewrite length_fmap.
  destruct es as [|e es]; [done|]. cbn [length Nat.eqb].
  rewrite <- fmap_reverse. unfold History.groupByDate. rewrite Hrun.
  by destruct s.
Qed.

Lemma renderList_empty loc now s :
  History.renderList loc now [] s
  = (Normal tt, History.set_listEl [History.EmptyMessage (lit "No conversations yet")] s).
Proof. by destruct s. Qed.

Lemma renderList_null loc now (entries : list (option History.Entry)) s :
  None ∈ entries ->
  History.renderList loc now entries s = (Throw TypeError, History.set_listEl [] s).
Proof.
  intros Hin. unfold History.renderList. cbn zeta.
  destruct entries as [|x entries]; [by apply elem_of_nil in Hin|]. cbn [length Nat.eqb].
  unfold History.groupByDate. rewrite group_from_null; [done|].
  by apply elem_of_reverse.
Qed.

(** What [renderList] shows for a list of entry objects. *)
Lemma renderList_shown loc now (es : list History.Entry) s :
  (History.renderList loc now (Some <$> es) s).1 = Normal tt /\
  shown_entries (History.listEl (History.renderList loc now (Some <$> es) s).2) ≡ₚ es.
Proof.
  destruct es as [|e es].
  - by rewrite renderList_empty.
  - destruct (renderList_objects loc now (e :: es) s) as (gs & _ & -> & Hg); [done|].
    split; [done|]. cbn [snd History.listEl History.set_listEl].
    rewrite shown_group_nodes. destruct Hg as (_ & _ & _ & ->).
    apply reverse_Permutation.
Qed.

Lemma grouped_elem_of loc now seen gs L items :
  grouped loc now seen gs ->
  (L, items) ∈ gs <-> items <> [] /\ items = filed loc now L seen.
Proof.
  intros (Hnd & _ & Hgroup & _). rewrite <- (group_elem_of _ _ _ Hnd), Hgroup.
  destruct (filed loc now L seen) as [|e l]; split.
  - done.
  - by intros [? ->].
  - intros [= <-]. done.
  - by intros [_ ->].
Qed.

Lemma loadHistory_done_ok loc now entries size s :
  History.step loc s (History.LoadDone (History.LoadOk (Some entries) size) now)
  = let s1 := History.set_statsEl
                (History.updateStats (length entries) (Js.or_zero size))
                (History.set_historyData entries s) in
    match History.renderList loc now entries s1 with
    | (Normal _, s2) => s2
    | (Throw _, s2) => History.set_listEl [History.EmptyMessage (lit "Failed to load history")] s2
    end.
Proof. done. Qed.

Lemma updateStats_eq n bytes :
  History.updateStats n bytes
  = if 0 <? n then History.Showing n (bytes / 1024) else History.NoHistory.
Proof. done. Qed.

(** When the history arrives and its entries are objects, the drawer keeps
    them, counts them in the statistics line and shows every one of them
    exactly once: newest first, under one label per day in the order the
    days first occur, each label followed by the entries filed under it.
    An empty history shows "No conversations yet" and "No history". *)
Theorem loaded_history_is_shown_by_day
    (loc : History.Locale) (now : Z) (es : list History.Entry) (size : option float)
    (s : History.State) :
  let s' := History.step loc s (History.LoadDone (History.LoadOk (Some (Some <$> es)) size) now) in
  History.historyData s' = Some <$> es /\
  History.statsEl s'
    = (if 0 <? length es then History.Showing (length es) (Js.or_zero size / 1024)
       else History.NoHistory) /\
  (History.requests s', History.console s', History.replayed s')
    = (History.requests s, History.console s, History.replayed s) /\
  (es = [] -> History.listEl s' = [History.EmptyMessage (lit "No conversations yet")]) /\
  (es <> [] ->
     exists gs,
       History.groupByDate loc now (Some <$> reverse es) = Normal gs /\
       History.listEl s' = gs ≫= History.group_nodes loc /\
       NoDup gs.*1 /\
       gs.*1 = first_seen (History.label loc now <$> reverse es) /\
       (forall L items,
          (L, items) ∈ gs <-> items <> [] /\ items = filed loc now L (reverse es))) /\
  shown_entries (History.listEl s') ≡ₚ es.
Proof.
  cbn zeta. rewrite loadHistory_done_ok. cbn zeta.
  set (s1 := History.set_statsEl _ _).
  destruct (renderList_shown loc now es s1) as [Hn Hshown].
  assert (History.renderList loc now (Some <$> es) s1
          = (Normal tt, History.set_listEl
                          (History.listEl (History.renderList loc now (Some <$> es) s1).2) s1))
    as Hr.
  { destruct es as [|e es].
    - by rewrite renderList_empty.
    - destruct (renderList_objects loc now (e :: es) s1) as (gs & _ & Hgs & _); [done|].
      by rewrite Hgs. }
  rewrite Hr in Hshown |- *. cbn [fst snd History.listEl History.set_listEl] in Hshown |- *.
  subst s1.
  cbn [History.historyData History.statsEl History.requests History.console
       History.replayed History.listEl History.set_listEl History.set_statsEl
       History.set_historyData].
  split; [done|]. split; [by rewrite length_fmap, updateStats_eq|].
  split; [done|]. split; [|split; [|done]].
  - intros ->. by rewrite renderList_empty.
  - intros Hne.
    match goal with |- context [History.renderList loc now _ ?s0] =>
      destruct (renderList_objects loc now es s0) as (gs & Hrun & Hgs & Hg); [done|]
    end.
    exists gs. rewrite Hgs. cbn [snd History.listEl History.set_listEl].
    split; [done|]. split; [done|]. destruct Hg as (Hnd & Hkeys & Hgroup & Hperm).
    split; [done|]. split; [done|]. intros L items.
    by apply (grouped_elem_of loc now (reverse es) gs).
Qed.

(** ** The history drawer: searching, and requests that fail *)

Lemma renderList_set_listEl loc now entries nodes s :
  History.renderList loc now entries (History.set_listEl nodes s)
  = History.renderList loc now entries s.
Proof. done. Qed.

Lemma renderList_sets_listEl loc now (es : list History.Entry) s :
  (History.renderList loc now (Some <$> es) s).2
  = History.set_listEl
      (History.listEl (History.renderList loc now (Some <$> es) s).2) s.
Proof.
  destruct es as [|e es].
  - by rewrite renderList_empty.
  - destruct (renderList_objects loc now (e :: es) s) as (gs & _ & -> & _); [done|]. done.
Qed.

Lemma filter_entries_objects loc q (es : list History.Entry) :
  History.filter_entries loc q (Some <$> es)
  = Normal (Some <$> filter (fun e => History.matches loc q e = true) es).
Proof.
  induction es as [|e es IH]; [done|]. rewrite fmap_cons.
  cbn [History.filter_entries]. rewrite IH. destruct (History.matches loc q e) eqn:Hm.
  - by rewrite filter_cons_True.
  - rewrite filter_cons_False; [done|]. congruence.
Qed.

Lemma on_search_objects loc now value (es : list History.Entry) s :
  History.historyData s = Some <$> es ->
  History.on_search loc now value s
  = (History.renderList loc now
       (Some <$> (match trim (History.toLowerCase loc value) with
                  | [] => es
                  | q => filter (fun e => History.matches loc q e = true) es
                  end)) s).2.
Proof.
  intros Hdata. unfold History.on_search. cbn zeta. rewrite Hdata.
  destruct (trim _) as [|c q]; [done|]. by rewrite filter_entries_objects.
Qed.

(** A search shows the entries whose prompt or response contains the
    query (lower-cased and trimmed), grouped like the full list, and all of
    them when the query is blank; when nothing matches it shows the same
    "No conversations yet" as an empty history.  It changes neither the
    entries held nor the statistics line, which keeps counting all
    entries, and it issues no request; blanking the query brings back what
    a blank query shows on the full list. *)
Theorem search_filters_what_is_shown
    (loc : History.Locale) (now : Z) (value : str) (es : list History.Entry)
    (s : History.State) :
  History.historyData s = Some <$> es ->
  let q := trim (History.toLowerCase loc value) in
  let s' := History.step loc s (History.SearchInput value now) in
  (History.historyData s', History.statsEl s', History.requests s', History.console s',
   History.replayed s')
  = (History.historyData s, History.statsEl s, History.requests s, History.console s,
     History.replayed s) /\
  (q = [] -> shown_entries (History.listEl s') ≡ₚ es) /\
  (q <> [] ->
     shown_entries (History.listEl s') ≡ₚ filter (fun e => History.matches loc q e = true) es) /\
  (q <> [] -> Forall (fun e => History.matches loc q e = false) es ->
     History.listEl s' = [History.EmptyMessage (lit "No conversations yet")]) /\
  (forall value0 now0,
     trim (History.toLowerCase loc value0) = [] ->
     History.step loc s' (History.SearchInput value0 now0)
     = History.step loc s (History.SearchInput value0 now0)).
Proof.
  intros Hdata. cbn zeta. cbn [History.step].
  rewrite (on_search_objects loc now value es s Hdata).
  set (l := match trim _ with [] => es | _ :: _ => _ end).
  rewrite renderList_sets_listEl.
  split; [done|]. split; [|split; [|split]].
  - intros Hq. cbn [History.listEl History.set_listEl].
    destruct (renderList_shown loc now l s) as [_ Hs]. rewrite Hs. subst l. by rewrite Hq.
  - intros Hq. cbn [History.listEl History.set_listEl].
    destruct (renderList_shown loc now l s) as [_ Hs]. rewrite Hs. subst l.
    by destruct (trim _).
  - intros Hq Hnone. cbn [History.listEl History.set_listEl].
    assert (l = []) as ->.
    { subst l. destruct (trim _) as [|c q]; [done|].
      apply elem_of_nil_inv. intros e [Hm He]%list_elem_of_filter.
      rewrite Forall_forall in Hnone. specialize (Hnone e He). congruence. }
    by rewrite renderList_empty.
  - intros value0 now0 Hq0.
    rewrite (on_search_objects loc now0 value0 es (History.set_listEl _ s) Hdata),
            (on_search_objects loc now0 value0 es s Hdata).
    by rewrite renderList_set_listEl.
Qed.

(** A request that fails leaves the entries the drawer holds alone.  A
    failed load only replaces the list by "Failed to load history": the
    entries, the statistics line and the outbox are as before, and the next
    search, blank or not, shows the entries again.  A history whose array
    holds a [null] is half taken over: the entries and the statistics line
    are replaced before the rendering throws, and the list shows the
    failure message.  A failed clear or save only logs an error, and a
    failed save asks for no reload; a clear that is not confirmed does
    nothing. *)
Theorem failed_requests_keep_the_history
    (loc : History.Locale) (now : Z) (es : list History.Entry) (s : History.State) :
  let failed := [History.EmptyMessage (lit "Failed to load history")] in
  History.step loc s (History.LoadDone History.LoadFails now) = History.set_listEl failed s /\
  (History.historyData s = Some <$> es ->
   forall value now',
     History.step loc (History.step loc s (History.LoadDone History.LoadFails now))
       (History.SearchInput value now')
     = History.step loc s (History.SearchInput value now')) /\
  (forall entries size, None ∈ entries ->
     History.step loc s (History.LoadDone (History.LoadOk (Some entries) size) now)
     = History.set_listEl failed
         (History.set_statsEl (History.updateStats (length entries) (Js.or_zero size))
            (History.set_historyData entries s))) /\
  History.step loc s (History.ClearClick false) = s /\
  History.step loc s (History.ClearDone false now)
    = History.set_console (History.console s ++ ["Failed to clear history:"]) s /\
  History.step loc s (History.SaveDone false)
    = History.set_console (History.console s ++ ["Failed to save history entry:"]) s.
Proof.
  cbn zeta. split; [done|]. split; [|split; [|done]].
  - intros Hdata value now'. cbn [History.step History.loadHistory_done].
    rewrite (on_search_objects loc now' value es (History.set_listEl _ s) Hdata),
            (on_search_objects loc now' value es s Hdata).
    by rewrite renderList_set_listEl.
  - intros entries size Hin. rewrite loadHistory_done_ok. cbn zeta.
    by rewrite renderList_null.
Qed.

(** ** The lines of a response *)

(** A line made of white space only. *)
Definition blank (l : str) : bool := forallb is_space l.

(** [ls.join('\n')]. *)
Fixpoint join_lines (ls : list str) : str :=
  match ls with
  | [] => []
  | [l] => l
  | l :: ls' => l ++ 10%N :: join_lines ls'
  end.

Lemma trimStart_nil (l : str) : trimStart l = [] <-> blank l = true.
Proof.
  induction l as [|c l IH]; [done|]. cbn. destruct (is_space c); [exact IH|].
  split; discriminate.
Qed.

Lemma trimStart_suffix (l : str) : exists p, l = p ++ trimStart l /\ blank p = true.
Proof.
  induction l as [|c l (p & IH & Hp)]; [by exists []|].
  cbn. destruct (is_space c) eqn:E.
  - exists (c :: p). split; [cbn; by f_equal|].
    unfold blank in *. cbn [forallb]. by rewrite E.
  - by exists [].
Qed.

Lemma blank_app (l k : str) : blank (l ++ k) = blank l && blank k.
Proof. apply forallb_app. Qed.

Lemma blank_reverse (l : str) : blank (reverse l) = blank l.
Proof.
  induction l as [|c l IH]; [done|].
  rewrite reverse_cons, blank_app, IH. cbn. rewrite andb_true_r. apply andb_comm.
Qed.

Lemma trim_nil (l : str) : trim l = [] <-> blank l = true.
Proof.
  unfold trim. split.
  - intros H. apply (f_equal reverse) in H. rewrite reverse_involutive in H. cbn in H.
    apply trimStart_nil in H. rewrite blank_reverse in H.
    destruct (trimStart_suffix l) as (p & Hl & Hp).
    rewrite Hl, blank_app, Hp, H. done.
  - intros H. apply trimStart_nil in H. rewrite H. done.
Qed.

Lemma response_lines_eq (text : str) :
  Feed.response_lines text = filter (fun l => blank l = false) (split_lines text).
Proof.
  unfold Feed.response_lines. apply list_filter_iff. intros l.
  rewrite trim_nil. destruct (blank l); split; congruence.
Qed.

Lemma split_lines_cons (text : str) : exists l ls, split_lines text = l :: ls.
Proof.
  destruct text as [|c text]; [by eexists _, _|].
  cbn. destruct (c =? 10)%N; [by eexists _, _|].
  destruct (split_lines text); by eexists _, _.
Qed.

Lemma join_split_lines (text : str) : join_lines (split_lines text) = text.
Proof.
  induction text as [|c text IH]; [done|].
  cbn [split_lines]. destruct (N.eqb_spec c 10) as [->|Hc].
  - destruct (split_lines text) as [|l ls] eqn:E;
      [destruct (split_lines_cons text) as (?&?&?); congruence|].
    change (join_lines ([] :: l :: ls)) with (10%N :: join_lines (l :: ls)).
    by rewrite IH.
  - destruct (split_lines text) as [|l ls] eqn:E;
      [destruct (split_lines_cons text) as (?&?&?); congruence|].
    destruct ls as [|l' ls]; cbn in *; by rewrite IH.
Qed.

Lemma split_lines_no_newline (text l : str) : l ∈ split_lines text -> 10%N ∉ l.
Proof.
  revert l. induction text as [|c text IH]; intros l Hl.
  - apply list_elem_of_singleton in Hl as ->. apply not_elem_of_nil.
  - cbn [split_lines] in Hl. destruct (N.eqb_spec c 10) as [->|Hc].
    + apply elem_of_cons in Hl as [->|Hl]; [apply not_elem_of_nil|by apply IH].
    + destruct (split_lines text) as [|k ks].
      * apply list_elem_of_singleton in Hl as ->. intros [E|E]%elem_of_cons; [done|].
        by apply not_elem_of_nil in E.
      * apply elem_of_cons in Hl as [->|Hl].
        -- intros [E|E]%elem_of_cons; [done|]. apply (IH k); [left|done].
        -- apply IH. by right.
Qed.

Lemma blank_false (l : str) : blank l = false -> exists u, u ∈ l /\ is_space u = false.
Proof.
  induction l as [|c l IH]; [done|]. unfold blank in *. cbn [forallb].
  destruct (is_space c) eqn:E.
  - intros (u & Hu & Hs)%IH. exists u. split; [by right|done].
  - intros _. exists c. split; [by left|done].
Qed.

Lemma elapsed_shown (start : option Z) (t : Z) :
  match
    match start with
    | Some 0%Z | None => None
    | Some t0 => Some (t - t0)%Z
    end
  with
  | Some 0%Z | None => None
  | Some d => Some d
  end
  = match start with
    | Some t0 => if bool_decide (t0 = 0%Z \/ t = t0) then None else Some (t - t0)%Z
    | None => None
    end.
Proof.
  destruct start as [t0|]; [|done].
  case_bool_decide as H.
  - destruct H as [->| ->]; [done|]. destruct t0; try done; by rewrite Z.sub_diag.
  - assert (t0 <> 0 /\ t - t0 <> 0)%Z as [H0 H1] by lia.
    destruct t0; [done| |]; by destruct (t - _)%Z.
Qed.

(** The entry the feed shows for a response to a command that is not an
    internal one.  The text is cut at its line feeds, which loses nothing
    ([join_lines] gives the text back); the lines made of white space only,
    the empty ones among them, are left out; the title is the first
    remaining line, cut to 60 code units, and the others are the sub-lines,
    in their order.  A text with no such line is titled "Response
    delivered" and has no sub-lines.  The entry is an unexpanded "action"
    entry whose time is the delay since the command, or none when no
    command was started (or the delay is zero). *)
Theorem response_entry_skips_blank_lines
    (text command : option str) (t : Z) (c : Feed.Clock) (s : Feed.State) :
  startsWith (or_empty command) (lit "_") = false ->
  let shown := filter (fun l => blank l = false) (split_lines (or_empty text)) in
  join_lines (split_lines (or_empty text)) = or_empty text /\
  (forall l, l ∈ shown -> (10%N ∉ l) /\ exists u, u ∈ l /\ is_space u = false) /\
  exists e rest,
    Feed.entries (Feed.on_command_response text command t c s) = e :: rest /\
    Feed.type e = lit "action" /\
    Feed.title e
    = lit "Response " ++ [8212%N] ++ lit " " ++
      match shown with
      | l :: _ => truncate l 60
      | [] => lit "Response delivered"
      end /\
    Feed.lines e = tail shown /\
    Feed.expanded e = false /\
    Feed.processingTimeMs e
    = match Feed.commandStartTime s with
      | Some t0 => if bool_decide (t0 = 0%Z \/ t = t0) then None else Some (t - t0)%Z
      | None => None
      end /\
    Feed.commandStartTime (Feed.on_command_response text command t c s) = None.
Proof.
  intros Hcmd. cbn zeta. split; [apply join_split_lines|]. split.
  - intros l [Hb Hl]%list_elem_of_filter.
    split; [by apply (split_lines_no_newline _ _ Hl)|by apply blank_false].
  - unfold Feed.on_command_response. rewrite Hcmd. cbn zeta.
    rewrite response_lines_eq.
    set (shown := filter (fun l => blank l = false) (split_lines (or_empty text))).
    unfold Feed.addEntry. cbn zeta.
    cbn [snd Feed.entries Feed.commandStartTime Feed.set_currentServicesUsed Feed.set_dispatched
         Feed.render Feed.set_feed Feed.set_entries].
    match goal with
    | |- context [if (Feed.MAX_VISIBLE + 1 <? ?n) then _ else _] =>
        destruct (Feed.MAX_VISIBLE + 1 <? n)
    end.
    all: eexists _, _; split; [reflexivity|]; cbn [Feed.type Feed.title Feed.lines
           Feed.expanded Feed.processingTimeMs default].
    all: split; [reflexivity|]; split; [reflexivity|].
    all: split; [by destruct shown as [|a [|b r]]|]; split; [reflexivity|].
    all: split; [apply elapsed_shown|].
    all: by destruct (Feed.activeThinking _) as [[|? ?]|].
Qed.

(** ** Checks on concrete sessions of the feed and the drawer *)

(** A host clock, [n] milliseconds into a session. *)
Definition clock (n : Z) : Feed.Clock :=
  {| Feed.now := 1700000000000 + n; Feed.random36 := lit "0.k3v9x2abcde";
     Feed.date := 1700000000000 + n |}.

(** The page reports ready, the user types a command, a tool runs. *)
Definition asking : list Feed.Event :=
  [Feed.SystemReady (clock 0);
   Feed.UserCommand (Some (lit "what time is it")) 1700000001000 (clock 1000) (clock 1001);
   Feed.ToolExecuting (Some (lit "get_time")) (clock 1200)].

Lemma one_thinking_indicator_while_asking :
  let s := Feed.run Feed.init asking in
  let answered :=
    Feed.step s (Feed.CommandResponse (Some (lit "It is noon.")) (Some (lit "time"))
                   1700000001500 (clock 1500)) in
  length (filter is_thinking (Feed.entries s)) <= 1 /\
  Feed.title <$> Feed.entries s
    = [lit "Running get time..."; lit "Nex(what time is it)"; lit "All systems ready"] /\
  filter is_thinking (Feed.entries answered) = [].
Proof.
  destruct (one_thinking_indicator asking) as (Hone & _ & Hsettle & _).
  { by repeat constructor. }
  split; [exact Hone|]. split; [vm_compute; reflexivity|].
  apply Hsettle; [exact I | vm_compute; reflexivity].
Defined.

(** An entry with five lines, shown collapsed. *)
Definition long_entry : Feed.Entry :=
  {| Feed.id := lit "cf-1700000000000-k3v9x2"; Feed.type := lit "action";
     Feed.title := lit "Response"; 
     Feed.lines := [lit "one"; lit "two"; lit "three"; lit "four"; lit "five"];
     Feed.processingTimeMs := Some 420%Z; Feed.timestamp := 1700000000000;
     Feed.expanded := false |}.

Definition showing_long_entry : Feed.State :=
  Feed.render (Feed.set_entries [long_entry] Feed.init).

Lemma hover_on_a_long_entry :
  Feed.mouseleave 0 (Feed.mouseenter 0 showing_long_entry) = showing_long_entry /\
  (exists el box,
     Feed.feed (Feed.mouseenter 0 showing_long_entry) !! 0 = Some el /\
     Feed.linesBox el = Some box /\ Feed.box_expanded box = true /\
     length (Feed.box_lines box) = 5 /\ Feed.box_more box = None).
Proof.
  destruct (hover_expands_and_restores showing_long_entry 0 long_entry)
    as (_ & Hshown & Hback); [reflexivity..|].
  split; [exact Hback|].
  destruct Hshown as [_ Hopen]; [cbn; lia | lia |]. exact Hopen.
Defined.

Lemma spoken_command_with_two_tools :
  let s3 :=
    Feed.step
      (Feed.run
         (Feed.step Feed.init
            (Feed.MicTranscribed (Some (lit "lights on")) 1700000001000 (clock 1000)
               (clock 1001)))
         ((fun nc => Feed.ToolExecuting nc.1 nc.2)
            <$> [(Some (lit "home_lights"), clock 1100); (None, clock 1200)]))
      (Feed.CommandResponse (Some (lit "Done.")) (Some (lit "lights")) 1700000001500
         (clock 1500)) in
  Feed.dispatched s3
  = [{| detail_userPrompt := Some (lit "lights"); detail_nexResponse := Some (lit "Done.");
        detail_processingTimeMs := Some 500%Z;
        detail_servicesUsed := [lit "stt"; lit "home_lights"; lit "tool"; lit "tts"] |}] /\
  Feed.currentServicesUsed s3 = [].
Proof.
  destruct (command_is_recorded_with_its_services Feed.init true (Some (lit "lights on"))
              1700000001000 (clock 1000) (clock 1001)
              [(Some (lit "home_lights"), clock 1100); (None, clock 1200)]
              (Some (lit "Done.")) (Some (lit "lights")) 1700000001500 (clock 1500))
    as (Hd & Hs & _); [reflexivity | discriminate |].
  split; [exact Hd | exact Hs].
Defined.

(** A host with a plain calendar, twelve months of thirty days from the
    epoch, and ASCII case mapping. *)
Definition day_ms : Z := 86400000.

Definition plain_locale : History.Locale :=
  {| History.calendar := fun t =>
       (1970 + t / (360 * day_ms), (t / (30 * day_ms)) mod 12, 1 + (t / day_ms) mod 30)%Z;
     History.dateLabel := fun t =>
       dec (1 + (t / day_ms) mod 30) ++ lit "/" ++ dec (1 + (t / (30 * day_ms)) mod 12)
       ++ lit "/" ++ dec (1970 + t / (360 * day_ms));
     History.timeLabel := fun t =>
       padStart2 (dec ((t / 3600000) mod 24)) ++ lit ":" ++ padStart2 (dec ((t / 60000) mod 60));
     History.toLowerCase :=
       fmap (fun c => if ((65 <=? c) && (c <=? 90))%N then (c + 32)%N else c) |}.

(** Noon of day 100, and three conversations: one two days before, one the
    evening before, one that morning. *)
Definition noon : Z := 100 * day_ms + 43200000.

Definition older : History.Entry :=
  {| History.timestamp := Some (98 * day_ms + 3600000)%Z;
     History.userPrompt := Some (lit "Weather"); History.nexResponse := Some (lit "Sunny.") |}.
Definition last_evening : History.Entry :=
  {| History.timestamp := Some (99 * day_ms + 72000000)%Z;
     History.userPrompt := Some (lit "lights"); History.nexResponse := Some (lit "Done.") |}.
Definition this_morning : History.Entry :=
  {| History.timestamp := Some (100 * day_ms + 28800000)%Z;
     History.userPrompt := Some (lit "time"); History.nexResponse := Some (lit "It is 8 <am>.") |}.

Lemma this_morning_is_filed_under_today :
  (History.label plain_locale noon this_morning,
   History.label plain_locale noon last_evening,
   History.label plain_locale noon older)
  = (lit "TODAY", lit "YESTERDAY", lit "9/4/1970").
Proof.
  assert (forall t, t ∈ [noon; (noon - 86400000)%Z; (98 * day_ms + 3600000)%Z;
                         (99 * day_ms + 72000000)%Z; (100 * day_ms + 28800000)%Z] ->
                    calendar_in_range plain_locale t) as Hrange.
  { intros t Ht.
    repeat (apply elem_of_cons in Ht as [->|Ht];
            [vm_compute; repeat split; discriminate|]).
    by apply elem_of_nil in Ht. }
  assert (forall e t, History.timestamp e = Some t -> calendar_in_range plain_locale t ->
            History.label plain_locale noon e =
              if decide (History.calendar plain_locale t = History.calendar plain_locale noon)
              then lit "TODAY"
              else if decide (History.calendar plain_locale t
                              = History.calendar plain_locale (noon - 86400000)%Z)
                   then lit "YESTERDAY"
                   else History.dateLabel plain_locale t) as H.
  { intros e t He Ht.
    destruct (entries_are_filed_by_local_day plain_locale noon e) as [Hvalid _].
    - apply Hrange. apply list_elem_of_here.
    - apply Hrange. apply list_elem_of_further, list_elem_of_here.
    - by apply Hvalid. }
  rewrite (H this_morning _ eq_refl), (H last_evening _ eq_refl), (H older _ eq_refl).
  - vm_compute. reflexivity.
  - apply Hrange. do 2 apply list_elem_of_further. apply list_elem_of_here.
  - apply Hrange. do 3 apply list_elem_of_further. apply list_elem_of_here.
  - apply Hrange. do 4 apply list_elem_of_further. apply list_elem_of_here.
Defined.

(** The drawer after these three conversations have been loaded. *)
Definition loaded : History.State :=
  History.step plain_locale (History.init [])
    (History.LoadDone (History.LoadOk (Some (Some <$> [older; last_evening; this_morning]))
                         (Some 2048%float)) noon).

Example loaded_list :
  (fun n => match n with
            | History.DateLabel l => inl l
            | History.EmptyMessage l => inl l
            | History.Item it => inr (History.item_time it, History.item_response it)
            end) <$> History.listEl loaded
  = [inl (lit "TODAY");
     inr (lit "08:00", History.Markup (lit "It is 8 &lt;am&gt;."));
     inl (lit "YESTERDAY");
     inr (lit "20:00", History.Markup (lit "Done."));
     inl (lit "9/4/1970");
     inr (lit "01:00", History.Markup (lit "Sunny."))] /\
  History.statsEl loaded = History.Showing 3 2.
Proof. vm_compute. split; reflexivity. Qed.

Lemma search_for_lights :
  let s' := History.step plain_locale loaded (History.SearchInput (lit "  LIGHTS ") noon) in
  shown_entries (History.listEl s') ≡ₚ [last_evening] /\
  History.statsEl s' = History.Showing 3 2 /\
  History.step plain_locale s' (History.SearchInput [] noon)
  = History.step plain_locale loaded (History.SearchInput [] noon).
Proof.
  destruct (search_filters_what_is_shown plain_locale noon (lit "  LIGHTS ")
              [older; last_evening; this_morning] loaded)
    as (Hkeep & _ & Hshown & _ & Hblank); [vm_compute; reflexivity|].
  split; [|split].
  - rewrite Hshown by (vm_compute; discriminate). vm_compute. reflexivity.
  - apply (f_equal (fun x => x.1.1.1.2)) in Hkeep. cbn [fst snd] in Hkeep.
    rewrite Hkeep. vm_compute. reflexivity.
  - apply Hblank. vm_compute. reflexivity.
Defined.

(** A reply whose second and third lines are blank. *)
Definition reply : str :=
  lit "Done." ++ [10; 10; 32; 9; 13; 10]%N ++ lit "Lights are off." ++ [10]%N.

Lemma reply_with_blank_lines :
  exists e rest,
    Feed.entries
      (Feed.on_command_response (Some reply) (Some (lit "lights off")) 1500 (clock 1500)
         Feed.init)
    = e :: rest /\
    Feed.title e = lit "Response " ++ [8212%N] ++ lit " Done." /\
    Feed.lines e = [lit "Lights are off."] /\
    Feed.processingTimeMs e = None.
Proof.
  destruct (response_entry_skips_blank_lines (Some reply) (Some (lit "lights off")) 1500
              (clock 1500) Feed.init eq_refl)
    as (_ & _ & e & rest & He & _ & Ht & Hl & _ & Hp & _).
  exists e, rest. split; [exact He|]. split; [exact Ht|]. split; [exact Hl|exact Hp].
Defined.
